(** * The prompt/answer pairing tools of [tools/prompt-analysis]

    A shallow embedding of [export_pairs/main.py] (token counter, message
    loaders, session sort, turn pairer, record export), of [stats/main.py]
    (no-data guard, counters, [parse_day], [escape_xml]) and of the chunk
    loop of [chunk_pairs/main.py], with the properties of the
    specification stated and proved (or refuted) over it, and further
    properties of the code.

    Conventions.
    - A Python [str] is a [string]; each [ascii] stands for the code point
      of the same number, so the model covers the code points below 256.
    - Python's [None] is [None] of an option type, or [JNull] where the
      value comes out of a decoded JSON document.
    - A function that can let an exception escape returns an [option];
      [None] is the escaped exception.
    - A decoded JSON number is an integer: documents that hold a
      non-integer number are outside the model. *)

From Stdlib Require Import ZArith NArith Ascii String List Lia Permutation Sorted.
From stdpp Require Import base option list gmap strings.

Local Open Scope Z_scope.
Set Warnings "-register-all,-clear-no-such-hyp".

(** ** Python string operations used by the source *)

Module PyStr.

(** [str.isspace] for one character, on the code points below 256:
    TAB..CR, FS..US, SPACE, NEL and NBSP. *)
Definition isspace (c : ascii) : bool :=
  let n := N_of_ascii c in
  ((9 <=? n) && (n <=? 13) || (28 <=? n) && (n <=? 32)
   || (n =? 133) || (n =? 160))%N.

(** [s.lstrip()] *)
Fixpoint lstrip (s : string) : string :=
  match s with
  | String c s' => if isspace c then lstrip s' else s
  | EmptyString => EmptyString
  end.

(** [s.rstrip()] *)
Fixpoint rstrip (s : string) : string :=
  match s with
  | EmptyString => EmptyString
  | String c s' =>
      match rstrip s' with
      | EmptyString => if isspace c then EmptyString else String c EmptyString
      | r => String c r
      end
  end.

(** [s.strip()] *)
Definition strip (s : string) : string := rstrip (lstrip s).

(** [s.startswith(p)] *)
Definition startswith (s p : string) : bool := String.prefix p s.

(** [sub in s] *)
Fixpoint contains (sub s : string) : bool :=
  String.prefix sub s ||
  match s with
  | EmptyString => false
  | String _ s' => contains sub s'
  end.

(** [s.split()]: the maximal runs of non-whitespace characters, in
    order; [cur] is the run being read. *)
Fixpoint split_go (cur : string) (s : string) : list string :=
  match s with
  | EmptyString => match cur with EmptyString => [] | _ => [cur] end
  | String c s' =>
      if isspace c
      then match cur with
           | EmptyString => split_go EmptyString s'
           | _ => cur :: split_go EmptyString s'
           end
      else split_go (cur +:+ String c EmptyString) s'
  end.

Definition split (s : string) : list string := split_go EmptyString s.

(** The one-character string ["\n"]. *)
Definition nl : string := String (ascii_of_N 10) EmptyString.

(** [sep.join(parts)] *)
Definition join (sep : string) (parts : list string) : string :=
  String.concat sep parts.

(** Truth value of a [str]: empty is false. *)
Definition nonempty (s : string) : bool :=
  match s with EmptyString => false | _ => true end.

(** Last character of a string, if any. *)
Fixpoint last_char (s : string) : option ascii :=
  match s with
  | EmptyString => None
  | String c EmptyString => Some c
  | String _ s' => last_char s'
  end.

(** The decimal digits. *)
Definition is_digit (c : ascii) : bool :=
  let n := N_of_ascii c in ((48 <=? n) && (n <=? 57))%N.

(** [s.endswith(c)] for a one-character suffix. *)
Definition endswith_char (s : string) (c : ascii) : bool :=
  match last_char s with
  | Some d => if ascii_dec d c then true else false
  | None => false
  end.

End PyStr.

(** ** Token counter *)

(** The tokenizer capability ([tiktoken]'s encoding object): only
    [encode] is used, and only the length of its result.  [encode] is
    called with its defaults, under which it raises [ValueError] on a
    text that holds a special token: [None] is that exception. *)
Record tokenizer := Tokenizer { encode : string -> option (list Z) }.

(** [count_tokens(text, tokenizer)]; [text] may be [None], [tokenizer]
    is [None] when [load_tokenizer] found no encoding.  The call of
    [encode] is not guarded: what it raises escapes. *)
Definition count_tokens (text : option string) (tok : option tokenizer) : option Z :=
  match text with
  | None => Some 0
  | Some EmptyString => Some 0
  | Some t =>
      match tok with
      | None => Some (Z.of_nat (length (PyStr.split t)))
      | Some k => Z.of_nat ∘ length <$> encode k t
      end
  end.

(** ** Decoded JSON values *)

(** What [json.load] returns, without the non-integer numbers: [None],
    [bool], [int], [str], [list] and [dict].  A [JDict] holds the decoded
    object, so its keys are distinct. *)
Inductive json :=
| JNull
| JBool (b : bool)
| JInt (n : Z)
| JStr (s : string)
| JList (items : list json)
| JDict (fields : list (string * json)).

Module Json.

(** Truth value of a decoded value ([if v:], [v or None]). *)
Definition truthy (v : json) : bool :=
  match v with
  | JNull => false
  | JBool b => b
  | JInt n => negb (n =? 0)
  | JStr s => PyStr.nonempty s
  | JList items => match items with [] => false | _ => true end
  | JDict fields => match fields with [] => false | _ => true end
  end.

(** [v is None] *)
Definition is_null (v : json) : bool :=
  match v with JNull => true | _ => false end.

(** [v or None] *)
Definition or_none (v : json) : json := if truthy v then v else JNull.

Fixpoint lookup (k : string) (fields : list (string * json)) : option json :=
  match fields with
  | [] => None
  | (k', v) :: rest => if String.eqb k k' then Some v else lookup k rest
  end.

(** [d.get(k, dflt)] on a decoded object. *)
Definition get_default (d : list (string * json)) (k : string) (dflt : json) : json :=
  match lookup k d with Some v => v | None => dflt end.

(** [d.get(k)] *)
Definition get (d : list (string * json)) (k : string) : json :=
  get_default d k JNull.

(** [v == s] for a string literal [s]. *)
Definition eq_str (v : json) (s : string) : bool :=
  match v with JStr t => String.eqb t s | _ => false end.

(** Hashable values, the ones a [dict] accepts as keys. *)
Definition hashable (v : json) : bool :=
  match v with JList _ | JDict _ => false | _ => true end.

(** Equality of two hashable values as dictionary keys
    ([True == 1] and [False == 0] in Python). *)
Definition key_eqb (a b : json) : bool :=
  match a, b with
  | JNull, JNull => true
  | JBool x, JBool y => Bool.eqb x y
  | JBool x, JInt y | JInt y, JBool x => (if x then 1 else 0) =? y
  | JInt x, JInt y => x =? y
  | JStr x, JStr y => String.eqb x y
  | _, _ => false
  end.

End Json.

(** ** [datetime] values *)

(** A [datetime.datetime]: the calendar fields, and [tzinfo] given by its
    UTC offset in microseconds ([None] for a naive value). *)
Record datetime := Datetime {
  year : N; month : N; day : N;
  hour : N; minute : N; second : N; microsecond : N;
  tzinfo : option Z
}.

Module DT.

(** [datetime.min] *)
Definition min : datetime := Datetime 1 1 1 0 0 0 0 None.

(** The field ranges every [datetime] object satisfies. *)
Definition valid (d : datetime) : Prop :=
  (1 <= year d <= 9999 /\ 1 <= month d <= 12 /\ 1 <= day d <= 31 /\
   hour d <= 23 /\ minute d <= 59 /\ second d <= 59 /\
   microsecond d <= 999999)%N.

(** Comparison of the field tuples
    [(year, month, day, hour, minute, second, microsecond)]. *)
Definition fields (d : datetime) : list N :=
  [year d; month d; day d; hour d; minute d; second d; microsecond d].

Fixpoint tuple_lt (a b : list N) : bool :=
  match a, b with
  | x :: a', y :: b' => (x <? y)%N || ((x =? y)%N && tuple_lt a' b')
  | [], _ :: _ => true
  | _, [] => false
  end.

Definition is_leap (y : Z) : bool :=
  (y mod 4 =? 0) && (negb (y mod 100 =? 0) || (y mod 400 =? 0)).

Definition days_before_year (y : Z) : Z :=
  let p := y - 1 in p * 365 + p / 4 - p / 100 + p / 400.

Definition days_before_month (y m : Z) : Z :=
  nth (Z.to_nat m) [-1; 0; 31; 59; 90; 120; 151; 181; 212; 243; 273; 304; 334] 0
  + (if (2 <? m) && is_leap y then 1 else 0).

(** [_ymd2ord] *)
Definition ymd2ord (y m d : Z) : Z :=
  days_before_year y + days_before_month y m + d.

(** Microseconds from the start of day 0 to the wall-clock reading. *)
Definition wall_micros (d : datetime) : Z :=
  ((ymd2ord (Z.of_N (year d)) (Z.of_N (month d)) (Z.of_N (day d)) * 86400
    + Z.of_N (hour d) * 3600 + Z.of_N (minute d) * 60 + Z.of_N (second d))
   * 1000000 + Z.of_N (microsecond d)).

(** [a < b].  Two naive values, or two aware values with the same
    offset, compare by their fields; two aware values with different
    offsets compare by [a - b], which takes the offsets into account;
    a naive and an aware value raise [TypeError]. *)
Definition lt (a b : datetime) : option bool :=
  match tzinfo a, tzinfo b with
  | None, None => Some (tuple_lt (fields a) (fields b))
  | Some oa, Some ob =>
      if oa =? ob then Some (tuple_lt (fields a) (fields b))
      else Some (wall_micros a - wall_micros b + ob - oa <? 0)
  | _, _ => None
  end.

(** *** [isoformat] *)

Definition digit (d : N) : ascii := ascii_of_N (48 + d).

Fixpoint decimal_go (fuel : nat) (n : N) (acc : string) : string :=
  match fuel with
  | O => acc
  | S fuel' =>
      let acc' := String (digit (n mod 10)) acc in
      if (n / 10 =? 0)%N then acc' else decimal_go fuel' (n / 10)%N acc'
  end.

(** ["%d" % n] *)
Definition decimal (n : N) : string :=
  decimal_go (S (N.to_nat (N.log2 n))) n EmptyString.

Fixpoint zeros (k : nat) : string :=
  match k with O => EmptyString | S k' => String "0"%char (zeros k') end.

(** ["%0wd" % n] *)
Definition pad0 (w : nat) (n : N) : string :=
  let s := decimal n in zeros (w - String.length s) +:+ s.

(** [_format_time(hh, mm, ss, us, 'auto')] *)
Definition format_time (d : datetime) : string :=
  pad0 2 (hour d) +:+ ":" +:+ pad0 2 (minute d) +:+ ":" +:+ pad0 2 (second d)
  +:+ (if (microsecond d =? 0)%N then EmptyString
       else "." +:+ pad0 6 (microsecond d)).

(** [_format_offset(off)] for an offset in microseconds. *)
Definition format_offset (off : option Z) : string :=
  match off with
  | None => EmptyString
  | Some o =>
      let sign := if o <? 0 then "-" else "+" in
      let a := Z.to_N (Z.abs o) in
      let hh := (a / 3600000000)%N in
      let r := (a mod 3600000000)%N in
      let mm := (r / 60000000)%N in
      let ss := (r mod 60000000)%N in
      sign +:+ pad0 2 hh +:+ ":" +:+ pad0 2 mm
      +:+ (if (ss =? 0)%N then EmptyString
           else ":" +:+ pad0 2 (ss / 1000000)%N
                +:+ (if (ss mod 1000000 =? 0)%N then EmptyString
                     else "." +:+ pad0 6 (ss mod 1000000)%N))
  end.

(** [d.isoformat()] *)
Definition isoformat (d : datetime) : string :=
  pad0 4 (year d) +:+ "-" +:+ pad0 2 (month d) +:+ "-" +:+ pad0 2 (day d)
  +:+ "T" +:+ format_time d +:+ format_offset (tzinfo d).

End DT.

(** ** Normalized messages and session dictionaries *)

(** The [dict] both loaders build for one message.  [role], [title] and
    the four metadata fields hold whatever the decoded document held. *)
Record message := Message {
  msg_source : string;
  msg_session_id : json;
  msg_role : json;
  msg_text : string;
  msg_time : option datetime;
  msg_title : json;
  msg_model : json;
  msg_provider : json;
  msg_agent : json;
  msg_mode : json;
  msg_tools : list string
}.

Definition is_user (m : message) : bool := Json.eq_str (msg_role m) "user".
Definition is_assistant (m : message) : bool := Json.eq_str (msg_role m) "assistant".

(** A Python [dict] keyed by decoded values, in insertion order. *)
Module PyDict.
Section Dict.
Context {V : Type}.

Definition dict := list (json * V).

Fixpoint get (k : json) (d : dict) : option V :=
  match d with
  | [] => None
  | (k', v) :: d' => if Json.key_eqb k' k then Some v else get k d'
  end.

(** [d[k] = v]: an existing key keeps its place. *)
Fixpoint set (k : json) (v : V) (d : dict) : dict :=
  match d with
  | [] => [(k, v)]
  | (k', v') :: d' =>
      if Json.key_eqb k' k then (k', v) :: d' else (k', v') :: set k v d'
  end.

(** [d.update(other)] *)
Definition update (d other : dict) : dict :=
  fold_left (fun acc kv => set (fst kv) (snd kv) acc) other d.

(** Keys are hashable and pairwise different, as in every [dict]. *)
Fixpoint wf (d : dict) : Prop :=
  match d with
  | [] => True
  | (k, _) :: d' => Json.hashable k = true /\ get k d' = None /\ wf d'
  end.
End Dict.
Arguments dict V : clear implicits.

(** [d.setdefault(k, []).extend(vs)] *)
Definition extend {A} (k : json) (vs : list A) (d : dict (list A)) : dict (list A) :=
  match get k d with
  | Some old => set k (old ++ vs) d
  | None => set k ([] ++ vs) d
  end.
End PyDict.

(** One record read by a loader: dropped, or appended to a session. *)
Inductive loaded :=
| Skip
| Emit (session_id : json) (m : message).

Definition suggestion_marker : string := "[SUGGESTION MODE:".
Definition ide_marker : string := "<ide_opened_file>".
Definition interrupted_marker : string := "[Request interrupted by user for tool use]".

(** [out_text[:max_tool_len] + "..."] when the limit is positive and exceeded. *)
Definition truncate_tool (max_tool_len : Z) (out_text : string) : string :=
  if (0 <? max_tool_len) && (max_tool_len <? Z.of_nat (String.length out_text))
  then String.substring 0 (Z.to_nat max_tool_len) out_text +:+ "..."
  else out_text.

(** The loaders' options. *)
Record options := Options {
  include_tool_output : bool;
  max_tool_len : Z;
  include_system : bool;
  include_subagents : bool;
  exclude_suggestion_mode : bool;
  include_ide_events : bool
}.

(** The four content filters both loaders apply to the extracted text;
    [true] when the message is dropped. *)
Definition filtered_out (o : options) (text : string) : bool :=
  (exclude_suggestion_mode o && PyStr.startswith (PyStr.lstrip text) suggestion_marker)
  || (negb (include_ide_events o) && PyStr.contains ide_marker text)
  || PyStr.startswith (PyStr.strip text) interrupted_marker.

(** ** The opencode loader *)

(** The storage tree as the loader reads it: the decoded [.json] files
    below [storage/session] and [storage/message] in walk order ([None]
    for a file that fails to open or decode, no file when the directory
    is missing), and for a directory name below [storage/part] its
    decoded [.json] files in sorted name order ([None] when there is no
    such directory). *)
Record opencode_storage := OpencodeStorage {
  session_files : list (option json);
  message_files : list (option json);
  part_dir : string -> option (list (option json))
}.

(** [load_opencode_session_titles]; an unhashable id raises. *)
Fixpoint load_opencode_session_titles (files : list (option json))
    (titles : PyDict.dict json) : option (PyDict.dict json) :=
  match files with
  | [] => Some titles
  | Some (JDict payload) :: rest =>
      let id := Json.get payload "id" in
      let title := Json.get payload "title" in
      if Json.truthy id && Json.truthy title
      then if Json.hashable id
           then load_opencode_session_titles rest (PyDict.set id title titles)
           else None
      else load_opencode_session_titles rest titles
  | _ :: rest => load_opencode_session_titles rest titles
  end.

(** The text one part file contributes in [extract_opencode_parts]. *)
Definition opencode_part_text (o : options) (file : option json) : option string :=
  match file with
  | Some (JDict part) =>
      let text_value := Json.get part "text" in
      match Json.eq_str (Json.get part "type") "text", text_value with
      | true, JStr tv =>
          let text := PyStr.strip tv in
          if PyStr.nonempty text then Some text else None
      | _, _ =>
          if Json.eq_str (Json.get part "type") "tool" && include_tool_output o
          then
            let state := Json.get_default part "state" (JDict []) in
            let output := match state with
                          | JDict st => Json.get st "output"
                          | _ => JNull
                          end in
            match output with
            | JStr out =>
                let out_text := PyStr.strip out in
                if PyStr.nonempty out_text
                then Some ("TOOL_OUTPUT: " +:+ truncate_tool (max_tool_len o) out_text)
                else None
            | _ => None
            end
          else None
      end
  | _ => None
  end.

(** [extract_opencode_parts]; [os.path.join] raises on a message id that
    is true and no string. *)
Definition extract_opencode_parts (st : opencode_storage) (o : options)
    (message_id : json) : option string :=
  if negb (Json.truthy message_id) then Some EmptyString
  else match message_id with
       | JStr id =>
           match part_dir st id with
           | None => Some EmptyString
           | Some files =>
               Some (PyStr.join PyStr.nl (omap (opencode_part_text o) files))
           end
       | _ => None
       end.

Section OpencodeLoader.
(** [datetime.fromtimestamp(created_ms / 1000.0)]: a naive local time,
    or an exception when the value is out of range. *)
Variable fromtimestamp_ms : Z -> option datetime.
Variable st : opencode_storage.
Variable o : options.
Variable titles : PyDict.dict json.

(** The body of the loop over message files, for one file. *)
Definition opencode_message (file : option json) : option loaded :=
  match file with
  | Some (JDict msg) =>
      let session_id := Json.get_default msg "sessionID" (JStr "unknown") in
      let role := Json.get msg "role" in
      if negb (include_system o)
         && negb (Json.eq_str role "user" || Json.eq_str role "assistant")
      then Some Skip
      else
        let message_id := Json.get msg "id" in
        let model_id0 := Json.or_none (Json.get msg "modelID") in
        let provider_id0 := Json.or_none (Json.get msg "providerID") in
        let '(model_id, provider_id) :=
          match Json.truthy model_id0, Json.get msg "model" with
          | false, JDict md => (Json.get md "modelID", Json.get md "providerID")
          | _, _ => (model_id0, provider_id0)
          end in
        let agent := Json.or_none (Json.get msg "agent") in
        let mode := Json.or_none (Json.get msg "mode") in
        let time_block :=
          match Json.get msg "time" with JDict tb => tb | _ => [] end in
        let created_ms := Json.get time_block "created" in
        created ← match created_ms with
                  | JInt n => Some <$> fromtimestamp_ms n
                  | JBool b => Some <$> fromtimestamp_ms (if b then 1 else 0)
                  | _ => Some None
                  end;
        text ← extract_opencode_parts st o message_id;
        if filtered_out o text then Some Skip
        else if negb (PyStr.nonempty (PyStr.strip text)) then Some Skip
        else if negb (Json.hashable session_id) then None
        else Some (Emit session_id
               {| msg_source := "opencode";
                  msg_session_id := session_id;
                  msg_role := role;
                  msg_text := text;
                  msg_time := created;
                  msg_title := default JNull (PyDict.get session_id titles);
                  msg_model := model_id;
                  msg_provider := provider_id;
                  msg_agent := agent;
                  msg_mode := mode;
                  msg_tools := [] |})
  | _ => Some Skip
  end.

Fixpoint opencode_loop (files : list (option json))
    (messages : PyDict.dict (list message)) : option (PyDict.dict (list message)) :=
  match files with
  | [] => Some messages
  | file :: rest =>
      match opencode_message file with
      | None => None
      | Some Skip => opencode_loop rest messages
      | Some (Emit sid m) => opencode_loop rest (PyDict.extend sid [m] messages)
      end
  end.
End OpencodeLoader.

(** [load_opencode_messages] *)
Definition load_opencode_messages (fromtimestamp_ms : Z -> option datetime)
    (st : opencode_storage) (o : options) : option (PyDict.dict (list message)) :=
  titles ← load_opencode_session_titles (session_files st) [];
  opencode_loop fromtimestamp_ms st o titles (message_files st) [].

(** ** The claude loader *)

(** [ts.replace("Z", "+00:00")] *)
Fixpoint replace_Z (ts : string) : string :=
  match ts with
  | EmptyString => EmptyString
  | String c rest =>
      if Ascii.eqb c "Z" then "+00:00" +:+ replace_Z rest
      else String c (replace_Z rest)
  end.

(** [parse_iso]; [fromisoformat] is the standard library's parser, [None]
    where it raises.  A value that is no string raises inside the [try]. *)
Definition parse_iso (fromisoformat : string -> option datetime) (ts : json)
    : option datetime :=
  if negb (Json.truthy ts) then None
  else match ts with
       | JStr s => fromisoformat (replace_Z s)
       | _ => None
       end.

(** The strings one child of a [tool_result] list contributes. *)
Definition tool_result_chunk (child : json) : list string :=
  match child with
  | JDict c =>
      (match Json.get c "text" with JStr t => [t] | _ => [] end)
      ++ (match Json.get c "content" with JStr t => [t] | _ => [] end)
  | _ => []
  end.

(** One item of a content list in [extract_claude_text]: [None] when an
    exception escapes, [Some None] when nothing is appended. *)
Definition claude_text_item (o : options) (item : json) : option (option string) :=
  match item with
  | JDict it =>
      let typ := Json.get it "type" in
      if Json.eq_str typ "text" then
        let text := Json.get it "text" in
        if Json.truthy text then
          match text with
          | JStr t =>
              if negb (include_ide_events o) && PyStr.contains ide_marker t
              then Some None
              else if PyStr.startswith (PyStr.strip t) interrupted_marker
              then Some None
              else Some (Some t)
          | JList items =>
              if negb (include_ide_events o)
                 && existsb (fun v => Json.eq_str v ide_marker) items
              then Some None else None
          | JDict fs =>
              if negb (include_ide_events o)
                 && bool_decide (is_Some (Json.lookup ide_marker fs))
              then Some None else None
          | _ => None
          end
        else Some None
      else if Json.eq_str typ "tool_result" && include_tool_output o then
        let output := Json.get it "content" in
        let out_text :=
          match output with
          | JStr s => s
          | JList children =>
              PyStr.join PyStr.nl (flat_map tool_result_chunk children)
          | _ => EmptyString
          end in
        let out_text := PyStr.strip out_text in
        if PyStr.nonempty out_text
        then Some (Some ("TOOL_OUTPUT: " +:+ truncate_tool (max_tool_len o) out_text))
        else Some None
      else Some None
  | _ => Some None
  end.

Fixpoint claude_text_items (o : options) (items : list json) : option (list string) :=
  match items with
  | [] => Some []
  | item :: rest =>
      match claude_text_item o item with
      | None => None
      | Some None => claude_text_items o rest
      | Some (Some t) => (t ::.) <$> claude_text_items o rest
      end
  end.

(** [extract_claude_text] *)
Definition extract_claude_text (o : options) (content : json) : option string :=
  match content with
  | JStr s => Some s
  | JList items => PyStr.join PyStr.nl <$> claude_text_items o items
  | _ => Some EmptyString
  end.

(** [extract_claude_tools] *)
Definition extract_claude_tools (content : json) : list string :=
  match content with
  | JList items =>
      omap (fun item =>
              match item with
              | JDict it =>
                  if Json.eq_str (Json.get it "type") "tool_use"
                  then match Json.get it "name" with
                       | JStr name => if PyStr.nonempty name then Some name else None
                       | _ => None
                       end
                  else None
              | _ => None
              end) items
  | _ => []
  end.

Section ClaudeLoader.
Variable fromisoformat : string -> option datetime.
Variable o : options.

Definition user_or_assistant (v : json) : bool :=
  Json.eq_str v "user" || Json.eq_str v "assistant".

(** The body of the loop over the lines of one file, for one decoded
    line; [None] when an exception reaches the [try] around the file. *)
Definition claude_record (rec : json) : option loaded :=
  match rec with
  | JDict r =>
      if negb (include_system o) && negb (user_or_assistant (Json.get r "type"))
      then Some Skip
      else match Json.get r "message" with
           | JDict msg =>
               let role := Json.get msg "role" in
               if negb (include_system o) && negb (user_or_assistant role)
               then Some Skip
               else
                 let model := match Json.get msg "model" with
                              | JStr s => JStr s
                              | _ => JNull
                              end in
                 let content := Json.get msg "content" in
                 text ← extract_claude_text o content;
                 if filtered_out o text then Some Skip
                 else
                   let tools := if Json.eq_str role "assistant"
                                then extract_claude_tools content else [] in
                   if negb (PyStr.nonempty (PyStr.strip text)) then Some Skip
                   else
                     let session_id :=
                       Json.get_default r "sessionId" (JStr "unknown") in
                     let ts := parse_iso fromisoformat (Json.get r "timestamp") in
                     if negb (Json.hashable session_id) then None
                     else Some (Emit session_id
                            {| msg_source := "claude";
                               msg_session_id := session_id;
                               msg_role := role;
                               msg_text := text;
                               msg_time := ts;
                               msg_title := JNull;
                               msg_model := model;
                               msg_provider :=
                                 if Json.truthy model then JStr "claude" else JNull;
                               msg_agent := JNull;
                               msg_mode := JNull;
                               msg_tools := tools |})
           | _ => Some Skip
           end
  | _ => None
  end.

(** The lines of one file ([None] for a line [json.loads] rejects); an
    exception abandons the rest of the file. *)
Fixpoint claude_file_loop (lines : list (option json))
    (messages : PyDict.dict (list message)) : PyDict.dict (list message) :=
  match lines with
  | [] => messages
  | None :: rest => claude_file_loop rest messages
  | Some rec :: rest =>
      match claude_record rec with
      | None => messages
      | Some Skip => claude_file_loop rest messages
      | Some (Emit sid m) => claude_file_loop rest (PyDict.extend sid [m] messages)
      end
  end.

(** [load_claude_messages] over the [.jsonl] files of the tree in walk
    order, each with the path of its directory and its non-blank lines
    ([None] when the file cannot be opened). *)
Definition load_claude_messages
    (files : list (string * option (list (option json))))
    : PyDict.dict (list message) :=
  fold_left
    (fun messages file =>
       if negb (include_subagents o) && PyStr.contains "/subagents/" (fst file)
       then messages
       else match snd file with
            | Some lines => claude_file_loop lines messages
            | None => messages
            end)
    files [].
End ClaudeLoader.

(** ** Turn pairer *)

(** [prompt_meta]; all [None] for the initial [{}]. *)
Record prompt_meta_t := PromptMeta {
  pm_source : option string;
  pm_model : json;
  pm_provider : json;
  pm_agent : json;
  pm_mode : json
}.

(** [answer_meta]; all [None] and no tool for the initial [{}], which no
    assistant message can reach: [current_prompt] is only set together
    with a fresh [answer_meta]. *)
Record answer_meta_t := AnswerMeta {
  am_model : json;
  am_provider : json;
  am_agent : json;
  am_mode : json;
  am_tools : gset string
}.

(** The tuple [pair_messages] appends to [pairs]. *)
Record pair := Pair {
  p_prompt : string;
  p_answer : string;
  p_prompt_time : option datetime;
  p_answer_time : option datetime;
  p_title : json;
  p_prompt_meta : prompt_meta_t;
  p_answer_meta : answer_meta_t
}.

(** The local variables of [pair_messages]. *)
Record pairer := Pairer {
  pairs : list pair;
  current_prompt : option string;
  prompt_time : option datetime;
  title : json;
  prompt_meta : prompt_meta_t;
  answer_parts : list string;
  answer_time : option datetime;
  answer_meta : answer_meta_t
}.

Definition empty_prompt_meta : prompt_meta_t := PromptMeta None JNull JNull JNull JNull.
Definition empty_answer_meta : answer_meta_t := AnswerMeta JNull JNull JNull JNull ∅.

Definition pairer_init : pairer :=
  Pairer [] None None JNull empty_prompt_meta [] None empty_answer_meta.

(** Truth value of [current_prompt]. *)
Definition prompt_open (s : pairer) : bool :=
  match current_prompt s with
  | Some p => PyStr.nonempty p
  | None => false
  end.

(** The tuple built from the variables of the open turn. *)
Definition current_pair (s : pairer) : pair :=
  Pair (default EmptyString (current_prompt s))
       (PyStr.join PyStr.nl (answer_parts s))
       (prompt_time s) (answer_time s) (title s)
       (prompt_meta s) (answer_meta s).

(** [if current_prompt and answer_parts: pairs.append(...)]; the value of
    [pairs] afterwards. *)
Definition flush (s : pairer) : list pair :=
  if prompt_open s && match answer_parts s with [] => false | _ => true end
  then pairs s ++ [current_pair s]
  else pairs s.

(** [if v: meta[field] = v] *)
Definition overwrite (old v : json) : json := if Json.truthy v then v else old.

(** The updates of [answer_meta] for one assistant message. *)
Definition absorb_meta (am : answer_meta_t) (msg : message) : answer_meta_t :=
  {| am_model := overwrite (am_model am) (msg_model msg);
     am_provider := overwrite (am_provider am) (msg_provider msg);
     am_agent := overwrite (am_agent am) (msg_agent msg);
     am_mode := overwrite (am_mode am) (msg_mode msg);
     am_tools := fold_left (fun tools tool => tools ∪ {[tool]}) (msg_tools msg)
                           (am_tools am) |}.

(** The body of the loop of [pair_messages]. *)
Definition pair_step (s : pairer) (msg : message) : pairer :=
  if is_user msg then
    {| pairs := flush s;
       current_prompt := Some (msg_text msg);
       prompt_time := msg_time msg;
       title := msg_title msg;
       prompt_meta := PromptMeta (Some (msg_source msg)) (msg_model msg)
                        (msg_provider msg) (msg_agent msg) (msg_mode msg);
       answer_parts := [];
       answer_time := None;
       answer_meta := empty_answer_meta |}
  else if is_assistant msg && prompt_open s then
    {| pairs := pairs s;
       current_prompt := current_prompt s;
       prompt_time := prompt_time s;
       title := title s;
       prompt_meta := prompt_meta s;
       answer_parts := answer_parts s ++ [msg_text msg];
       answer_time := msg_time msg;
       answer_meta := absorb_meta (answer_meta s) msg |}
  else s.

(** The state after the loop over [session_messages], from [s]. *)
Definition pair_run (s : pairer) (session_messages : list message) : pairer :=
  fold_left pair_step session_messages s.

Definition pair_messages (session_messages : list message) : list pair :=
  flush (pair_run pairer_init session_messages).

(** ** Session sort *)

(** The sort key: [t or datetime.min]; a [datetime] is always true. *)
Definition sort_key (m : message) : datetime :=
  match msg_time m with
  | Some t => t
  | None => DT.min
  end.

(** [sorted(messages, key=key)].  Python's sort is stable, compares keys
    with [<] only, and lets the [TypeError] of a comparison escape.  It is
    modelled by a stable insertion sort: [insert_sorted m l] puts [m] in
    front of the first element whose key is not below [m]'s. *)
Fixpoint insert_sorted (m : message) (l : list message) : option (list message) :=
  match l with
  | [] => Some [m]
  | y :: l' =>
      match DT.lt (sort_key y) (sort_key m) with
      | None => None
      | Some true => (y ::.) <$> insert_sorted m l'
      | Some false => Some (m :: y :: l')
      end
  end.

Fixpoint sort_messages (messages : list message) : option (list message) :=
  match messages with
  | [] => Some []
  | m :: rest => sort_messages rest ≫= insert_sorted m
  end.

(** Nothing in front of a message without timestamp is later than
    [datetime.min]. *)
Definition missing_first (out : list message) : Prop :=
  forall pre m post x,
    out = pre ++ m :: post -> msg_time m = None -> x ∈ pre ->
    DT.lt DT.min (sort_key x) = Some false.

(** ** Record export ([main]) *)

(** The output record written for one pair. *)
Record row := Row {
  row_session_id : json;
  row_session_title : json;
  row_source : option string;
  row_prompt : string;
  row_answer : string;
  row_prompt_tokens : Z;
  row_answer_tokens : Z;
  row_total_tokens : Z;
  row_prompt_time : option string;
  row_answer_time : option string;
  row_prompt_model : json;
  row_prompt_provider : json;
  row_answer_model : json;
  row_answer_provider : json;
  row_answer_agent : json;
  row_answer_mode : json;
  row_answer_tools : list string
}.

(** [sorted(names)] on strings, ordered by code points. *)
Fixpoint insert_name (x : string) (l : list string) : list string :=
  match l with
  | [] => [x]
  | y :: l' => if String.ltb y x then y :: insert_name x l' else x :: y :: l'
  end.

Definition sorted_names (l : list string) : list string := foldr insert_name [] l.

(** [t.isoformat() if t else None] *)
Definition serialize_time (t : option datetime) : option string :=
  DT.isoformat <$> t.

(** The body of the loop over the pairs of one session: the row that is
    written, [None] when a token count raises. *)
Definition make_row (tok : option tokenizer) (session_id : json) (p : pair)
    : option row :=
  prompt_tokens ← count_tokens (Some (p_prompt p)) tok;
  answer_tokens ← count_tokens (Some (p_answer p)) tok;
  let tools := sorted_names (elements (am_tools (p_answer_meta p))) in
  Some
  {| row_session_id := session_id;
     row_session_title := p_title p;
     row_source := pm_source (p_prompt_meta p);
     row_prompt := p_prompt p;
     row_answer := p_answer p;
     row_prompt_tokens := prompt_tokens;
     row_answer_tokens := answer_tokens;
     row_total_tokens := prompt_tokens + answer_tokens;
     row_prompt_time := serialize_time (p_prompt_time p);
     row_answer_time := serialize_time (p_answer_time p);
     row_prompt_model := pm_model (p_prompt_meta p);
     row_prompt_provider := pm_provider (p_prompt_meta p);
     row_answer_model := am_model (p_answer_meta p);
     row_answer_provider := am_provider (p_answer_meta p);
     row_answer_agent := am_agent (p_answer_meta p);
     row_answer_mode := am_mode (p_answer_meta p);
     row_answer_tools := tools |}.

(** The loop over the pairs of one session: the rows written, and
    whether the loop reached its end (a token count that raises ends the
    run, the rows of the pairs before it are in the file). *)
Fixpoint write_pairs (tok : option tokenizer) (session_id : json)
    (session_pairs : list pair) : list row * bool :=
  match session_pairs with
  | [] => ([], true)
  | p :: rest =>
      match make_row tok session_id p with
      | None => ([], false)
      | Some r =>
          let '(more, finished) := write_pairs tok session_id rest in
          (r :: more, finished)
      end
  end.

(** The body of the loop over the sessions: [None] when the sort raises,
    before anything of the session is written. *)
Definition write_session (tok : option tokenizer) (session_id : json)
    (msgs : list message) : option (list row * bool) :=
  write_pairs tok session_id ∘ pair_messages <$> sort_messages msgs.

(** The rows written for one session; [None] when the sort raises. *)
Definition session_rows (tok : option tokenizer) (session_id : json)
    (msgs : list message) : option (list row) :=
  fst <$> write_session tok session_id msgs.

(** The merge of the two loaders' results into [all_sessions]. *)
Definition merge_sources (claude_messages opencode_messages : PyDict.dict (list message))
    : PyDict.dict (list message) :=
  fold_left (fun all kv => PyDict.extend (fst kv) (snd kv) all)
            opencode_messages (PyDict.update [] claude_messages).

(** The loop over [all_sessions.items()]: the rows written, and whether
    the loop reached its end (a sort or a token count that raises ends
    the run, the rows written before it are in the file). *)
Fixpoint write_sessions (tok : option tokenizer)
    (all_sessions : PyDict.dict (list message)) : list row * bool :=
  match all_sessions with
  | [] => ([], true)
  | (session_id, msgs) :: rest =>
      match write_session tok session_id msgs with
      | None => ([], false)
      | Some (rows, false) => (rows, false)
      | Some (rows, true) =>
          let '(more, finished) := write_sessions tok rest in
          (rows ++ more, finished)
      end
  end.

(** How a run ends: a normal return with what it printed, [SystemExit]
    raised with a message, or another exception. *)
Inductive outcome :=
| Completed (stdout : list string)
| SystemExit (message : string)
| Uncaught.

(** The exit status of the interpreter: 0 on a normal return, 1 for
    [SystemExit] with a string and for an uncaught exception. *)
Definition exit_status (r : outcome) : Z :=
  match r with
  | Completed _ => 0
  | SystemExit _ => 1
  | Uncaught => 1
  end.

Section ExportPairs.
(** [json.dumps(row, ensure_ascii=True)] *)
Variable dumps : row -> string.
Variable out_path : string.

(** [main] of [export_pairs] from [all_sessions] on: the lines of the
    output file and the outcome of the run. *)
Definition export_sessions (tok : option tokenizer)
    (all_sessions : PyDict.dict (list message)) : list string * outcome :=
  let note := match tok with
              | None => ["tiktoken not available; using whitespace token counts"]
              | Some _ => []
              end in
  let '(rows, finished) := write_sessions tok all_sessions in
  let lines := map (fun r => dumps r +:+ PyStr.nl) rows in
  if finished
  then (lines,
        Completed (note ++ ["Wrote " +:+ DT.decimal (N.of_nat (length rows))
                            +:+ " prompt/answer pairs to " +:+ out_path]))
  else (lines, Uncaught).

End ExportPairs.

(** ** The no-data guard of [stats] *)

Section Stats.
(** [json.loads(line)], [None] where it raises. *)
Variable loads : string -> option json.

(** [load_pairs] over the lines of the input file. *)
Definition load_pairs (lines : list string) : list json :=
  omap (fun line =>
          let line := PyStr.strip line in
          if PyStr.nonempty line then loads line else None) lines.

Definition no_pairs_message : string := "No pairs found. Run export_pairs.py first.".

End Stats.

(** ** Turns: the specification's view of a session *)

(** The assistant messages that follow a prompt, up to the next user
    message or the end of the session. *)
Fixpoint contributions (rest : list message) : list message :=
  match rest with
  | [] => []
  | m :: rest' =>
      if is_user m then []
      else if is_assistant m then m :: contributions rest'
      else contributions rest'
  end.

(** Every user message of the session with its contributions. *)
Fixpoint turns (session_messages : list message) : list (message * list message) :=
  match session_messages with
  | [] => []
  | m :: rest =>
      if is_user m then (m, contributions rest) :: turns rest else turns rest
  end.

(** A turn is emitted when its prompt text is not empty and it has a
    contribution. *)
Definition emitted (t : message * list message) : bool :=
  PyStr.nonempty (msg_text (fst t)) && match snd t with [] => false | _ => true end.

(** The last true value of a metadata field over the contributions,
    [None] when there is none. *)
Definition last_truthy (vals : list json) : json :=
  default JNull (last (filter (fun v => Json.truthy v = true) vals)).

(** The last value other than [None]. *)
Definition last_non_null (vals : list json) : json :=
  default JNull (last (filter (fun v => Json.is_null v = false) vals)).

(** The union of the contributions' tool names. *)
Definition tool_union (contribs : list message) : gset string :=
  ⋃ (map (fun m => list_to_set (msg_tools m)) contribs).

(** The [answer_meta] the specification describes for the contributions
    of a turn. *)
Definition turn_meta (contribs : list message) : answer_meta_t :=
  {| am_model := last_truthy (map msg_model contribs);
     am_provider := last_truthy (map msg_provider contribs);
     am_agent := last_truthy (map msg_agent contribs);
     am_mode := last_truthy (map msg_mode contribs);
     am_tools := tool_union contribs |}.

Definition prompt_meta_of (u : message) : prompt_meta_t :=
  PromptMeta (Some (msg_source u)) (msg_model u) (msg_provider u)
             (msg_agent u) (msg_mode u).

(** The pair the specification describes for a turn. *)
Definition turn_pair (t : message * list message) : pair :=
  {| p_prompt := msg_text (fst t);
     p_answer := PyStr.join PyStr.nl (map msg_text (snd t));
     p_prompt_time := msg_time (fst t);
     p_answer_time := last (snd t) ≫= msg_time;
     p_title := msg_title (fst t);
     p_prompt_meta := prompt_meta_of (fst t);
     p_answer_meta := turn_meta (snd t) |}.

(** The pairer's variables while the turn of prompt [u] is open, with
    [ps] emitted and [contribs] collected so far. *)
Definition pending (ps : list pair) (u : message) (contribs : list message) : pairer :=
  {| pairs := ps;
     current_prompt := Some (msg_text u);
     prompt_time := msg_time u;
     title := msg_title u;
     prompt_meta := prompt_meta_of u;
     answer_parts := map msg_text contribs;
     answer_time := last contribs ≫= msg_time;
     answer_meta := turn_meta contribs |}.

(** A string whose last character is a decimal digit. *)
Definition ends_in_digit (s : string) : Prop :=
  exists c, PyStr.last_char s = Some c /\ PyStr.is_digit c = true.

(** ** Concrete sessions *)

Module Sample.

Definition msg (role text : string) (t : option datetime) : message :=
  {| msg_source := "claude"; msg_session_id := JStr "s1";
     msg_role := JStr role; msg_text := text; msg_time := t;
     msg_title := JNull; msg_model := JNull; msg_provider := JNull;
     msg_agent := JNull; msg_mode := JNull; msg_tools := [] |}.

Definition with_tools (m : message) (tools : list string) : message :=
  {| msg_source := msg_source m; msg_session_id := msg_session_id m;
     msg_role := msg_role m; msg_text := msg_text m; msg_time := msg_time m;
     msg_title := msg_title m; msg_model := msg_model m;
     msg_provider := msg_provider m; msg_agent := msg_agent m;
     msg_mode := msg_mode m; msg_tools := tools |}.

(** Naive readings, as the opencode loader produces them. *)
Definition t1 : datetime := Datetime 2025 3 9 14 5 7 0 None.
Definition t2 : datetime := Datetime 2025 3 9 14 5 9 250000 None.
(** An aware reading, as [parse_iso] returns for a text ending in Z. *)
Definition t_utc : datetime := Datetime 2025 3 9 14 5 7 0 (Some 0).
(** The same instant, as [parse_iso] returns it for a text ending in
    +01:00. *)
Definition t_cet : datetime := Datetime 2025 3 9 15 5 7 0 (Some 3600000000).
(** A later instant. *)
Definition t_late : datetime := Datetime 2025 3 9 16 0 0 0 (Some 0).

Definition userA := msg "user" "A" (Some t1).
Definition userC := msg "user" "C" (Some t2).
Definition asstB := msg "assistant" "B" (Some t1).
Definition asstB1 := msg "assistant" "B1" (Some t1).
Definition asstB2 := msg "assistant" "B2" (Some t2).
Definition asstD := msg "assistant" "D" (Some t2).
(** A message whose timestamp is missing. *)
Definition undated := msg "assistant" "U" None.

(** The row written for a pair when no tokenizer is available. *)
Definition blank_row : row :=
  Row JNull JNull None EmptyString EmptyString 0 0 0 None None
      JNull JNull JNull JNull JNull JNull [].

Definition row_of (session_id : json) (p : pair) : row :=
  default blank_row (make_row None session_id p).

(** A tokenizer that, like [tiktoken]'s with the defaults of [encode],
    refuses a text that holds a special token; on any other text it
    gives one token per character. *)
Definition special_token : string := "<|endoftext|>".

Definition strict_tokenizer : tokenizer :=
  Tokenizer (fun t =>
               if PyStr.contains special_token t then None
               else Some (map (fun c => Z.of_N (N_of_ascii c))
                              (list_ascii_of_string t))).

(** The result of a loader with one session. *)
Definition sessions : PyDict.dict (list message) :=
  [(JStr "s1", [userA; asstB])].

Definition default_options : options :=
  {| include_tool_output := false; max_tool_len := 2000;
     include_system := false; include_subagents := false;
     exclude_suggestion_mode := true; include_ide_events := false |}.

(** The standard parser, on the one text the sample uses. *)
Definition fromisoformat (s : string) : option datetime :=
  if String.eqb s "2025-03-09T14:05:07+00:00" then Some t_utc else None.

Definition claude_line (type : string) (timestamp : json)
    (message : list (string * json)) : option json :=
  Some (JDict [("type", JStr type); ("sessionId", JStr "s1");
               ("timestamp", timestamp); ("message", JDict message)]).

(** Three lines of a claude log: a prompt, an answer that names its
    model, and an answer whose model is the empty string. *)
Definition claude_lines : list (option json) :=
  [claude_line "user" (JStr "2025-03-09T14:05:07Z")
     [("role", JStr "user"); ("content", JStr "A")];
   claude_line "assistant" (JStr "2025-03-09T14:05:07Z")
     [("role", JStr "assistant"); ("model", JStr "m1"); ("content", JStr "B1")];
   claude_line "assistant" (JStr "2025-03-09T14:05:07Z")
     [("role", JStr "assistant"); ("model", JStr ""); ("content", JStr "B2")]].

Definition claude_sessions : PyDict.dict (list message) :=
  load_claude_messages fromisoformat default_options
    [("projects/p", Some claude_lines)].

Definition claude_session : list message :=
  default [] (PyDict.get (JStr "s1") claude_sessions).

(** The prompt of that session. *)
Definition claude_prompt : message :=
  {| msg_source := "claude"; msg_session_id := JStr "s1";
     msg_role := JStr "user"; msg_text := "A"; msg_time := Some t_utc;
     msg_title := JNull; msg_model := JNull; msg_provider := JNull;
     msg_agent := JNull; msg_mode := JNull; msg_tools := [] |}.

(** An opencode storage tree: one session with a title, a prompt and an
    answer whose parts are a text and a tool call. *)
Definition opencode_tree : opencode_storage :=
  {| session_files := [Some (JDict [("id", JStr "s2"); ("title", JStr "T")])];
     message_files :=
       [Some (JDict [("sessionID", JStr "s2"); ("role", JStr "user");
                     ("id", JStr "m1");
                     ("time", JDict [("created", JInt 1741529107000)])]);
        Some (JDict [("sessionID", JStr "s2"); ("role", JStr "assistant");
                     ("id", JStr "m2"); ("modelID", JStr "gpt");
                     ("providerID", JStr "openai"); ("mode", JStr "build");
                     ("time", JDict [("created", JInt 1741529109250)])])];
     part_dir := fun id =>
       if String.eqb id "m1"
       then Some [Some (JDict [("type", JStr "text"); ("text", JStr " question ")])]
       else if String.eqb id "m2"
       then Some [Some (JDict [("type", JStr "text"); ("text", JStr "reply")]);
                  Some (JDict [("type", JStr "tool"); ("tool", JStr "bash");
                               ("state", JDict [("output", JStr "done")])])]
       else None |}.

(** [datetime.fromtimestamp] on the two readings of the tree. *)
Definition fromtimestamp_ms (ms : Z) : option datetime :=
  if ms =? 1741529107000 then Some t1
  else if ms =? 1741529109250 then Some t2
  else None.

Definition opencode_sessions : option (PyDict.dict (list message)) :=
  load_opencode_messages fromtimestamp_ms opencode_tree default_options.

Definition opencode_session : list message :=
  default [] (opencode_sessions ≫= PyDict.get (JStr "s2")).

End Sample.

(** ** Further definitions: what the loaders emit, in discovery order *)

(** [messages.setdefault(k, []).append(v)] for each emitted [(k, v)]. *)
Definition group_by_key {A} (items : list (json * A))
    (acc : PyDict.dict (list A)) : PyDict.dict (list A) :=
  fold_left (fun d kv => PyDict.extend (fst kv) [snd kv] d) items acc.

(** The messages the opencode loader appends, file after file. *)
Definition opencode_emitted (fromtimestamp_ms : Z -> option datetime)
    (st : opencode_storage) (o : options) (titles : PyDict.dict json)
    (files : list (option json)) : list (json * message) :=
  omap (fun file =>
          match opencode_message fromtimestamp_ms st o titles file with
          | Some (Emit sid m) => Some (sid, m)
          | _ => None
          end) files.

(** The messages the claude loader appends for the lines of one file: the
    lines up to the first one that raises. *)
Fixpoint claude_file_emitted (fromisoformat : string -> option datetime)
    (o : options) (lines : list (option json)) : list (json * message) :=
  match lines with
  | [] => []
  | None :: rest => claude_file_emitted fromisoformat o rest
  | Some rec :: rest =>
      match claude_record fromisoformat o rec with
      | None => []
      | Some Skip => claude_file_emitted fromisoformat o rest
      | Some (Emit sid m) => (sid, m) :: claude_file_emitted fromisoformat o rest
      end
  end.

(** The messages the claude loader appends, file after file. *)
Definition claude_emitted (fromisoformat : string -> option datetime)
    (o : options) (files : list (string * option (list (option json))))
    : list (json * message) :=
  flat_map (fun file =>
              if negb (include_subagents o) && PyStr.contains "/subagents/" (fst file)
              then []
              else match snd file with
                   | Some lines => claude_file_emitted fromisoformat o lines
                   | None => []
                   end) files.

(** The content filters, on the text of a message that was kept. *)
Definition passes_filters (o : options) (text : string) : Prop :=
  (exclude_suggestion_mode o = true ->
   PyStr.startswith (PyStr.lstrip text) suggestion_marker = false) /\
  (include_ide_events o = false -> PyStr.contains ide_marker text = false) /\
  PyStr.startswith (PyStr.strip text) interrupted_marker = false /\
  PyStr.strip text <> EmptyString.

(** Equality of two [datetime] values is decidable. *)
Global Instance datetime_eq_dec : EqDecision datetime.
Proof. solve_decision. Defined.

(** [b]'s key is not below [a]'s: the order [sorted] leaves two messages in. *)
Definition in_order (a b : message) : Prop :=
  DT.lt (sort_key b) (sort_key a) = Some false.

(** [x] stands in front of [y] in [l]. *)
Definition before (x y : message) (l : list message) : Prop :=
  exists i j, (i < j)%nat /\ l !! i = Some x /\ l !! j = Some y.


(** ** The chunker ([chunk_pairs/main.py]) *)

(** [row.get("total_tokens") or 0] as the [int] the loop adds to
    [current_tokens]; [None] where the row has no [get] or the addition
    raises [TypeError].  The decoded values of this development hold no
    non-integer number, so a count that is a float, which the loop adds
    as it adds an [int], is not among the rows. *)
Definition total_tokens_of (row : json) : option Z :=
  match row with
  | JDict fields =>
      let v := Json.get fields "total_tokens" in
      if Json.truthy v then
        match v with
        | JInt n => Some n
        | JBool b => Some (if b then 1 else 0)
        | _ => None
        end
      else Some 0
  | _ => None
  end.

(** The tuple [(chunk_id, current, current_tokens)] appended to [chunks]. *)
Record chunk := Chunk {
  chunk_cid : Z;
  chunk_rows : list json;
  token_sum : Z
}.

(** The loop over [pairs] and the flush after it. *)
Fixpoint chunk_loop (max_total_tokens max_pairs : Z) (pairs : list json)
    (chunks : list chunk) (current : list json) (current_tokens chunk_id : Z)
    : option (list chunk) :=
  match pairs with
  | [] =>
      Some (match current with
            | [] => chunks
            | _ => chunks ++ [Chunk chunk_id current current_tokens]
            end)
  | row :: rest =>
      total_tokens ← total_tokens_of row;
      if match current with [] => false | _ => true end
         && ((max_total_tokens <? current_tokens + total_tokens)
             || (max_pairs <=? Z.of_nat (length current)))
      then chunk_loop max_total_tokens max_pairs rest
             (chunks ++ [Chunk chunk_id current current_tokens])
             [row] (0 + total_tokens) (chunk_id + 1)
      else chunk_loop max_total_tokens max_pairs rest
             chunks (current ++ [row]) (current_tokens + total_tokens) chunk_id
  end.

(** The chunks [main] writes for the loaded pairs. *)
Definition make_chunks (max_total_tokens max_pairs : Z) (pairs : list json)
    : option (list chunk) :=
  chunk_loop max_total_tokens max_pairs pairs [] [] 0 1.

(** [main] of [chunk_pairs] up to the chunks it writes; its [load_pairs]
    and its guard are those of [stats]. *)
Definition chunk_main (loads : string -> option json)
    (max_total_tokens max_pairs : Z) (lines : list string)
    : outcome + list chunk :=
  match load_pairs loads lines with
  | [] => inl (SystemExit no_pairs_message)
  | pairs =>
      match make_chunks max_total_tokens max_pairs pairs with
      | Some chunks => inr chunks
      | None => inl Uncaught
      end
  end.

(** The sum of the rows' token counts. *)
Definition sum_total_tokens (rows : list json) : Z :=
  foldr (fun row acc => default 0 (total_tokens_of row) + acc) 0 rows.

(** What holds of every chunk written: it has a row, its sum is the sum
    of its rows' counts, it respects the pair limit (one row is always
    taken), and it respects the token limit unless it is a single row. *)
Definition chunk_ok (max_total_tokens max_pairs : Z) (c : chunk) : Prop :=
  chunk_rows c <> [] /\
  token_sum c = sum_total_tokens (chunk_rows c) /\
  Z.of_nat (length (chunk_rows c)) <= Z.max 1 max_pairs /\
  (length (chunk_rows c) = 1%nat \/ token_sum c <= max_total_tokens).

(** A chunk was closed because the next row did not fit. *)
Definition closed_by (max_total_tokens max_pairs : Z) (c : chunk) (next : json) : Prop :=
  max_total_tokens < token_sum c + default 0 (total_tokens_of next)
  \/ max_pairs <= Z.of_nat (length (chunk_rows c)).

Fixpoint greedy (max_total_tokens max_pairs : Z) (chunks : list chunk) : Prop :=
  match chunks with
  | c :: ((c' :: _) as rest) =>
      (forall next, head (chunk_rows c') = Some next ->
                    closed_by max_total_tokens max_pairs c next)
      /\ greedy max_total_tokens max_pairs rest
  | _ => True
  end.

(** A row the chunker cannot take: no object, or an object whose
    [total_tokens] is a non-empty string, list or object. *)
Definition unusable_row (row : json) : Prop :=
  match row with
  | JDict fields =>
      match Json.get fields "total_tokens" with
      | JStr s => s <> EmptyString
      | JList items => items <> []
      | JDict fs => fs <> []
      | _ => False
      end
  | _ => True
  end.

Module ChunkSample.
Definition row_of (n : Z) : json :=
  JDict [("prompt", JStr "p"); ("total_tokens", JInt n)].
Definition pairs : list json := [row_of 5; row_of 7; row_of 4; row_of 30].
Definition chunks : list chunk :=
  [Chunk 1 [row_of 5; row_of 7] 12; Chunk 2 [row_of 4] 4; Chunk 3 [row_of 30] 30].
End ChunkSample.

(** ** [escape_xml] of [stats/main.py] *)

(** [s.replace(c, new)] for a one-character [c]. *)
Fixpoint replace_char (c : ascii) (new : string) (s : string) : string :=
  match s with
  | EmptyString => EmptyString
  | String x s' =>
      if Ascii.eqb x c then new +:+ replace_char c new s'
      else String x (replace_char c new s')
  end.

(** The double quote character. *)
Definition dquote : ascii := ascii_of_N 34.

Definition escape_xml (text : string) : string :=
  replace_char "'" "&apos;"
    (replace_char dquote "&quot;"
       (replace_char ">" "&gt;"
          (replace_char "<" "&lt;"
             (replace_char "&" "&amp;" text)))).

(** The entity of one character, and the escape that maps every
    character on its own. *)
Definition xml_entity (c : ascii) : string :=
  if Ascii.eqb c "&" then "&amp;"
  else if Ascii.eqb c "<" then "&lt;"
  else if Ascii.eqb c ">" then "&gt;"
  else if Ascii.eqb c dquote then "&quot;"
  else if Ascii.eqb c "'" then "&apos;"
  else String c EmptyString.

Fixpoint escape_chars (s : string) : string :=
  match s with
  | EmptyString => EmptyString
  | String c s' => xml_entity c +:+ escape_chars s'
  end.

(** The titles the session files give for the session id [k], in walk
    order. *)
Definition titles_for (k : json) (files : list (option json)) : list json :=
  omap (fun file =>
          match file with
          | Some (JDict payload) =>
              let id := Json.get payload "id" in
              let title := Json.get payload "title" in
              if Json.truthy id && Json.truthy title && Json.key_eqb id k
              then Some title else None
          | _ => None
          end) files.

(** ** The counters of [stats/main.py] *)

(** [d.date().isoformat()] *)
Definition date_isoformat (d : datetime) : string :=
  DT.pad0 4 (year d) +:+ "-" +:+ DT.pad0 2 (month d) +:+ "-" +:+ DT.pad0 2 (day d).

(** [parse_day]; a true value that is no string has no [replace], which
    raises inside the [try]. *)
Definition parse_day (fromisoformat : string -> option datetime) (ts : json)
    : option string :=
  if negb (Json.truthy ts) then None
  else match ts with
       | JStr s => date_isoformat <$> fromisoformat (replace_Z s)
       | _ => None
       end.

(** [v or dflt] *)
Definition or_default (v dflt : json) : json := if Json.truthy v then v else dflt.

(** [counter[k] += 1] on a [Counter]; an unhashable key raises. *)
Definition counter_incr (k : json) (counter : PyDict.dict Z) : option (PyDict.dict Z) :=
  if Json.hashable k
  then Some (PyDict.set k (default 0 (PyDict.get k counter) + 1) counter)
  else None.

(** [if v: counter[v] += 1] *)
Definition counter_incr_if (v : json) (counter : PyDict.dict Z)
    : option (PyDict.dict Z) :=
  if Json.truthy v then counter_incr v counter else Some counter.

(** The values a [for] loop over [v] visits: the items of a list, the
    characters of a string, the keys of an object; anything else is not
    iterable. *)
Definition iterate (v : json) : option (list json) :=
  match v with
  | JList items => Some items
  | JStr s => Some (map (fun c => JStr (String c EmptyString)) (list_ascii_of_string s))
  | JDict fields => Some (map (fun kv => JStr (fst kv)) fields)
  | _ => None
  end.

(** The eight counters of [main]. *)
Record counters := Counters {
  sessions : PyDict.dict Z;
  days : PyDict.dict Z;
  sources : PyDict.dict Z;
  models : PyDict.dict Z;
  providers : PyDict.dict Z;
  agents : PyDict.dict Z;
  modes : PyDict.dict Z;
  tools : PyDict.dict Z
}.

Definition counters_init : counters := Counters [] [] [] [] [] [] [] [].

Section StatsCounters.
Variable fromisoformat : string -> option datetime.

(** The body of the loop over [pairs]; a row that is no object has no
    [get]. *)
Definition count_row (c : counters) (row : json) : option counters :=
  match row with
  | JDict r =>
      let session_id := or_default (Json.get r "session_id") (JStr "unknown") in
      sessions' ← counter_incr session_id (sessions c);
      days' ← match parse_day fromisoformat (Json.get r "prompt_time") with
              | Some day =>
                  if PyStr.nonempty day then counter_incr (JStr day) (days c)
                  else Some (days c)
              | None => Some (days c)
              end;
      sources' ← counter_incr (or_default (Json.get r "source") (JStr "unknown"))
                              (sources c);
      models' ← counter_incr_if (Json.get r "answer_model") (models c);
      providers' ← counter_incr_if (Json.get r "answer_provider") (providers c);
      agents' ← counter_incr_if (Json.get r "answer_agent") (agents c);
      modes' ← counter_incr_if (Json.get r "answer_mode") (modes c);
      answer_tools ← iterate (or_default (Json.get r "answer_tools") (JList []));
      tools' ← fold_left (fun acc tool => acc ≫= counter_incr tool)
                         answer_tools (Some (tools c));
      Some (Counters sessions' days' sources' models' providers' agents' modes' tools')
  | _ => None
  end.

(** The loop over [pairs]. *)
Definition count_rows (pairs : list json) : option counters :=
  fold_left (fun acc row => acc ≫= fun c => count_row c row) pairs (Some counters_init).
End StatsCounters.

(** How many of the keys equal [k] as dictionary keys. *)
Definition occurrences (k : json) (keys : list json) : Z :=
  Z.of_nat (length (filter (fun k' => Json.key_eqb k' k = true) keys)).

(** The keys under which a row is counted. *)
Definition session_key (row : json) : json :=
  match row with
  | JDict r => or_default (Json.get r "session_id") (JStr "unknown")
  | _ => JNull
  end.

Definition source_key (row : json) : json :=
  match row with
  | JDict r => or_default (Json.get r "source") (JStr "unknown")
  | _ => JNull
  end.

(** The true values of a field over the rows. *)
Definition true_values (field : string) (pairs : list json) : list json :=
  omap (fun row =>
          match row with
          | JDict r =>
              if Json.truthy (Json.get r field) then Some (Json.get r field) else None
          | _ => None
          end) pairs.

(** The entry of a [Counter] for a key counted [n] times: none before the
    first count. *)
Definition count_entry (n : Z) : option Z := if n =? 0 then None else Some n.

Module StatsSample.
Definition pairs : list json :=
  [JDict [("session_id", JStr "s1"); ("source", JStr "claude");
          ("prompt_time", JStr "2025-03-09T14:05:07+00:00");
          ("answer_model", JStr "m1"); ("answer_tools", JList [JStr "bash"])];
   JDict [("session_id", JStr "s1"); ("source", JStr "claude");
          ("prompt_time", JNull); ("answer_model", JNull);
          ("answer_tools", JList [])];
   JDict [("session_id", JNull); ("source", JStr "opencode");
          ("answer_model", JStr "m1")]].
Definition counted : counters :=
  default counters_init (count_rows Sample.fromisoformat pairs).
End StatsSample.

(** ** From the export to the chunker *)

(** [s if s is not None else None] as a decoded value. *)
Definition json_of_opt (s : option string) : json :=
  match s with Some s => JStr s | None => JNull end.

(** The [row] dictionary [main] of [export_pairs] dumps, which is what
    [json.loads] gives back for the line. *)
Definition row_json (r : row) : json :=
  JDict [("session_id", row_session_id r);
         ("session_title", row_session_title r);
         ("source", json_of_opt (row_source r));
         ("prompt", JStr (row_prompt r));
         ("answer", JStr (row_answer r));
         ("prompt_tokens", JInt (row_prompt_tokens r));
         ("answer_tokens", JInt (row_answer_tokens r));
         ("total_tokens", JInt (row_total_tokens r));
         ("prompt_time", json_of_opt (row_prompt_time r));
         ("answer_time", json_of_opt (row_answer_time r));
         ("prompt_model", row_prompt_model r);
         ("prompt_provider", row_prompt_provider r);
         ("answer_model", row_answer_model r);
         ("answer_provider", row_answer_provider r);
         ("answer_agent", row_answer_agent r);
         ("answer_mode", row_answer_mode r);
         ("answer_tools", JList (map JStr (row_answer_tools r)))].

(** The line written for a row. *)
Definition row_line (dumps : row -> string) (r : row) : string :=
  dumps r +:+ PyStr.nl.

(** [loads] reads back the line of [r]. *)
Definition reads_back (dumps : row -> string) (loads : string -> option json)
    (r : row) : Prop :=
  PyStr.nonempty (PyStr.strip (row_line dumps r)) = true /\
  loads (PyStr.strip (row_line dumps r)) = Some (row_json r).

Module ExportSample.
Definition rows : list row := fst (write_sessions None Sample.sessions).
Definition dumps (r : row) : string := "{}".
Definition loads (line : string) : option json := row_json <$> head rows.
End ExportSample.
(** * Properties *)

(** ** Strings *)

Lemma nonempty_true (s : string) : PyStr.nonempty s = true <-> s <> EmptyString.
Proof. destruct s; simpl; split; intros; congruence. Qed.

Lemma nonempty_false (s : string) : PyStr.nonempty s = false <-> s = EmptyString.
Proof. destruct s; simpl; split; intros; congruence. Qed.

Lemma is_assistant_not_user (m : message) : is_assistant m = true -> is_user m = false.
Proof.
  unfold is_assistant, is_user. destruct (msg_role m); simpl; try discriminate.
  intros H%String.eqb_eq. subst. reflexivity.
Qed.

(** ** Token counter *)

(** C7, as stated, fails: the counter does not return an integer for
    every text.  With a tokenizer it calls [encode] unguarded, and
    [encode] raises on a text that holds a special token; the counter
    raises with it. *)
Lemma count_tokens_always_returns_counterexample :
  encode Sample.strict_tokenizer Sample.special_token = None /\
  count_tokens (Some Sample.special_token) (Some Sample.strict_tokenizer) = None /\
  ~ (forall text tok, exists n, count_tokens text tok = Some n /\ 0 <= n).
Proof.
  repeat split; try reflexivity.
  intros H.
  destruct (H (Some Sample.special_token) (Some Sample.strict_tokenizer))
    as (n & Hn & _).
  discriminate Hn.
Qed.

(** C7, amended: whenever the token counter returns, it returns a
    non-negative integer; with a tokenizer it returns the number of
    tokens [encode] gives and raises exactly when [encode] raises on a
    text that is not empty; without a tokenizer it always returns, and
    returns the number of words of the whitespace split, which is 3 for
    "alpha beta  gamma"; empty and null text count 0 with or without a
    tokenizer. *)
Theorem count_tokens_fallback :
  (forall text tok n, count_tokens text tok = Some n -> 0 <= n) /\
  (forall text k,
      count_tokens (Some text) (Some k)
      = if PyStr.nonempty text then Z.of_nat ∘ length <$> encode k text else Some 0) /\
  (forall text k,
      count_tokens (Some text) (Some k) = None
      <-> text <> EmptyString /\ encode k text = None) /\
  (forall text, exists n, count_tokens text None = Some n /\ 0 <= n) /\
  (forall s, count_tokens (Some s) None = Some (Z.of_nat (length (PyStr.split s)))) /\
  PyStr.split "alpha beta  gamma" = ["alpha"; "beta"; "gamma"] /\
  count_tokens (Some "alpha beta  gamma") None = Some 3 /\
  (forall tok, count_tokens (Some EmptyString) tok = Some 0 /\
               count_tokens None tok = Some 0).
Proof.
  split; [|split; [|split; [|split; [|split; [|split; [|split]]]]]].
  - intros [[|c s]|] [k|] n; simpl; try (intros [= <-]; lia).
    destruct (encode k (String c s)); simpl; [|done]. intros [= <-]. lia.
  - intros [|c s] k; reflexivity.
  - intros [|c s] k; simpl.
    + split; [done|]. by intros [? _].
    + destruct (encode k (String c s)); simpl; split; try done. by intros [_ ?].
  - intros [[|c s]|]; simpl; eexists; (split; [reflexivity|lia]).
  - intros [|c s]; reflexivity.
  - reflexivity.
  - reflexivity.
  - done.
Qed.

Lemma count_tokens_fallback_witness :
  count_tokens (Some "ab") (Some Sample.strict_tokenizer) = Some 2 /\
  0 <= 2.
Proof.
  split; [reflexivity|].
  exact (proj1 count_tokens_fallback (Some "ab") (Some Sample.strict_tokenizer) 2 eq_refl).
Defined.

(** ** Turn pairer *)

Lemma last_truthy_nil : last_truthy [] = JNull.
Proof. reflexivity. Qed.

Lemma last_truthy_snoc (vals : list json) (v : json) :
  last_truthy (vals ++ [v]) = overwrite (last_truthy vals) v.
Proof.
  unfold last_truthy, overwrite. rewrite filter_app, filter_cons, filter_nil.
  destruct (Json.truthy v) eqn:E.
  - rewrite decide_True by done. by rewrite last_snoc.
  - rewrite decide_False by congruence. by rewrite app_nil_r.
Qed.

Lemma add_tools (l : list string) (s : gset string) :
  fold_left (fun tools tool => tools ∪ {[tool]}) l s = s ∪ list_to_set l.
Proof.
  revert s. induction l as [|x l IH]; intros s; simpl.
  - set_solver.
  - rewrite IH. set_solver.
Qed.

Lemma tool_union_snoc (cs : list message) (m : message) :
  tool_union (cs ++ [m]) = tool_union cs ∪ list_to_set (msg_tools m).
Proof.
  unfold tool_union. rewrite map_app, union_list_app_L. simpl. set_solver.
Qed.

Lemma elem_of_tool_union (cs : list message) (t : string) :
  t ∈ tool_union cs <-> exists m, m ∈ cs /\ t ∈ msg_tools m.
Proof.
  unfold tool_union. rewrite elem_of_union_list. split.
  - intros (X & HX & Ht). apply list_elem_of_fmap in HX as (m & -> & Hm).
    exists m. split; [done|]. by apply elem_of_list_to_set in Ht.
  - intros (m & Hm & Ht). exists (list_to_set (msg_tools m)). split.
    + apply list_elem_of_fmap. eauto.
    + by apply elem_of_list_to_set.
Qed.

Lemma turn_meta_snoc (cs : list message) (m : message) :
  turn_meta (cs ++ [m]) = absorb_meta (turn_meta cs) m.
Proof.
  unfold turn_meta, absorb_meta; simpl.
  rewrite !map_app; simpl. rewrite !last_truthy_snoc, add_tools, tool_union_snoc.
  reflexivity.
Qed.

Lemma pending_user (s : pairer) (m : message) :
  is_user m = true -> pair_step s m = pending (flush s) m [].
Proof. intros H. unfold pair_step. rewrite H. reflexivity. Qed.

Lemma pending_assistant (ps : list pair) (u m : message) (cs : list message) :
  is_user m = false -> is_assistant m = true -> msg_text u <> EmptyString ->
  pair_step (pending ps u cs) m = pending ps u (cs ++ [m]).
Proof.
  intros Hu Ha Ht. unfold pair_step. rewrite Hu, Ha.
  unfold prompt_open; simpl. apply nonempty_true in Ht. rewrite Ht; simpl.
  unfold pending. rewrite map_app, last_snoc, turn_meta_snoc. reflexivity.
Qed.

Lemma pending_ignored (ps : list pair) (u m : message) (cs : list message) :
  is_user m = false -> is_assistant m = false \/ msg_text u = EmptyString ->
  pair_step (pending ps u cs) m = pending ps u cs.
Proof.
  intros Hu H. unfold pair_step. rewrite Hu.
  destruct H as [-> | Ht]; [done|].
  unfold prompt_open; simpl. rewrite Ht; simpl. by rewrite andb_false_r.
Qed.

Lemma flush_pending (ps : list pair) (u : message) (cs : list message) :
  flush (pending ps u cs)
  = ps ++ (if emitted (u, cs) then [turn_pair (u, cs)] else []).
Proof.
  unfold flush, emitted, prompt_open; simpl.
  destruct (PyStr.nonempty (msg_text u)); simpl; [|by rewrite app_nil_r].
  destruct cs; simpl; [by rewrite app_nil_r|]. reflexivity.
Qed.

Lemma filter_emitted_cons (t : message * list message) ts :
  filter (fun t => emitted t = true) (t :: ts)
  = (if emitted t then [t] else []) ++ filter (fun t => emitted t = true) ts.
Proof.
  rewrite filter_cons. destruct (emitted t); [by rewrite decide_True|by rewrite decide_False].
Qed.

Lemma emitted_empty_prompt (u : message) (cs : list message) :
  msg_text u = EmptyString -> emitted (u, cs) = false.
Proof. intros H. unfold emitted; simpl. by rewrite H. Qed.

Lemma emitted_empty_contribs (u : message) : emitted (u, []) = false.
Proof. unfold emitted; simpl. by rewrite andb_false_r. Qed.

(** The run from an open turn, in terms of the turns of the rest. *)
Lemma flush_run_pending (l : list message) :
  forall ps u cs,
    (msg_text u = EmptyString -> cs = []) ->
    flush (pair_run (pending ps u cs) l)
    = ps ++ map turn_pair
              (filter (fun t => emitted t = true)
                      ((u, cs ++ contributions l) :: turns l)).
Proof.
  induction l as [|m l IH]; intros ps u cs Hcs.
  - simpl. rewrite flush_pending, app_nil_r, filter_emitted_cons, filter_nil, app_nil_r.
    by destruct (emitted (u, cs)).
  - change (pair_run (pending ps u cs) (m :: l))
      with (pair_run (pair_step (pending ps u cs) m) l).
    cbn [contributions turns].
    destruct (is_user m) eqn:Hu.
    + rewrite (pending_user _ _ Hu), IH by done.
      rewrite flush_pending, app_nil_r, <- app_assoc. f_equal.
      rewrite (filter_emitted_cons (u, cs)), map_app.
      f_equal. by destruct (emitted (u, cs)).
    + destruct (decide (msg_text u = EmptyString)) as [Ht|Ht].
      * rewrite pending_ignored by auto. rewrite IH by done.
        rewrite !(filter_emitted_cons (u, _)), !emitted_empty_prompt by done.
        done.
      * destruct (is_assistant m) eqn:Ha.
        -- rewrite pending_assistant by done. rewrite IH by done.
           by rewrite <- app_assoc.
        -- rewrite pending_ignored by auto. by rewrite IH.
Qed.

(** The pairer emits exactly the pairs of the emitted turns, in order. *)
Lemma pair_messages_turns (l : list message) :
  pair_messages l = map turn_pair (filter (fun t => emitted t = true) (turns l)).
Proof.
  unfold pair_messages.
  induction l as [|m l IH]; [reflexivity|].
  simpl. destruct (is_user m) eqn:Hu.
  - rewrite (pending_user _ _ Hu).
    by rewrite flush_run_pending.
  - assert (pair_step pairer_init m = pairer_init) as ->; [|exact IH].
    unfold pair_step. rewrite Hu. unfold prompt_open; simpl. by rewrite andb_false_r.
Qed.

Lemma pair_run_app (s : pairer) (l1 l2 : list message) :
  pair_run s (l1 ++ l2) = pair_run (pair_run s l1) l2.
Proof. apply fold_left_app. Qed.

(** Collected answers imply an open prompt, in every reachable state. *)
Lemma pair_run_open (l : list message) :
  answer_parts (pair_run pairer_init l) <> [] ->
  prompt_open (pair_run pairer_init l) = true.
Proof.
  induction l as [|m l IH] using rev_ind; [done|].
  rewrite pair_run_app; simpl. unfold pair_step.
  destruct (is_user m); [done|].
  destruct (is_assistant m); simpl; [|exact IH].
  destruct (prompt_open (pair_run pairer_init l)) eqn:E; [done|].
  intros H. specialize (IH H). discriminate.
Qed.

(** A user message splits the session: what precedes it is paired as if
    the session ended there. *)
Lemma pair_messages_split_at_user (pre rest : list message) (m : message) :
  is_user m = true ->
  pair_messages (pre ++ m :: rest) = pair_messages pre ++ pair_messages (m :: rest).
Proof.
  intros Hu. unfold pair_messages at 1 2.
  rewrite pair_run_app.
  change (pair_run (pair_run pairer_init pre) (m :: rest))
    with (pair_run (pair_step (pair_run pairer_init pre) m) rest).
  rewrite (pending_user _ _ Hu), flush_run_pending by done.
  f_equal. rewrite pair_messages_turns. simpl. by rewrite Hu.
Qed.

Lemma contributions_spec (rest : list message) :
  exists seg after,
    rest = seg ++ after /\
    Forall (fun m => is_user m = false) seg /\
    match after with [] => True | u :: _ => is_user u = true end /\
    contributions rest = filter (fun m => is_assistant m = true) seg.
Proof.
  induction rest as [|m rest (seg & after & -> & Hseg & Hafter & Hc)]; simpl.
  - by exists [], [].
  - destruct (is_user m) eqn:Hu.
    + by exists [], (m :: seg ++ after).
    + exists (m :: seg), after. repeat split; [by constructor|done|].
      rewrite filter_cons. destruct (is_assistant m).
      * rewrite decide_True by done. by f_equal.
      * by rewrite decide_False.
Qed.

Lemma elem_of_contributions (rest : list message) (m : message) :
  m ∈ contributions rest -> m ∈ rest /\ is_assistant m = true.
Proof.
  induction rest as [|x rest IH]; simpl; [by intros ?%elem_of_nil|].
  destruct (is_user x); [by intros ?%elem_of_nil|].
  destruct (is_assistant x) eqn:Ha.
  - intros [->|H]%elem_of_cons; [split; [left|done]|].
    destruct (IH H). split; [by right|done].
  - intros H. destruct (IH H). split; [by right|done].
Qed.

Lemma elem_of_turns (l : list message) (u : message) (cs : list message) :
  (u, cs) ∈ turns l ->
  exists pre rest, l = pre ++ u :: rest /\ is_user u = true /\ cs = contributions rest.
Proof.
  induction l as [|m l IH]; simpl; [by intros ?%elem_of_nil|].
  destruct (is_user m) eqn:Hu.
  - intros [H|H]%elem_of_cons.
    + injection H as -> ->. by exists [], l.
    + destruct (IH H) as (pre & rest & -> & ? & ?). by exists (m :: pre), rest.
  - intros H. destruct (IH H) as (pre & rest & -> & ? & ?). by exists (m :: pre), rest.
Qed.

(** Every emitted pair is the pair of a user message of the session with
    a non-empty text and at least one contribution. *)
Lemma elem_of_pair_messages (l : list message) (p : pair) :
  p ∈ pair_messages l ->
  exists pre u rest,
    l = pre ++ u :: rest /\ is_user u = true /\ msg_text u <> EmptyString /\
    contributions rest <> [] /\ p = turn_pair (u, contributions rest).
Proof.
  rewrite pair_messages_turns.
  intros ([u cs] & -> & [He Ht]%list_elem_of_filter)%list_elem_of_fmap.
  destruct (elem_of_turns _ _ _ Ht) as (pre & rest & -> & Hu & ->).
  exists pre, u, rest. repeat split; try done.
  - unfold emitted in He; simpl in He. apply andb_true_iff in He as [He _].
    by apply nonempty_true.
  - unfold emitted in He; simpl in He. apply andb_true_iff in He as [_ He].
    by destruct (contributions rest).
Qed.

Lemma length_turns (l : list message) :
  length (turns l) = length (filter (fun m => is_user m = true) l).
Proof.
  induction l as [|m l IH]; [done|]. simpl. rewrite filter_cons.
  destruct (is_user m); [rewrite decide_True by done|rewrite decide_False by done];
    simpl; by rewrite IH.
Qed.

(** Pairs a session that is given message by message, with the roles of
    its messages among the hypotheses. *)
Ltac pair_by_roles :=
  rewrite pair_messages_turns; simpl;
  repeat match goal with
         | H : is_assistant ?m = true |- _ =>
             rewrite ?(is_assistant_not_user m H), ?H; clear H
         | H : is_user ?m = true |- _ => rewrite ?H; clear H
         end;
  rewrite !filter_emitted_cons, filter_nil, ?emitted_empty_contribs;
  unfold emitted; simpl;
  repeat match goal with
         | H : msg_text ?m <> EmptyString |- _ =>
             apply nonempty_true in H; rewrite ?H; clear H
         end.

Lemma pair_messages_four (a b c d : message) :
  is_user a = true -> is_assistant b = true ->
  is_user c = true -> is_assistant d = true ->
  msg_text a <> EmptyString -> msg_text c <> EmptyString ->
  pair_messages [a; b; c; d] = [turn_pair (a, [b]); turn_pair (c, [d])].
Proof.
  intros Ha Hb Hc Hd Hta Htc. by pair_by_roles.
Qed.

(** C1: in every state the pairer reaches, a user message that arrives
    after at least one assistant message was appended emits the current
    pair and opens a new pair from that message; the session is paired as
    its part before that message followed by its part from that message
    on.  A session [user A, assistant B, user C, assistant D], with
    prompts of non-empty text as every loaded message has
    ([loaded_text_nonempty]), yields exactly the pairs (A, B) and
    (C, D). *)
Theorem user_after_answer_flushes :
  (forall (pre : list message) (m : message),
      is_user m = true ->
      answer_parts (pair_run pairer_init pre) <> [] ->
      let s := pair_run pairer_init pre in
      let s' := pair_step s m in
      pairs s' = pairs s ++ [current_pair s] /\
      current_prompt s' = Some (msg_text m) /\
      prompt_time s' = msg_time m /\
      title s' = msg_title m /\
      prompt_meta s' = prompt_meta_of m /\
      answer_parts s' = [] /\
      answer_time s' = None /\
      answer_meta s' = empty_answer_meta /\
      forall rest,
        pair_messages (pre ++ m :: rest)
        = (pairs s ++ [current_pair s]) ++ pair_messages (m :: rest)) /\
  (forall a b c d : message,
      is_user a = true -> is_assistant b = true ->
      is_user c = true -> is_assistant d = true ->
      msg_text a <> EmptyString -> msg_text c <> EmptyString ->
      pair_messages [a; b; c; d] = [turn_pair (a, [b]); turn_pair (c, [d])] /\
      map (fun p => (p_prompt p, p_answer p)) (pair_messages [a; b; c; d])
      = [(msg_text a, msg_text b); (msg_text c, msg_text d)]).
Proof.
  split.
  - intros pre m Hu Hparts s s'.
    assert (flush s = pairs s ++ [current_pair s]) as Hflush.
    { unfold flush. subst s. rewrite (pair_run_open _ Hparts).
      by destruct (answer_parts (pair_run pairer_init pre)). }
    subst s'. unfold pair_step. rewrite Hu. simpl.
    repeat split; try done.
    intros rest. rewrite (pair_messages_split_at_user _ _ _ Hu).
    f_equal. exact Hflush.
  - intros a b c d Ha Hb Hc Hd Hta Htc.
    rewrite (pair_messages_four a b c d) by done.
    split; reflexivity.
Qed.

Lemma user_after_answer_flushes_witness :
  pairs (pair_step (pair_run pairer_init [Sample.userA; Sample.asstB]) Sample.userC)
  = [turn_pair (Sample.userA, [Sample.asstB])] /\
  map (fun p => (p_prompt p, p_answer p))
      (pair_messages [Sample.userA; Sample.asstB; Sample.userC; Sample.asstD])
  = [("A", "B"); ("C", "D")].
Proof.
  split.
  - exact (proj1 (proj1 user_after_answer_flushes
                   [Sample.userA; Sample.asstB] Sample.userC eq_refl
                   ltac:(discriminate))).
  - exact (proj2 (proj2 user_after_answer_flushes
                   Sample.userA Sample.asstB Sample.userC Sample.asstD
                   eq_refl eq_refl eq_refl eq_refl
                   ltac:(discriminate) ltac:(discriminate))).
Defined.

Lemma flush_no_answer (s : pairer) : answer_parts s = [] -> flush s = pairs s.
Proof. intros H. unfold flush. rewrite H. by rewrite andb_false_r. Qed.

(** C2: in every state the pairer reaches, a user message that arrives
    while no assistant message has been appended emits nothing and
    replaces the pending prompt; the replaced prompt is not emitted later
    either: the session is paired as if the replaced prompt had not been
    sent.  A session [user A, user C, assistant D], where the text of C
    is not empty, yields exactly one pair, (C, D). *)
Theorem user_without_answer_replaces_prompt :
  (forall (pre : list message) (m : message),
      is_user m = true ->
      answer_parts (pair_run pairer_init pre) = [] ->
      let s := pair_run pairer_init pre in
      let s' := pair_step s m in
      pairs s' = pairs s /\
      current_prompt s' = Some (msg_text m) /\
      prompt_time s' = msg_time m /\
      title s' = msg_title m /\
      prompt_meta s' = prompt_meta_of m /\
      answer_parts s' = [] /\
      forall rest,
        pair_messages (pre ++ m :: rest) = pairs s ++ pair_messages (m :: rest)) /\
  (forall (pre rest : list message) (u1 u2 : message),
      is_user u1 = true -> is_user u2 = true ->
      pair_messages (pre ++ u1 :: u2 :: rest) = pair_messages (pre ++ u2 :: rest)) /\
  (forall a c d : message,
      is_user a = true -> is_user c = true -> is_assistant d = true ->
      msg_text c <> EmptyString ->
      pair_messages [a; c; d] = [turn_pair (c, [d])] /\
      map (fun p => (p_prompt p, p_answer p)) (pair_messages [a; c; d])
      = [(msg_text c, msg_text d)]).
Proof.
  split; [|split].
  - intros pre m Hu Hparts s s'.
    subst s'. unfold pair_step. rewrite Hu. simpl.
    rewrite (flush_no_answer s Hparts).
    repeat split; try done.
    intros rest. rewrite (pair_messages_split_at_user _ _ _ Hu).
    f_equal. exact (flush_no_answer s Hparts).
  - intros pre rest u1 u2 Hu1 Hu2.
    rewrite (pair_messages_split_at_user pre (u2 :: rest) u1 Hu1).
    rewrite (pair_messages_split_at_user pre rest u2 Hu2).
    f_equal. rewrite !pair_messages_turns. simpl. rewrite Hu1, Hu2.
    by rewrite (filter_emitted_cons (u1, [])), (emitted_empty_contribs u1).
  - intros a c d Ha Hc Hd Htc.
    assert (pair_messages [a; c; d] = [turn_pair (c, [d])]) as ->; [|done].
    by pair_by_roles.
Qed.

Lemma user_without_answer_replaces_prompt_witness :
  pairs (pair_step (pair_run pairer_init [Sample.userA]) Sample.userC) = [] /\
  pair_messages [Sample.userA; Sample.userC; Sample.asstD]
  = pair_messages [Sample.userC; Sample.asstD] /\
  map (fun p => (p_prompt p, p_answer p))
      (pair_messages [Sample.userA; Sample.userC; Sample.asstD])
  = [("C", "D")].
Proof.
  split; [|split].
  - exact (proj1 (proj1 user_without_answer_replaces_prompt
                   [Sample.userA] Sample.userC eq_refl eq_refl)).
  - exact (proj1 (proj2 user_without_answer_replaces_prompt)
             [] [Sample.asstD] Sample.userA Sample.userC eq_refl eq_refl).
  - exact (proj2 (proj2 (proj2 user_without_answer_replaces_prompt)
                   Sample.userA Sample.userC Sample.asstD
                   eq_refl eq_refl eq_refl ltac:(discriminate))).
Defined.

(** C3: every emitted pair belongs to a user message of the session that
    is followed by at least one assistant contribution; a prompt at the
    end of the session, which has none, adds no pair; and the number of
    emitted pairs is at most the number of user messages. *)
Theorem emitted_pairs_have_an_answer (l : list message) :
  (forall p, p ∈ pair_messages l ->
     exists pre u rest b,
       l = pre ++ u :: rest /\ is_user u = true /\
       b ∈ contributions rest /\ b ∈ rest /\ is_assistant b = true /\
       p = turn_pair (u, contributions rest)) /\
  (forall u, is_user u = true -> pair_messages (l ++ [u]) = pair_messages l) /\
  (length (pair_messages l) <= length (filter (fun m => is_user m = true) l))%nat.
Proof.
  split; [|split].
  - intros p (pre & u & rest & -> & Hu & _ & Hne & ->)%elem_of_pair_messages.
    destruct (contributions rest) as [|b cs] eqn:E; [done|].
    assert (b ∈ contributions rest) as Hb by (rewrite E; left).
    destruct (elem_of_contributions _ _ Hb).
    exists pre, u, rest, b. rewrite <- E. by repeat split.
  - intros u Hu. rewrite (pair_messages_split_at_user _ _ _ Hu).
    rewrite (pair_messages_turns [u]). simpl. rewrite Hu.
    rewrite filter_emitted_cons, emitted_empty_contribs. simpl. by rewrite app_nil_r.
  - rewrite pair_messages_turns, length_map, <- length_turns.
    apply length_filter.
Qed.

Lemma emitted_pairs_have_an_answer_witness :
  exists pre u rest b,
    [Sample.userA; Sample.asstB; Sample.userC] = pre ++ u :: rest /\
    is_user u = true /\ b ∈ contributions rest /\ b ∈ rest /\
    is_assistant b = true /\
    turn_pair (Sample.userA, [Sample.asstB]) = turn_pair (u, contributions rest).
Proof.
  apply (proj1 (emitted_pairs_have_an_answer
                  [Sample.userA; Sample.asstB; Sample.userC])).
  vm_compute. left.
Defined.

(** C4: the answer of every emitted pair is the newline join, in arrival
    order, of the texts of the assistant messages between its prompt and
    the next user message or the end of the session, and its answer time
    is the timestamp of the last of them.  A session
    [user A, assistant B1, assistant B2], where the text of A is not
    empty, yields one pair, with answer "B1\nB2" and the timestamp of
    B2. *)
Theorem answer_joins_contributions :
  (forall (l : list message) (p : pair),
      p ∈ pair_messages l ->
      exists pre u seg after last_b,
        l = pre ++ u :: seg ++ after /\
        is_user u = true /\
        Forall (fun m => is_user m = false) seg /\
        match after with [] => True | next :: _ => is_user next = true end /\
        let bs := filter (fun m => is_assistant m = true) seg in
        p_prompt p = msg_text u /\
        p_answer p = PyStr.join PyStr.nl (map msg_text bs) /\
        last bs = Some last_b /\
        p_answer_time p = msg_time last_b) /\
  (forall a b1 b2 : message,
      is_user a = true -> is_assistant b1 = true -> is_assistant b2 = true ->
      msg_text a <> EmptyString ->
      exists p,
        pair_messages [a; b1; b2] = [p] /\
        p_prompt p = msg_text a /\
        p_answer p = msg_text b1 +:+ PyStr.nl +:+ msg_text b2 /\
        p_answer_time p = msg_time b2).
Proof.
  split.
  - intros l p (pre & u & rest & -> & Hu & _ & Hne & ->)%elem_of_pair_messages.
    destruct (contributions_spec rest) as (seg & after & -> & Hseg & Hafter & Hc).
    rewrite Hc in Hne |- *.
    destruct (last (filter (fun m => is_assistant m = true) seg)) as [b|] eqn:E.
    + exists pre, u, seg, after, b. simpl. rewrite E. by repeat split.
    + apply last_None in E. done.
  - intros a b1 b2 Ha Hb1 Hb2 Hta.
    exists (turn_pair (a, [b1; b2])). split; [|done].
    by pair_by_roles.
Qed.

Lemma answer_joins_contributions_witness :
  exists p,
    pair_messages [Sample.userA; Sample.asstB1; Sample.asstB2] = [p] /\
    p_prompt p = "A" /\
    p_answer p = "B1" +:+ PyStr.nl +:+ "B2" /\
    p_answer_time p = Some Sample.t2.
Proof.
  exact (proj2 answer_joins_contributions
           Sample.userA Sample.asstB1 Sample.asstB2
           eq_refl eq_refl eq_refl ltac:(discriminate)).
Defined.

Lemma tool_union_perm (cs cs' : list message) :
  cs ≡ₚ cs' -> tool_union cs = tool_union cs'.
Proof.
  intros Hp. apply set_eq. intros t. rewrite !elem_of_tool_union.
  split; intros (m & Hm & Ht); exists m; split; try done.
  - by rewrite <- Hp.
  - by rewrite Hp.
Qed.

Lemma tool_union_twice (cs : list message) : tool_union (cs ++ cs) = tool_union cs.
Proof.
  apply set_eq. intros t. rewrite !elem_of_tool_union.
  split; intros (m & Hm & Ht); exists m; split; try done.
  - apply elem_of_app in Hm. tauto.
  - apply elem_of_app. by left.
Qed.

Lemma last_truthy_cases (vals : list json) :
  (last_truthy vals = JNull /\ Forall (fun v => Json.truthy v = false) vals) \/
  (exists before after,
      vals = before ++ last_truthy vals :: after /\
      Json.truthy (last_truthy vals) = true /\
      Forall (fun v => Json.truthy v = false) after).
Proof.
  induction vals as [|v vals IH] using rev_ind.
  - left. split; [done|constructor].
  - rewrite last_truthy_snoc. unfold overwrite.
    destruct (Json.truthy v) eqn:E.
    + right. exists vals, []. by repeat split.
    + destruct IH as [[Hn Hall]|(before & after & Hv & Ht & Hall)].
      * left. split; [done|]. apply Forall_app. split; [done|]. by repeat constructor.
      * right. exists before, (after ++ [v]). repeat split; [|done|].
        -- rewrite Hv at 1. by rewrite <- app_assoc.
        -- apply Forall_app. split; [done|]. by repeat constructor.
Qed.

(** C5, as stated, fails: the claude loader keeps a model that is the
    empty string, which is not null, and the pairer does not let it
    overwrite the model of an earlier message.  For the session read from
    [Sample.claude_lines] the emitted pair has model "m1", while the last
    non-null model of its contributions is "". *)
Lemma answer_meta_last_non_null_counterexample :
  map msg_model Sample.claude_session = [JNull; JStr "m1"; JStr ""] /\
  sort_messages Sample.claude_session = Some Sample.claude_session /\
  map (fun p => am_model (p_answer_meta p)) (pair_messages Sample.claude_session)
  = [JStr "m1"] /\
  last_non_null (map msg_model (contributions (tail Sample.claude_session)))
  = JStr "" /\
  ~ (forall p, p ∈ pair_messages Sample.claude_session ->
       am_model (p_answer_meta p)
       = last_non_null (map msg_model (contributions (tail Sample.claude_session)))).
Proof.
  repeat split; try reflexivity.
  intros H.
  specialize (H (turn_pair (Sample.claude_prompt, tail Sample.claude_session))).
  discriminate H. vm_compute. left.
Qed.

(** C5, amended: for every emitted pair, each of the fields model,
    provider, agent and mode of the answer metadata holds the last true
    value (not null, and not an empty string or another false value)
    among the contributing assistant messages, null when there is none:
    later true values overwrite earlier ones, null and empty values never
    overwrite.  The tool set is the union of the contributions' tool
    names: a name is in it exactly when a contribution lists it, so it is
    the same for every order and repetition of the contributions;
    contributions with tools [x] and [x, y] give {x, y} in either
    order. *)
Theorem answer_meta_last_truthy :
  (forall (l : list message) (p : pair),
      p ∈ pair_messages l ->
      exists pre u rest,
        l = pre ++ u :: rest /\ is_user u = true /\
        p_prompt p = msg_text u /\
        let bs := contributions rest in
        am_model (p_answer_meta p) = last_truthy (map msg_model bs) /\
        am_provider (p_answer_meta p) = last_truthy (map msg_provider bs) /\
        am_agent (p_answer_meta p) = last_truthy (map msg_agent bs) /\
        am_mode (p_answer_meta p) = last_truthy (map msg_mode bs) /\
        am_tools (p_answer_meta p) = tool_union bs) /\
  (forall vals v,
      last_truthy (vals ++ [v]) = if Json.truthy v then v else last_truthy vals) /\
  (forall vals,
      (last_truthy vals = JNull /\ Forall (fun v => Json.truthy v = false) vals) \/
      (exists before after,
          vals = before ++ last_truthy vals :: after /\
          Json.truthy (last_truthy vals) = true /\
          Forall (fun v => Json.truthy v = false) after)) /\
  (forall bs t, t ∈ tool_union bs <-> exists m, m ∈ bs /\ t ∈ msg_tools m) /\
  (forall bs bs', bs ≡ₚ bs' -> tool_union bs = tool_union bs') /\
  (forall bs, tool_union (bs ++ bs) = tool_union bs) /\
  (forall (u b1 b2 : message) (x y : string),
      is_user u = true -> msg_text u <> EmptyString ->
      is_assistant b1 = true -> is_assistant b2 = true ->
      msg_tools b1 = [x] -> msg_tools b2 = [x; y] ->
      map (fun p => am_tools (p_answer_meta p)) (pair_messages [u; b1; b2])
      = [{[x; y]}] /\
      map (fun p => am_tools (p_answer_meta p)) (pair_messages [u; b2; b1])
      = [{[x; y]}]).
Proof.
  split; [|split; [|split; [|split; [|split; [|split]]]]].
  - intros l p (pre & u & rest & -> & Hu & _ & _ & ->)%elem_of_pair_messages.
    exists pre, u, rest. by repeat split.
  - intros vals v. apply last_truthy_snoc.
  - apply last_truthy_cases.
  - apply elem_of_tool_union.
  - apply tool_union_perm.
  - apply tool_union_twice.
  - intros u b1 b2 x y Hu Ht Hb1 Hb2 Hx Hy.
    assert (forall c1 c2, is_assistant c1 = true -> is_assistant c2 = true ->
              pair_messages [u; c1; c2] = [turn_pair (u, [c1; c2])]) as Hp.
    { intros c1 c2 H1 H2. by pair_by_roles. }
    rewrite !Hp by done. simpl. unfold tool_union. simpl. rewrite Hx, Hy. simpl.
    split; f_equal; set_solver.
Qed.

Lemma answer_meta_last_truthy_witness :
  map (fun p => am_tools (p_answer_meta p))
      (pair_messages [Sample.userA;
                      Sample.with_tools Sample.asstB1 ["x"];
                      Sample.with_tools Sample.asstB2 ["x"; "y"]])
  = [{["x"; "y"]}] /\
  map (fun p => am_tools (p_answer_meta p))
      (pair_messages [Sample.userA;
                      Sample.with_tools Sample.asstB2 ["x"; "y"];
                      Sample.with_tools Sample.asstB1 ["x"]])
  = [{["x"; "y"]}].
Proof.
  exact (proj2 (proj2 (proj2 (proj2 (proj2 (proj2 answer_meta_last_truthy)))))
           Sample.userA
           (Sample.with_tools Sample.asstB1 ["x"])
           (Sample.with_tools Sample.asstB2 ["x"; "y"]) "x" "y"
           eq_refl ltac:(discriminate) eq_refl eq_refl eq_refl eq_refl).
Defined.

(** ** Session sort *)

Lemma tuple_lt_irrefl (a : list N) : DT.tuple_lt a a = false.
Proof.
  induction a as [|x a IH]; [done|]. simpl.
  rewrite N.ltb_irrefl, N.eqb_refl. exact IH.
Qed.

Lemma tuple_lt_asym (a b : list N) :
  DT.tuple_lt a b = true -> DT.tuple_lt b a = false.
Proof.
  revert b. induction a as [|x a IH]; intros [|y b]; simpl; try done.
  destruct (N.ltb_spec x y), (N.ltb_spec y x), (N.eqb_spec x y), (N.eqb_spec y x);
    simpl; try lia; try done.
  apply IH.
Qed.

Lemma tuple_lt_negtrans (a b c : list N) :
  DT.tuple_lt a b = false -> DT.tuple_lt b c = false -> DT.tuple_lt a c = false.
Proof.
  revert b c. induction a as [|x a IH]; intros [|y b] [|z c]; simpl; try done.
  destruct (N.ltb_spec x y), (N.ltb_spec y z), (N.ltb_spec x z),
    (N.eqb_spec x y), (N.eqb_spec y z), (N.eqb_spec x z);
    simpl; try lia; try done.
  apply IH.
Qed.

Lemma lt_to_min (d : datetime) :
  DT.lt d DT.min = Some true -> DT.lt DT.min d = Some false.
Proof.
  unfold DT.lt. change (tzinfo DT.min) with (@None Z).
  destruct (tzinfo d); [done|]. intros [= H]. f_equal. by apply tuple_lt_asym.
Qed.

Lemma lt_min_negtrans (y x : datetime) :
  DT.lt DT.min y = Some false -> DT.lt y x = Some false ->
  DT.lt DT.min x = Some false.
Proof.
  unfold DT.lt. change (tzinfo DT.min) with (@None Z).
  destruct (tzinfo y); [done|]. destruct (tzinfo x); [done|].
  intros [= H1] [= H2]. f_equal. by apply (tuple_lt_negtrans _ (DT.fields y)).
Qed.

(** [datetime.min] is the least naive value. *)
Lemma min_is_least (d : datetime) :
  DT.valid d -> tzinfo d = None -> DT.lt d DT.min = Some false.
Proof.
  intros (Hy & Hm & Hd & _) Hn. unfold DT.lt. rewrite Hn.
  change (tzinfo DT.min) with (@None Z). f_equal.
  unfold DT.fields, DT.min; simpl.
  destruct (N.ltb_spec (year d) 1); [lia|].
  destruct (N.eqb_spec (year d) 1); [|done].
  destruct (N.ltb_spec (month d) 1); [lia|].
  destruct (N.eqb_spec (month d) 1); [|done].
  destruct (N.ltb_spec (day d) 1); [lia|].
  destruct (N.eqb_spec (day d) 1); [|done].
  simpl.
  repeat match goal with
         | |- context [(?x <? 0)%N] =>
             replace (x <? 0)%N with false by (symmetry; apply N.ltb_ge; lia)
         end.
  simpl. by rewrite !andb_false_r.
Qed.

Lemma lt_naive (a b : datetime) :
  tzinfo a = None -> tzinfo b = None ->
  DT.lt a b = Some (DT.tuple_lt (DT.fields a) (DT.fields b)).
Proof. intros Ha Hb. unfold DT.lt. by rewrite Ha, Hb. Qed.

(** Where [insert_sorted] puts the message. *)
Lemma insert_sorted_split (m : message) (l l' : list message) :
  insert_sorted m l = Some l' ->
  exists l1 l2,
    l = l1 ++ l2 /\ l' = l1 ++ m :: l2 /\
    Forall (fun y => DT.lt (sort_key y) (sort_key m) = Some true) l1 /\
    match l2 with
    | [] => True
    | y :: _ => DT.lt (sort_key y) (sort_key m) = Some false
    end.
Proof.
  revert l'. induction l as [|y l IH]; intros l'; simpl.
  - intros [= <-]. by exists [], [].
  - destruct (DT.lt (sort_key y) (sort_key m)) as [[|]|] eqn:E; [| |done].
    + destruct (insert_sorted m l) as [r|]; [|done]. intros [= <-].
      destruct (IH r eq_refl) as (l1 & l2 & -> & -> & H1 & H2).
      exists (y :: l1), l2. repeat split; try done. by constructor.
    + intros [= <-]. by exists [], (y :: l).
Qed.

Lemma sort_messages_perm (l out : list message) :
  sort_messages l = Some out -> l ≡ₚ out.
Proof.
  revert out. induction l as [|m l IH]; intros out; simpl.
  - by intros [= <-].
  - destruct (sort_messages l) as [r|]; [|done]. simpl. intros H.
    destruct (insert_sorted_split _ _ _ H) as (l1 & l2 & -> & -> & _).
    rewrite (IH _ eq_refl). by rewrite Permutation_middle.
Qed.

Lemma middle_eq_inv {A} (l1 l2 pre post : list A) (m m' : A) :
  l1 ++ m :: l2 = pre ++ m' :: post ->
  (exists post', l1 = pre ++ m' :: post' /\ post = post' ++ m :: l2) \/
  (pre = l1 /\ m' = m /\ post = l2) \/
  (exists pre', pre = l1 ++ m :: pre' /\ l2 = pre' ++ m' :: post).
Proof.
  revert pre. induction l1 as [|a l1 IH]; intros [|b pre]; simpl; intros [= -> H].
  - right. left. by subst.
  - right. right. by exists pre.
  - left. by exists l1.
  - destruct (IH _ H) as [(post' & -> & ->)|[(-> & -> & ->)|(pre' & -> & ->)]].
    + left. by exists post'.
    + right. by left.
    + right. right. by exists pre'.
Qed.

Lemma insert_sorted_missing_first (m : message) (l l' : list message) :
  missing_first l -> insert_sorted m l = Some l' -> missing_first l'.
Proof.
  intros Hl (l1 & l2 & -> & -> & H1 & H2)%insert_sorted_split.
  intros pre m' post x Heq Hm' Hx.
  assert (sort_key m' = DT.min) as Hkey by (unfold sort_key; by rewrite Hm').
  destruct (middle_eq_inv _ _ _ _ _ _ Heq)
    as [(post' & -> & ->)|[(-> & -> & ->)|(pre' & -> & ->)]].
  - (* in front of the inserted message *)
    apply (Hl pre m' (post' ++ l2) x); [by rewrite <- app_assoc|done|done].
  - (* the inserted message itself *)
    rewrite Forall_forall in H1. specialize (H1 x Hx).
    rewrite Hkey in H1. by apply lt_to_min.
  - (* behind the inserted message *)
    assert (forall z, z ∈ l1 ++ pre' -> DT.lt DT.min (sort_key z) = Some false) as Hold.
    { intros z Hz. apply (Hl (l1 ++ pre') m' post z); [by rewrite <- app_assoc|done|done]. }
    apply elem_of_app in Hx as [Hx|[->|Hx]%elem_of_cons].
    + apply Hold, elem_of_app. by left.
    + (* the inserted message, through the first element behind it *)
      destruct pre' as [|y pre']; simpl in H2.
      * by rewrite Hkey in H2.
      * assert (DT.lt DT.min (sort_key y) = Some false) as Hy.
        { apply Hold, elem_of_app. right. left. }
        by apply (lt_min_negtrans _ _ Hy).
    + apply Hold, elem_of_app. by right.
Qed.

Lemma sort_messages_missing_first (l out : list message) :
  sort_messages l = Some out -> missing_first out.
Proof.
  revert out. induction l as [|m l IH]; intros out; simpl.
  - intros [= <-] pre m post x Heq. by destruct pre.
  - destruct (sort_messages l) as [r|]; [|done]. simpl.
    apply insert_sorted_missing_first. by apply IH.
Qed.

Lemma insert_sorted_naive (m : message) (l : list message) :
  tzinfo (sort_key m) = None ->
  Forall (fun y => tzinfo (sort_key y) = None) l ->
  exists l', insert_sorted m l = Some l' /\
             Forall (fun y => tzinfo (sort_key y) = None) l'.
Proof.
  intros Hm. induction 1 as [|y l Hy Hl IH]; simpl.
  - exists [m]. split; [done|]. by repeat constructor.
  - rewrite (lt_naive _ _ Hy Hm).
    destruct (DT.tuple_lt _ _).
    + destruct IH as (l' & -> & Hl'). exists (y :: l'). split; [done|]. by constructor.
    + exists (m :: y :: l). split; [done|]. by repeat constructor.
Qed.

Lemma sort_messages_naive (l : list message) :
  Forall (fun y => tzinfo (sort_key y) = None) l ->
  exists out, sort_messages l = Some out /\
              Forall (fun y => tzinfo (sort_key y) = None) out.
Proof.
  induction 1 as [|m l Hm Hl (r & Hr & Hall)]; simpl.
  - by exists [].
  - rewrite Hr. simpl. by apply insert_sorted_naive.
Qed.

(** C6, as stated, fails: a message without timestamp is keyed with
    [datetime.min] and comes out in front of a dated message that was
    before it in the input. *)
Lemma missing_timestamp_sorts_last_counterexample :
  msg_time Sample.userC = Some Sample.t2 /\
  msg_time Sample.undated = None /\
  sort_messages [Sample.userC; Sample.undated] = Some [Sample.undated; Sample.userC] /\
  ~ (forall out pre m post x,
       sort_messages [Sample.userC; Sample.undated] = Some out ->
       out = pre ++ m :: post -> msg_time m = None -> x ∈ post ->
       msg_time x = None).
Proof.
  repeat split; try reflexivity.
  intros H.
  specialize (H [Sample.undated; Sample.userC] [] Sample.undated [Sample.userC]
                Sample.userC eq_refl eq_refl eq_refl).
  discriminate H. left.
Qed.

(** C6, amended: a message without timestamp is sorted with the key
    [datetime.min], which no naive timestamp is below, so it sorts first.
    Whenever the sort of a session returns, its result is a permutation
    of the session in which no message in front of a message without
    timestamp has a key later than [datetime.min]; and the sort returns
    for every session whose timestamps are missing or naive. *)
Theorem missing_timestamp_sorts_first (messages : list message) :
  (forall m, msg_time m = None -> sort_key m = DT.min) /\
  (forall t, DT.valid t -> tzinfo t = None -> DT.lt t DT.min = Some false) /\
  (forall out,
      sort_messages messages = Some out ->
      messages ≡ₚ out /\
      forall pre m post x,
        out = pre ++ m :: post -> msg_time m = None -> x ∈ pre ->
        DT.lt DT.min (sort_key x) = Some false) /\
  (Forall (fun m => tzinfo (sort_key m) = None) messages ->
   exists out, sort_messages messages = Some out).
Proof.
  split; [|split; [|split]].
  - intros m Hm. unfold sort_key. by rewrite Hm.
  - apply min_is_least.
  - intros out Hout. split.
    + by apply sort_messages_perm.
    + exact (sort_messages_missing_first _ _ Hout).
  - intros H. destruct (sort_messages_naive _ H) as (out & Hout & _). eauto.
Qed.

Lemma missing_timestamp_sorts_first_witness :
  DT.lt DT.min (sort_key Sample.undated) = Some false /\
  exists out, sort_messages [Sample.userC; Sample.undated; Sample.undated] = Some out.
Proof.
  pose proof (missing_timestamp_sorts_first
                [Sample.userC; Sample.undated; Sample.undated])
    as (_ & _ & Hsorted & Hreturns).
  split.
  - exact (proj2 (Hsorted [Sample.undated; Sample.undated; Sample.userC] eq_refl)
             [Sample.undated] Sample.undated [Sample.userC] Sample.undated
             eq_refl eq_refl ltac:(left)).
  - apply Hreturns. repeat constructor.
Defined.

(** ** Serialized timestamps *)

Lemma append_nil_l (b : string) : EmptyString +:+ b = b.
Proof. reflexivity. Qed.

Lemma append_cons (c : ascii) (a b : string) : String c a +:+ b = String c (a +:+ b).
Proof. reflexivity. Qed.

Lemma append_nil_r (a : string) : a +:+ EmptyString = a.
Proof. induction a as [|c a IH]; [done|]. by rewrite append_cons, IH. Qed.

Lemma append_assoc (a b c : string) : (a +:+ b) +:+ c = a +:+ b +:+ c.
Proof. induction a as [|x a IH]; [done|]. by rewrite !append_cons, IH. Qed.

Lemma last_char_cons (c : ascii) (s : string) :
  PyStr.last_char (String c s)
  = match PyStr.last_char s with Some d => Some d | None => Some c end.
Proof.
  revert c. induction s as [|d s IH]; intros c; [done|].
  change (PyStr.last_char (String c (String d s)))
    with (PyStr.last_char (String d s)).
  rewrite (IH d). by destruct (PyStr.last_char s).
Qed.

Lemma last_char_app (a b : string) :
  PyStr.last_char (a +:+ b)
  = match PyStr.last_char b with
    | Some c => Some c
    | None => PyStr.last_char a
    end.
Proof.
  induction a as [|c a IH].
  - rewrite append_nil_l. by destruct (PyStr.last_char b).
  - rewrite append_cons, !last_char_cons, IH.
    by destruct (PyStr.last_char b), (PyStr.last_char a).
Qed.

Lemma last_char_app_r (a b : string) (c : ascii) :
  PyStr.last_char b = Some c -> PyStr.last_char (a +:+ b) = Some c.
Proof. intros H. by rewrite last_char_app, H. Qed.

Lemma digit_is_digit (n : N) : PyStr.is_digit (DT.digit (n mod 10)) = true.
Proof.
  assert (n mod 10 < 10)%N as H by (by apply N.mod_lt).
  generalize dependent (n mod 10)%N. intros d H.
  unfold PyStr.is_digit, DT.digit. rewrite N_ascii_embedding by lia.
  apply andb_true_iff. split; apply N.leb_le; lia.
Qed.

Lemma last_char_decimal_go (fuel : nat) (n : N) (acc : string) (c : ascii) :
  PyStr.last_char acc = Some c -> PyStr.last_char (DT.decimal_go fuel n acc) = Some c.
Proof.
  revert n acc. induction fuel as [|fuel IH]; intros n acc H; simpl; [done|].
  assert (PyStr.last_char (String (DT.digit (n mod 10)) acc) = Some c) as H'.
  { simpl. by destruct acc. }
  destruct (n / 10 =? 0)%N; [done|]. by apply IH.
Qed.

Lemma last_char_decimal (n : N) :
  PyStr.last_char (DT.decimal n) = Some (DT.digit (n mod 10)).
Proof.
  unfold DT.decimal. simpl. destruct (n / 10 =? 0)%N; [done|].
  by apply last_char_decimal_go.
Qed.

Lemma last_char_pad0 (w : nat) (n : N) :
  PyStr.last_char (DT.pad0 w n) = Some (DT.digit (n mod 10)).
Proof. unfold DT.pad0. apply last_char_app_r, last_char_decimal. Qed.

Lemma ends_in_digit_app (a b : string) :
  ends_in_digit b -> ends_in_digit (a +:+ b).
Proof. intros (c & Hc & Hd). exists c. split; [by apply last_char_app_r|done]. Qed.

Lemma ends_in_digit_pad0 (w : nat) (n : N) : ends_in_digit (DT.pad0 w n).
Proof. eexists. split; [apply last_char_pad0|apply digit_is_digit]. Qed.

Lemma ends_in_digit_time (d : datetime) : ends_in_digit (DT.format_time d).
Proof.
  unfold DT.format_time. do 4 apply ends_in_digit_app.
  destruct (microsecond d =? 0)%N.
  - destruct (ends_in_digit_pad0 2 (second d)) as (c & Hc & Hd).
    exists c. by rewrite last_char_app, Hc.
  - do 2 apply ends_in_digit_app. apply ends_in_digit_pad0.
Qed.

Lemma ends_in_digit_offset (o : Z) : ends_in_digit (DT.format_offset (Some o)).
Proof.
  unfold DT.format_offset. cbv zeta. do 3 apply ends_in_digit_app.
  destruct (_ =? 0)%N.
  - destruct (ends_in_digit_pad0 2 (Z.to_N (Z.abs o) mod 3600000000 / 60000000))
      as (c & Hc & Hd).
    exists c. by rewrite last_char_app, Hc.
  - do 2 apply ends_in_digit_app. destruct (_ =? 0)%N.
    + destruct (ends_in_digit_pad0 2
                  (Z.to_N (Z.abs o) mod 3600000000 mod 60000000 / 1000000))
        as (c & Hc & Hd).
      exists c. by rewrite last_char_app, Hc.
    + do 2 apply ends_in_digit_app. apply ends_in_digit_pad0.
Qed.

Lemma ends_in_digit_isoformat (d : datetime) : ends_in_digit (DT.isoformat d).
Proof.
  unfold DT.isoformat. do 6 apply ends_in_digit_app.
  destruct (tzinfo d) as [o|].
  - apply ends_in_digit_app, ends_in_digit_offset.
  - destruct (ends_in_digit_time d) as (c & Hc & Hd).
    exists c. by rewrite last_char_app, Hc.
Qed.

Lemma digit_not_Z (s : string) : ends_in_digit s -> PyStr.endswith_char s "Z" = false.
Proof.
  intros (c & Hc & Hd). unfold PyStr.endswith_char. rewrite Hc.
  destruct (ascii_dec c "Z") as [->|]; [done|done].
Qed.

(** A row that is written is the row of one of the pairs. *)
Lemma elem_of_write_pairs tok sid (ps : list pair) (r : row) :
  r ∈ fst (write_pairs tok sid ps) ->
  exists p, p ∈ ps /\ make_row tok sid p = Some r.
Proof.
  induction ps as [|p ps IH]; simpl; [by intros ?%elem_of_nil|].
  destruct (make_row tok sid p) as [r0|] eqn:E; [|by intros ?%elem_of_nil].
  destruct (write_pairs tok sid ps) as [more finished]. simpl in *.
  intros [->|Hin]%elem_of_cons.
  - exists p. split; [by left|done].
  - destruct (IH Hin) as (p' & ? & ?). exists p'. split; [by right|done].
Qed.

(** The rows of a session come from the pairs of its sorted messages. *)
Lemma elem_of_session_rows tok sid msgs rows r :
  session_rows tok sid msgs = Some rows -> r ∈ rows ->
  exists sorted pre u rest,
    sort_messages msgs = Some sorted /\ msgs ≡ₚ sorted /\
    sorted = pre ++ u :: rest /\ is_user u = true /\
    contributions rest <> [] /\
    make_row tok sid (turn_pair (u, contributions rest)) = Some r.
Proof.
  unfold session_rows, write_session.
  destruct (sort_messages msgs) as [sorted|] eqn:E; [|done].
  simpl. intros [= <-] (p & Hp & Hrow)%elem_of_write_pairs.
  destruct (elem_of_pair_messages _ _ Hp) as (pre & u & rest & -> & Hu & _ & Hne & ->).
  exists (pre ++ u :: rest), pre, u, rest. repeat split; try done.
  by apply sort_messages_perm.
Qed.

(** The fields of a row that is written. *)
Lemma make_row_fields tok sid p r :
  make_row tok sid p = Some r ->
  count_tokens (Some (p_prompt p)) tok = Some (row_prompt_tokens r) /\
  count_tokens (Some (p_answer p)) tok = Some (row_answer_tokens r) /\
  row_total_tokens r = row_prompt_tokens r + row_answer_tokens r /\
  row_session_id r = sid /\
  row_session_title r = p_title p /\
  row_source r = pm_source (p_prompt_meta p) /\
  row_prompt r = p_prompt p /\
  row_answer r = p_answer p /\
  row_prompt_time r = serialize_time (p_prompt_time p) /\
  row_answer_time r = serialize_time (p_answer_time p) /\
  row_prompt_model r = pm_model (p_prompt_meta p) /\
  row_prompt_provider r = pm_provider (p_prompt_meta p) /\
  row_answer_model r = am_model (p_answer_meta p) /\
  row_answer_provider r = am_provider (p_answer_meta p) /\
  row_answer_agent r = am_agent (p_answer_meta p) /\
  row_answer_mode r = am_mode (p_answer_meta p) /\
  row_answer_tools r = sorted_names (elements (am_tools (p_answer_meta p))).
Proof.
  unfold make_row.
  destruct (count_tokens (Some (p_prompt p)) tok) as [n|]; [|done].
  destruct (count_tokens (Some (p_answer p)) tok) as [m|]; [|done].
  simpl. by intros [= <-].
Qed.

(** C8, as stated, fails: [isoformat] writes the offset of a UTC timestamp
    as +00:00.  The row of the session read from [Sample.claude_lines],
    whose timestamps end in Z in the log, has a prompt time that is not
    null and does not end in Z. *)
Lemma serialized_time_ends_in_Z_counterexample :
  map msg_time Sample.claude_session
  = [Some Sample.t_utc; Some Sample.t_utc; Some Sample.t_utc] /\
  (map row_prompt_time <$> session_rows None (JStr "s1") Sample.claude_session)
  = Some [Some "2025-03-09T14:05:07+00:00"] /\
  ~ (forall rows r,
       session_rows None (JStr "s1") Sample.claude_session = Some rows ->
       r ∈ rows ->
       row_prompt_time r = None \/
       exists s, row_prompt_time r = Some s /\ PyStr.endswith_char s "Z" = true).
Proof.
  repeat split; try reflexivity.
  intros H.
  pose (r0 := Sample.row_of (JStr "s1")
                (turn_pair (Sample.claude_prompt, tail Sample.claude_session))).
  destruct (H [r0] r0 eq_refl ltac:(left)) as [H'|(s & Hs & H')].
  - vm_compute in H'. discriminate H'.
  - vm_compute in Hs. injection Hs as <-. vm_compute in H'. discriminate H'.
Qed.

(** C8, amended: in every emitted record each of prompt_time and
    answer_time is null or the [isoformat] text of the timestamp of a
    message of the session; that text ends in a decimal digit and never
    in Z: a timestamp in UTC is written with the offset +00:00, and a
    naive timestamp, as the opencode loader produces, without offset. *)
Theorem serialized_time_is_isoformat :
  (forall tok sid msgs rows r,
      session_rows tok sid msgs = Some rows -> r ∈ rows ->
      forall field,
        field = row_prompt_time r \/ field = row_answer_time r ->
        field = None \/
        exists m t, m ∈ msgs /\ msg_time m = Some t /\
                    field = Some (DT.isoformat t)) /\
  (forall t,
      (exists c, PyStr.last_char (DT.isoformat t) = Some c /\
                 PyStr.is_digit c = true) /\
      PyStr.endswith_char (DT.isoformat t) "Z" = false) /\
  (forall t, tzinfo t = Some 0 ->
             exists body, DT.isoformat t = body +:+ "+00:00") /\
  (forall t, tzinfo t = None ->
             DT.isoformat t
             = DT.pad0 4 (year t) +:+ "-" +:+ DT.pad0 2 (month t) +:+ "-"
               +:+ DT.pad0 2 (day t) +:+ "T" +:+ DT.format_time t).
Proof.
  split; [|split; [|split]].
  - intros tok sid msgs rows r Hrows Hr field Hfield.
    destruct (elem_of_session_rows _ _ _ _ _ Hrows Hr)
      as (sorted & pre & u & rest & _ & Hperm & -> & Hu & Hne & Hrow).
    apply make_row_fields in Hrow
      as (_ & _ & _ & _ & _ & _ & _ & _ & Hpt & Hat & _).
    rewrite Hpt, Hat in Hfield.
    destruct Hfield as [-> | ->]; simpl; unfold serialize_time.
    + destruct (msg_time u) as [t|] eqn:Et; [|by left]. right.
      exists u, t. repeat split; [|done].
      rewrite Hperm. apply elem_of_app. right. left.
    + destruct (last (contributions rest)) as [b|] eqn:Eb; [|by left]. simpl.
      destruct (msg_time b) as [t|] eqn:Et; [|by left]. right.
      exists b, t. repeat split; [|done].
      rewrite Hperm. apply elem_of_app. right. right.
      apply last_Some_elem_of in Eb. by apply elem_of_contributions in Eb as [? _].
  - intros t. split; [apply ends_in_digit_isoformat|].
    apply digit_not_Z, ends_in_digit_isoformat.
  - intros t Ht. unfold DT.isoformat. rewrite Ht.
    change (DT.format_offset (Some 0)) with "+00:00".
    eexists. rewrite <- !append_assoc. reflexivity.
  - intros t Ht. unfold DT.isoformat. rewrite Ht.
    change (DT.format_offset None) with EmptyString. by rewrite append_nil_r.
Qed.

Lemma serialized_time_is_isoformat_witness :
  (Some (DT.isoformat Sample.t1) = None \/
   exists m t, m ∈ [Sample.userA; Sample.asstB2] /\ msg_time m = Some t /\
               Some (DT.isoformat Sample.t1) = Some (DT.isoformat t)) /\
  (exists body, DT.isoformat Sample.t_utc = body +:+ "+00:00").
Proof.
  split.
  - exact (proj1 serialized_time_is_isoformat None (JStr "s1")
             [Sample.userA; Sample.asstB2]
             [Sample.row_of (JStr "s1") (turn_pair (Sample.userA, [Sample.asstB2]))]
             (Sample.row_of (JStr "s1") (turn_pair (Sample.userA, [Sample.asstB2])))
             eq_refl (list_elem_of_here _ _) _ (or_introl eq_refl)).
  - exact (proj1 (proj2 (proj2 serialized_time_is_isoformat)) Sample.t_utc eq_refl).
Defined.

(** ** Session dictionaries *)

Lemma key_eqb_sym (a b : json) : Json.key_eqb a b = Json.key_eqb b a.
Proof.
  destruct a as [|x|x|x|x|x], b as [|y|y|y|y|y]; simpl; try done.
  - by destruct x, y.
  - apply Z.eqb_sym.
  - apply String.eqb_sym.
Qed.

Lemma dict_get_elem {V} (k : json) (d : PyDict.dict V) (v : V) :
  PyDict.get k d = Some v -> exists k', (k', v) ∈ d.
Proof.
  induction d as [|[k' v'] d IH]; simpl; [done|].
  destruct (Json.key_eqb k' k).
  - intros [= ->]. exists k'. left.
  - intros H. destruct (IH H) as [k0 ?]. exists k0. by right.
Qed.

Lemma dict_get_none {V} (k k' : json) (d : PyDict.dict V) (v : V) :
  PyDict.get k d = None -> (k', v) ∈ d -> Json.key_eqb k' k = false.
Proof.
  induction d as [|[k0 v0] d IH]; simpl; [by intros _ ?%elem_of_nil|].
  destruct (Json.key_eqb k0 k) eqn:E; [done|].
  intros H [[= -> ->]|Hin]%elem_of_cons; [done|by apply IH].
Qed.

Lemma dict_get_app_none {V} (k : json) (d1 d2 : PyDict.dict V) :
  PyDict.get k d1 = None -> PyDict.get k (d1 ++ d2) = PyDict.get k d2.
Proof.
  induction d1 as [|[k0 v0] d1 IH]; simpl; [done|].
  destruct (Json.key_eqb k0 k); [done|exact IH].
Qed.

Lemma dict_set_fresh {V} (k : json) (v : V) (d : PyDict.dict V) :
  PyDict.get k d = None -> PyDict.set k v d = d ++ [(k, v)].
Proof.
  induction d as [|[k0 v0] d IH]; simpl; [done|].
  destruct (Json.key_eqb k0 k); [done|]. intros H. by rewrite IH.
Qed.

Lemma dict_set_elem {V} (k k' : json) (v v' : V) (d : PyDict.dict V) :
  (k', v') ∈ PyDict.set k v d -> v' = v \/ (k', v') ∈ d.
Proof.
  induction d as [|[k0 v0] d IH]; simpl.
  - intros [[= -> ->]|H%elem_of_nil]%elem_of_cons; [by left|done].
  - destruct (Json.key_eqb k0 k).
    + intros [[= -> ->]|H]%elem_of_cons; [by left|]. right. by right.
    + intros [[= -> ->]|H]%elem_of_cons; [right; left|].
      destruct (IH H); [by left|]. right. by right.
Qed.

(** A message of an extended dictionary was there before or is one of
    the appended. *)
Lemma dict_extend_elem {A} (k k' : json) (vs ms : list A) (d : PyDict.dict (list A)) (m : A) :
  (k', ms) ∈ PyDict.extend k vs d -> m ∈ ms ->
  m ∈ vs \/ exists k0 ms0, (k0, ms0) ∈ d /\ m ∈ ms0.
Proof.
  unfold PyDict.extend. destruct (PyDict.get k d) as [old|] eqn:E.
  - intros [->|H]%dict_set_elem Hm.
    + apply elem_of_app in Hm as [Hm|Hm]; [|by left].
      right. destruct (dict_get_elem _ _ _ E) as [k0 ?]. by exists k0, old.
    + right. by exists k', ms.
  - intros [->|H]%dict_set_elem Hm; [by left|].
    right. by exists k', ms.
Qed.

(** A dictionary filled from an empty one by [set] or [extend], key after
    key of a well-formed dictionary, is that dictionary. *)
Lemma dict_fill_fresh {V} (f : PyDict.dict V -> json * V -> PyDict.dict V) :
  (forall acc k v, PyDict.get k acc = None -> f acc (k, v) = acc ++ [(k, v)]) ->
  forall d acc,
    PyDict.wf d ->
    (forall k v, (k, v) ∈ d -> PyDict.get k acc = None) ->
    fold_left f d acc = acc ++ d.
Proof.
  intros Hf. induction d as [|[k v] d IH]; intros acc Hwf Hfresh; simpl.
  - by rewrite app_nil_r.
  - destruct Hwf as (_ & Hk & Hwf).
    rewrite Hf by (apply (Hfresh k v); left).
    rewrite IH; [by rewrite <- app_assoc|done|].
    intros k' v' Hin.
    rewrite dict_get_app_none by (apply (Hfresh k' v'); by right).
    simpl. rewrite key_eqb_sym, (dict_get_none _ _ _ _ Hk Hin). done.
Qed.



(** ** Loaders *)

(** What the opencode loader emits for one file. *)
Lemma opencode_message_emit fromts st o titles file sid m :
  opencode_message fromts st o titles file = Some (Emit sid m) ->
  msg_tools m = [] /\ msg_source m = "opencode" /\
  PyStr.strip (msg_text m) <> EmptyString.
Proof.
  unfold opencode_message. intros H.
  repeat (case_match; simplify_option_eq; try done).
  all: simpl; repeat split; try done.
  all: apply nonempty_true; by apply negb_false_iff.
Qed.

Lemma opencode_loop_messages fromts st o titles (P : message -> Prop) :
  (forall file sid m,
      opencode_message fromts st o titles file = Some (Emit sid m) -> P m) ->
  forall files acc sessions,
    opencode_loop fromts st o titles files acc = Some sessions ->
    (forall sid ms m, (sid, ms) ∈ acc -> m ∈ ms -> P m) ->
    forall sid ms m, (sid, ms) ∈ sessions -> m ∈ ms -> P m.
Proof.
  intros HP. induction files as [|file files IH]; intros acc sessions; simpl.
  - by intros [= <-].
  - destruct (opencode_message fromts st o titles file) as [[|sid0 m0]|] eqn:E; [| |done].
    + apply IH.
    + intros H Hacc. apply (IH _ _ H).
      intros sid ms m Hin Hm.
      destruct (dict_extend_elem _ _ _ _ _ _ Hin Hm) as [Hm0|(k0 & ms0 & ? & ?)].
      * apply list_elem_of_singleton in Hm0 as ->. by apply (HP file sid0).
      * by apply (Hacc k0 ms0).
Qed.

Lemma load_opencode_messages_emit fromts st o sessions sid ms m :
  load_opencode_messages fromts st o = Some sessions ->
  (sid, ms) ∈ sessions -> m ∈ ms ->
  msg_tools m = [] /\ msg_source m = "opencode" /\
  PyStr.strip (msg_text m) <> EmptyString.
Proof.
  unfold load_opencode_messages.
  destruct (load_opencode_session_titles (session_files st) []) as [titles|]; [|done].
  simpl. intros H.
  apply (opencode_loop_messages fromts st o titles _
           (opencode_message_emit fromts st o titles) _ _ _ H).
  by intros ? ? ? ?%elem_of_nil.
Qed.

Lemma elem_of_insert_name (x y : string) (l : list string) :
  y ∈ insert_name x l <-> y = x \/ y ∈ l.
Proof.
  induction l as [|z l IH]; simpl.
  - rewrite list_elem_of_singleton, elem_of_nil. tauto.
  - destruct (String.ltb z x); rewrite !elem_of_cons; [rewrite IH|]; tauto.
Qed.

Lemma elem_of_sorted_names (y : string) (l : list string) :
  y ∈ sorted_names l <-> y ∈ l.
Proof.
  induction l as [|x l IH]; simpl; [done|].
  rewrite elem_of_insert_name, IH, elem_of_cons. tauto.
Qed.

(** The tool names of a row are tool names of assistant messages of the
    session. *)
Lemma row_tools_origin tok sid msgs rows r t :
  session_rows tok sid msgs = Some rows -> r ∈ rows -> t ∈ row_answer_tools r ->
  exists m, m ∈ msgs /\ is_assistant m = true /\ t ∈ msg_tools m.
Proof.
  intros Hrows Hr.
  destruct (elem_of_session_rows _ _ _ _ _ Hrows Hr)
    as (sorted & pre & u & rest & _ & Hperm & -> & Hu & Hne & Hrow).
  apply make_row_fields in Hrow as (_ & _ & _ & _ & _ & _ & _ & _ & _ & _ & _ & _ & _ & _ & _ & _ & ->).
  simpl. rewrite elem_of_sorted_names, elem_of_elements, elem_of_tool_union.
  intros (m & [Hm Ha]%elem_of_contributions & Ht).
  exists m. repeat split; try done.
  rewrite Hperm. apply elem_of_app. right. by right.
Qed.

(** C10: every message the opencode loader produces has an empty tool
    list, whatever its role; so every record of a session whose assistant
    messages all come from the opencode loader has an empty answer_tools
    list, and a tool name in a record is always listed by an assistant
    message that was not produced by the opencode loader. *)
Theorem opencode_messages_have_no_tools fromts st o sessions :
  load_opencode_messages fromts st o = Some sessions ->
  (forall sid ms m,
      (sid, ms) ∈ sessions -> m ∈ ms ->
      msg_tools m = [] /\ msg_source m = "opencode") /\
  (forall tok sid msgs rows r,
      (forall m, m ∈ msgs -> is_assistant m = true ->
                 exists sid' ms', (sid', ms') ∈ sessions /\ m ∈ ms') ->
      session_rows tok sid msgs = Some rows -> r ∈ rows ->
      row_answer_tools r = []) /\
  (forall tok sid msgs rows r t,
      session_rows tok sid msgs = Some rows -> r ∈ rows ->
      t ∈ row_answer_tools r ->
      exists m, m ∈ msgs /\ is_assistant m = true /\ t ∈ msg_tools m /\
                forall sid' ms', (sid', ms') ∈ sessions -> m ∉ ms').
Proof.
  intros Hload. split; [|split].
  - intros sid ms m Hin Hm.
    destruct (load_opencode_messages_emit _ _ _ _ _ _ _ Hload Hin Hm) as (? & ? & _).
    done.
  - intros tok sid msgs rows r Hall Hrows Hr.
    destruct (row_answer_tools r) as [|t ts] eqn:E; [done|].
    destruct (row_tools_origin tok sid msgs rows r t Hrows Hr) as (m & Hm & Ha & Ht).
    { rewrite E. left. }
    destruct (Hall m Hm Ha) as (sid' & ms' & Hin & Hm').
    destruct (load_opencode_messages_emit _ _ _ _ _ _ _ Hload Hin Hm') as (Hnil & _).
    rewrite Hnil in Ht. by apply elem_of_nil in Ht.
  - intros tok sid msgs rows r t Hrows Hr Ht.
    destruct (row_tools_origin tok sid msgs rows r t Hrows Hr Ht) as (m & Hm & Ha & Htm).
    exists m. repeat split; try done.
    intros sid' ms' Hin Hm'.
    destruct (load_opencode_messages_emit _ _ _ _ _ _ _ Hload Hin Hm') as (Hnil & _).
    rewrite Hnil in Htm. by apply elem_of_nil in Htm.
Qed.

Lemma opencode_messages_have_no_tools_witness :
  map msg_tools Sample.opencode_session = [[]; []] /\
  (map row_answer_tools <$> session_rows None (JStr "s2") Sample.opencode_session)
  = Some [[]].
Proof.
  pose proof (opencode_messages_have_no_tools
                Sample.fromtimestamp_ms Sample.opencode_tree Sample.default_options
                (default [] Sample.opencode_sessions) eq_refl) as (H1 & H2 & _).
  split.
  - reflexivity.
  - pose (r0 := Sample.row_of (JStr "s2")
                  (turn_pair (hd Sample.userA Sample.opencode_session,
                              tail Sample.opencode_session))).
    change (Some [row_answer_tools r0] = Some [[]]).
    rewrite (H2 None (JStr "s2") Sample.opencode_session [r0] r0); [done| |done|left].
    intros m Hm _. exists (JStr "s2"), Sample.opencode_session. split; [left|done].
Defined.

(** What the claude loader emits for one line. *)
Lemma claude_record_emit fromiso o rec sid m :
  claude_record fromiso o rec = Some (Emit sid m) ->
  msg_source m = "claude" /\ PyStr.strip (msg_text m) <> EmptyString.
Proof.
  unfold claude_record. intros H.
  repeat (case_match; simplify_option_eq; try done).
  all: simpl; split; try done.
  all: apply nonempty_true; by apply negb_false_iff.
Qed.

Lemma claude_file_loop_messages fromiso o (P : message -> Prop) :
  (forall rec sid m, claude_record fromiso o rec = Some (Emit sid m) -> P m) ->
  forall lines acc,
    (forall sid ms m, (sid, ms) ∈ acc -> m ∈ ms -> P m) ->
    forall sid ms m, (sid, ms) ∈ claude_file_loop fromiso o lines acc -> m ∈ ms -> P m.
Proof.
  intros HP. induction lines as [|[rec|] lines IH]; intros acc Hacc; simpl.
  - exact Hacc.
  - destruct (claude_record fromiso o rec) as [[|sid0 m0]|] eqn:E.
    + by apply IH.
    + apply IH. intros sid ms m Hin Hm.
      destruct (dict_extend_elem _ _ _ _ _ _ Hin Hm) as [Hm0|(k0 & ms0 & ? & ?)].
      * apply list_elem_of_singleton in Hm0 as ->. by apply (HP rec sid0).
      * by apply (Hacc k0 ms0).
    + exact Hacc.
  - by apply IH.
Qed.

Lemma load_claude_messages_emit fromiso o files sid ms m :
  (sid, ms) ∈ load_claude_messages fromiso o files -> m ∈ ms ->
  msg_source m = "claude" /\ PyStr.strip (msg_text m) <> EmptyString.
Proof.
  unfold load_claude_messages.
  assert (forall acc : PyDict.dict (list message),
             (forall sid ms m, (sid, ms) ∈ acc -> m ∈ ms ->
                msg_source m = "claude" /\ PyStr.strip (msg_text m) <> EmptyString) ->
             forall sid ms m,
               (sid, ms) ∈ fold_left
                 (fun messages file =>
                    if negb (include_subagents o)
                       && PyStr.contains "/subagents/" (fst file)
                    then messages
                    else match snd file with
                         | Some lines => claude_file_loop fromiso o lines messages
                         | None => messages
                         end) files acc ->
               m ∈ ms ->
               msg_source m = "claude" /\ PyStr.strip (msg_text m) <> EmptyString) as H.
  { induction files as [|[path [lines|]] files IH]; intros acc Hacc; simpl.
    - exact Hacc.
    - apply IH. destruct (_ && _); [exact Hacc|].
      apply (claude_file_loop_messages fromiso o _ (claude_record_emit fromiso o)).
      exact Hacc.
    - apply IH. by destruct (_ && _). }
  apply H. by intros ? ? ? ?%elem_of_nil.
Qed.

Lemma strip_nonempty (s : string) : PyStr.strip s <> EmptyString -> s <> EmptyString.
Proof. intros H ->. by apply H. Qed.

(** The loaders' results are dictionaries. *)
Lemma dict_set_get_none {V} (k k' : json) (v : V) (d : PyDict.dict V) :
  Json.key_eqb k k' = false -> PyDict.get k' d = None ->
  PyDict.get k' (PyDict.set k v d) = None.
Proof.
  intros Hk. induction d as [|[k0 v0] d IH]; simpl.
  - by rewrite Hk.
  - destruct (Json.key_eqb k0 k') eqn:E; [done|]. intros H.
    destruct (Json.key_eqb k0 k); simpl; rewrite E; [done|by apply IH].
Qed.

Lemma dict_set_wf {V} (k : json) (v : V) (d : PyDict.dict V) :
  Json.hashable k = true -> PyDict.wf d -> PyDict.wf (PyDict.set k v d).
Proof.
  intros Hk. induction d as [|[k0 v0] d IH]; simpl.
  - done.
  - intros (Hh & Hnone & Hwf). destruct (Json.key_eqb k0 k) eqn:E; simpl.
    + done.
    + repeat split; [done| |by apply IH].
      apply dict_set_get_none; [|done]. by rewrite key_eqb_sym.
Qed.

Lemma dict_extend_wf {A} (k : json) (vs : list A) (d : PyDict.dict (list A)) :
  Json.hashable k = true -> PyDict.wf d -> PyDict.wf (PyDict.extend k vs d).
Proof.
  intros Hk Hwf. unfold PyDict.extend.
  destruct (PyDict.get k d); by apply dict_set_wf.
Qed.

Lemma opencode_message_key fromts st o titles file sid m :
  opencode_message fromts st o titles file = Some (Emit sid m) ->
  Json.hashable sid = true.
Proof.
  unfold opencode_message. intros H.
  repeat (case_match; simplify_option_eq; try done).
  all: by apply negb_false_iff.
Qed.

Lemma claude_record_key fromiso o rec sid m :
  claude_record fromiso o rec = Some (Emit sid m) -> Json.hashable sid = true.
Proof.
  unfold claude_record. intros H.
  repeat (case_match; simplify_option_eq; try done).
  all: by apply negb_false_iff.
Qed.

Lemma load_opencode_messages_wf fromts st o sessions :
  load_opencode_messages fromts st o = Some sessions -> PyDict.wf sessions.
Proof.
  unfold load_opencode_messages.
  destruct (load_opencode_session_titles (session_files st) []) as [titles|]; [|done].
  simpl. generalize (message_files st), (@nil (json * list message)), (I : PyDict.wf (@nil (json * list message))).
  intros files. revert sessions.
  induction files as [|file files IH]; intros sessions acc Hacc; simpl.
  - by intros [= <-].
  - destruct (opencode_message fromts st o titles file) as [[|sid m]|] eqn:E; [| |done].
    + by apply IH.
    + apply IH. apply dict_extend_wf; [|done]. by apply opencode_message_key in E.
Qed.

Lemma claude_file_loop_wf fromiso o lines acc :
  PyDict.wf acc -> PyDict.wf (claude_file_loop fromiso o lines acc).
Proof.
  revert acc. induction lines as [|[rec|] lines IH]; intros acc Hacc; simpl.
  - done.
  - destruct (claude_record fromiso o rec) as [[|sid m]|] eqn:E; [| |done].
    + by apply IH.
    + apply IH. apply dict_extend_wf; [|done]. by apply claude_record_key in E.
  - by apply IH.
Qed.

Lemma load_claude_messages_wf fromiso o files :
  PyDict.wf (load_claude_messages fromiso o files).
Proof.
  unfold load_claude_messages.
  generalize (@nil (json * list message)), (I : PyDict.wf (@nil (json * list message))).
  induction files as [|[path [lines|]] files IH]; intros acc Hacc; simpl.
  - done.
  - apply IH. destruct (_ && _); [done|]. by apply claude_file_loop_wf.
  - apply IH. by destruct (_ && _).
Qed.

(** No loader produces a message with an empty text. *)
Lemma loaded_text_nonempty fromiso fromts o files st sessions sid ms m :
  ((sid, ms) ∈ load_claude_messages fromiso o files \/
   (load_opencode_messages fromts st o = Some sessions /\ (sid, ms) ∈ sessions)) ->
  m ∈ ms -> msg_text m <> EmptyString.
Proof.
  intros [Hin|[Hload Hin]] Hm; apply strip_nonempty.
  - by destruct (load_claude_messages_emit _ _ _ _ _ _ Hin Hm).
  - by destruct (load_opencode_messages_emit _ _ _ _ _ _ _ Hload Hin Hm) as (_ & _ & ?).
Qed.

(** ** The run on empty sources *)






(** * Further properties of the code *)

(** ** Dictionary keys *)

Lemma key_eqb_trans (a b c : json) :
  Json.key_eqb a b = true -> Json.key_eqb b c = true -> Json.key_eqb a c = true.
Proof.
  destruct a as [|x|x|x|x|x], b as [|y|y|y|y|y], c as [|z|z|z|z|z];
    cbn [Json.key_eqb]; try done; intros H1 H2;
    repeat match goal with
           | H : (_ =? _) = true |- _ => apply Z.eqb_eq in H
           | H : String.eqb _ _ = true |- _ => apply String.eqb_eq in H
           | H : Bool.eqb _ _ = true |- _ => apply Bool.eqb_prop in H
           end;
    repeat match goal with b : bool |- _ => destruct b end;
    simpl in *; subst; rewrite ?Z.eqb_refl, ?String.eqb_refl;
    try done; try lia.
Qed.

Lemma key_eqb_false_l (k0 k' k : json) :
  Json.key_eqb k0 k' = true -> Json.key_eqb k' k = false -> Json.key_eqb k0 k = false.
Proof.
  intros H1 H2. destruct (Json.key_eqb k0 k) eqn:E; [|done].
  rewrite <- H2. symmetry. apply key_eqb_trans with k0; [by rewrite key_eqb_sym|done].
Qed.

Lemma dict_get_proper {V} (k k' : json) (d : PyDict.dict V) :
  Json.key_eqb k' k = true -> PyDict.get k' d = PyDict.get k d.
Proof.
  intros Hk. induction d as [|[k0 v0] d IH]; simpl; [done|].
  destruct (Json.key_eqb k0 k') eqn:E1, (Json.key_eqb k0 k) eqn:E2; try done.
  - by rewrite (key_eqb_trans _ _ _ E1 Hk) in E2.
  - rewrite key_eqb_sym in Hk. by rewrite (key_eqb_trans _ _ _ E2 Hk) in E1.
Qed.

Lemma dict_get_set_same {V} (k k' : json) (v : V) (d : PyDict.dict V) :
  Json.key_eqb k' k = true -> PyDict.get k (PyDict.set k' v d) = Some v.
Proof.
  intros Hk. induction d as [|[k0 v0] d IH]; simpl.
  - by rewrite Hk.
  - destruct (Json.key_eqb k0 k') eqn:E1; simpl.
    + by rewrite (key_eqb_trans _ _ _ E1 Hk).
    + destruct (Json.key_eqb k0 k) eqn:E2; [|done].
      rewrite key_eqb_sym in Hk. by rewrite (key_eqb_trans _ _ _ E2 Hk) in E1.
Qed.

Lemma dict_get_set_other {V} (k k' : json) (v : V) (d : PyDict.dict V) :
  Json.key_eqb k' k = false -> PyDict.get k (PyDict.set k' v d) = PyDict.get k d.
Proof.
  intros Hk. induction d as [|[k0 v0] d IH]; simpl.
  - by rewrite Hk.
  - destruct (Json.key_eqb k0 k') eqn:E1; simpl.
    + by rewrite (key_eqb_false_l _ _ _ E1 Hk).
    + by destruct (Json.key_eqb k0 k).
Qed.

(** Lookup after [setdefault(k', []).extend(vs)]. *)
Lemma dict_get_extend {A} (k k' : json) (vs : list A) (d : PyDict.dict (list A)) :
  PyDict.get k (PyDict.extend k' vs d)
  = if Json.key_eqb k' k then Some (default [] (PyDict.get k d) ++ vs)
    else PyDict.get k d.
Proof.
  unfold PyDict.extend. destruct (Json.key_eqb k' k) eqn:Hk.
  - rewrite <- (dict_get_proper k k' d Hk).
    destruct (PyDict.get k' d); by rewrite dict_get_set_same.
  - destruct (PyDict.get k' d); by rewrite dict_get_set_other.
Qed.

Lemma group_by_key_get {A} (items : list (json * A)) :
  forall (acc : PyDict.dict (list A)) (k : json),
    PyDict.get k (group_by_key items acc)
    = match filter (fun kv => Json.key_eqb (fst kv) k = true) items with
      | [] => PyDict.get k acc
      | found => Some (default [] (PyDict.get k acc) ++ map snd found)
      end.
Proof.
  unfold group_by_key.
  induction items as [|[k' v] items IH]; intros acc k; simpl; [done|].
  rewrite IH, dict_get_extend, filter_cons. simpl.
  destruct (Json.key_eqb k' k) eqn:Hk.
  - rewrite decide_True by done. simpl.
    destruct (filter _ items) as [|x found]; simpl.
    + done.
    + by rewrite <- app_assoc.
  - by rewrite decide_False by congruence.
Qed.

Lemma group_by_key_wf {A} (items : list (json * A)) (acc : PyDict.dict (list A)) :
  Forall (fun kv => Json.hashable (fst kv) = true) items ->
  PyDict.wf acc -> PyDict.wf (group_by_key items acc).
Proof.
  unfold group_by_key. revert acc.
  induction items as [|[k v] items IH]; intros acc Hh Hacc; simpl; [done|].
  apply Forall_cons in Hh as [Hk Hh]. apply IH; [done|].
  by apply dict_extend_wf.
Qed.

(** Every value of the grouped dictionary is the list of the items under
    its key. *)
Lemma group_by_key_elem {A} (items : list (json * A)) (k : json) (vs : list A) :
  (k, vs) ∈ group_by_key items [] ->
  Forall (fun kv => Json.hashable (fst kv) = true) items ->
  vs = map snd (filter (fun kv => Json.key_eqb (fst kv) k = true) items) /\ vs <> [].
Proof.
  intros Hin Hh.
  assert (PyDict.wf (group_by_key items [])) as Hwf by (by apply group_by_key_wf).
  assert (PyDict.get k (group_by_key items []) = Some vs) as Hget.
  { revert Hwf Hin. generalize (group_by_key items []). intros d.
    induction d as [|[k0 v0] d IH]; simpl; [by intros _ ?%elem_of_nil|].
    intros (Hh0 & Hnone & Hwf) [[= <- <-]|Hin]%elem_of_cons.
    - assert (Json.key_eqb k k = true) as ->; [|done].
      destruct k; simpl in *; try done;
        [by destruct b|apply Z.eqb_refl|apply String.eqb_refl].
    - rewrite key_eqb_sym, (dict_get_none _ _ _ _ Hnone Hin). by apply IH. }
  rewrite group_by_key_get in Hget. simpl in Hget.
  destruct (filter _ items) as [|x found]; [done|].
  injection Hget as <-. done.
Qed.

(** ** What the loaders keep *)

Lemma filtered_out_false (o : options) (text : string) :
  filtered_out o text = false -> PyStr.nonempty (PyStr.strip text) = true ->
  passes_filters o text.
Proof.
  unfold filtered_out, passes_filters.
  intros [[H1 H2]%orb_false_iff H3]%orb_false_iff Hne.
  repeat split; try done.
  - intros E. by rewrite E in H1.
  - intros E. by rewrite E in H2.
  - by apply nonempty_true.
Qed.

Lemma extract_opencode_parts_origin st o message_id text :
  extract_opencode_parts st o message_id = Some text -> text <> EmptyString ->
  exists id parts,
    message_id = JStr id /\ id <> EmptyString /\ part_dir st id = Some parts /\
    text = PyStr.join PyStr.nl (omap (opencode_part_text o) parts).
Proof.
  unfold extract_opencode_parts. intros H Hne.
  destruct (Json.truthy message_id) eqn:Et; simpl in H; [|by injection H as <-].
  destruct message_id as [| | |id| |]; try done.
  destruct (part_dir st id) as [parts|] eqn:Ep; [|by injection H as <-].
  injection H as <-. exists id, parts. repeat split; try done.
  simpl in Et. by apply nonempty_true.
Qed.

(** One message file that yields a message. *)
Lemma opencode_message_origin fromts st o titles file sid m :
  opencode_message fromts st o titles file = Some (Emit sid m) ->
  exists msg,
    file = Some (JDict msg) /\
    sid = Json.get_default msg "sessionID" (JStr "unknown") /\
    msg_session_id m = sid /\
    msg_role m = Json.get msg "role" /\
    msg_title m = default JNull (PyDict.get sid titles) /\
    extract_opencode_parts st o (Json.get msg "id") = Some (msg_text m) /\
    filtered_out o (msg_text m) = false /\
    PyStr.nonempty (PyStr.strip (msg_text m)) = true /\
    (include_system o = false -> user_or_assistant (msg_role m) = true).
Proof.
  unfold opencode_message. intros H.
  destruct file as [[| | | | |msg]|]; try done.
  exists msg.
  repeat (case_match; simplify_option_eq; try done).
  all: simpl; repeat split; try done.
  all: try (by apply negb_false_iff).
  all: try (intros Hsys; rewrite Hsys in *; simpl in *;
            by apply negb_false_iff).
Qed.

(** One line of a claude log that yields a message. *)
Lemma claude_record_origin fromiso o rec sid m :
  claude_record fromiso o rec = Some (Emit sid m) ->
  exists r msg,
    rec = JDict r /\ Json.get r "message" = JDict msg /\
    sid = Json.get_default r "sessionId" (JStr "unknown") /\
    msg_session_id m = sid /\
    msg_role m = Json.get msg "role" /\
    msg_time m = parse_iso fromiso (Json.get r "timestamp") /\
    extract_claude_text o (Json.get msg "content") = Some (msg_text m) /\
    filtered_out o (msg_text m) = false /\
    PyStr.nonempty (PyStr.strip (msg_text m)) = true /\
    (include_system o = false ->
     user_or_assistant (Json.get r "type") = true /\
     user_or_assistant (msg_role m) = true) /\
    msg_model m = match Json.get msg "model" with JStr s => JStr s | _ => JNull end /\
    msg_provider m = (if Json.truthy (msg_model m) then JStr "claude" else JNull) /\
    msg_tools m = (if is_assistant m
                   then extract_claude_tools (Json.get msg "content") else []) /\
    msg_title m = JNull /\ msg_agent m = JNull /\ msg_mode m = JNull.
Proof.
  unfold claude_record. intros H.
  destruct rec as [| | | | |r]; try done.
  destruct (negb (include_system o) && negb (user_or_assistant (Json.get r "type")))
    eqn:Etype; [done|].
  destruct (Json.get r "message") as [| | | | |msg] eqn:Emsg; try done.
  destruct (negb (include_system o) && negb (user_or_assistant (Json.get msg "role")))
    eqn:Erole; [done|].
  destruct (extract_claude_text o (Json.get msg "content")) as [text|] eqn:Etext;
    [|done].
  simpl in H.
  destruct (filtered_out o text) eqn:Ef; [done|].
  destruct (PyStr.nonempty (PyStr.strip text)) eqn:Ene; [|done]. simpl in H.
  destruct (Json.hashable _) eqn:Eh; [|done]. simpl in H.
  injection H as <- <-. exists r, msg. simpl.
  repeat split; try done.
  - rewrite H in Etype. simpl in Etype. by apply negb_false_iff.
  - rewrite H in Erole. simpl in Erole. by apply negb_false_iff.
Qed.

(** The loops of the loaders append the emitted messages in order. *)
Lemma opencode_loop_group fromts st o titles files acc sessions :
  opencode_loop fromts st o titles files acc = Some sessions ->
  sessions = group_by_key (opencode_emitted fromts st o titles files) acc.
Proof.
  revert acc. induction files as [|file files IH]; intros acc; simpl.
  - by intros [= <-].
  - unfold opencode_emitted. simpl.
    destruct (opencode_message fromts st o titles file) as [[|sid m]|]; [| |done].
    + apply IH.
    + intros H. apply IH in H. exact H.
Qed.

Lemma group_by_key_app {A} (l1 l2 : list (json * A)) acc :
  group_by_key (l1 ++ l2) acc = group_by_key l2 (group_by_key l1 acc).
Proof. apply fold_left_app. Qed.

Lemma claude_file_loop_group fromiso o lines acc :
  claude_file_loop fromiso o lines acc
  = group_by_key (claude_file_emitted fromiso o lines) acc.
Proof.
  revert acc. induction lines as [|[rec|] lines IH]; intros acc; simpl; [done| |done].
  destruct (claude_record fromiso o rec) as [[|sid m]|]; [apply IH| |done].
  apply IH.
Qed.

Lemma load_claude_messages_group fromiso o files :
  load_claude_messages fromiso o files
  = group_by_key (claude_emitted fromiso o files) [].
Proof.
  unfold load_claude_messages, claude_emitted.
  generalize (@nil (json * list message)).
  induction files as [|[path lines] files IH]; intros acc; simpl; [done|].
  rewrite group_by_key_app, IH. f_equal.
  destruct (_ && _); [done|]. destruct lines; [|done].
  apply claude_file_loop_group.
Qed.

Lemma elem_of_opencode_emitted fromts st o titles files sid m :
  (sid, m) ∈ opencode_emitted fromts st o titles files ->
  exists file, file ∈ files /\
               opencode_message fromts st o titles file = Some (Emit sid m).
Proof.
  unfold opencode_emitted. intros (file & Hin & H)%list_elem_of_omap.
  exists file. split; [done|].
  destruct (opencode_message fromts st o titles file) as [[|sid' m']|]; try done.
  by injection H as -> ->.
Qed.

Lemma elem_of_claude_file_emitted fromiso o lines sid m :
  (sid, m) ∈ claude_file_emitted fromiso o lines ->
  exists rec, Some rec ∈ lines /\ claude_record fromiso o rec = Some (Emit sid m).
Proof.
  induction lines as [|[rec|] lines IH]; simpl; [by intros ?%elem_of_nil| |].
  - destruct (claude_record fromiso o rec) as [[|sid' m']|] eqn:E.
    + intros H. destruct (IH H) as (r & ? & ?). exists r. split; [by right|done].
    + intros [[= -> ->]|H]%elem_of_cons.
      * exists rec. split; [left|done].
      * destruct (IH H) as (r & ? & ?). exists r. split; [by right|done].
    + by intros ?%elem_of_nil.
  - intros H. destruct (IH H) as (r & ? & ?). exists r. split; [by right|done].
Qed.

Lemma elem_of_claude_emitted fromiso o files sid m :
  (sid, m) ∈ claude_emitted fromiso o files ->
  exists path lines rec,
    (path, Some lines) ∈ files /\ Some rec ∈ lines /\
    (include_subagents o = false -> PyStr.contains "/subagents/" path = false) /\
    claude_record fromiso o rec = Some (Emit sid m).
Proof.
  unfold claude_emitted. intros ([path lines] & Hfile & H)%list_elem_of_In%in_flat_map.
  simpl in H. destruct (negb (include_subagents o) && _) eqn:Es;
    [by apply list_elem_of_In, elem_of_nil in H|].
  destruct lines as [lines|]; [|by apply list_elem_of_In, elem_of_nil in H].
  apply list_elem_of_In, elem_of_claude_file_emitted in H as (rec & ? & ?).
  exists path, lines, rec. repeat split; try done.
  - by apply list_elem_of_In.
  - intros Hs. rewrite Hs in Es. simpl in Es. done.
Qed.

(** A message of a grouped dictionary is one of the grouped items, with
    the key it was stored under equal to its own. *)
Lemma group_by_key_member {A} (items : list (json * A)) (k : json) (vs : list A) (v : A) :
  Forall (fun kv => Json.hashable (fst kv) = true) items ->
  (k, vs) ∈ group_by_key items [] -> v ∈ vs ->
  exists k', (k', v) ∈ items /\ Json.key_eqb k' k = true.
Proof.
  intros Hh Hin Hv.
  destruct (group_by_key_elem _ _ _ Hin Hh) as [-> _].
  apply list_elem_of_fmap in Hv as ([k' v'] & -> & [Hk Hitem]%list_elem_of_filter).
  by exists k'.
Qed.

Lemma opencode_emitted_hashable fromts st o titles files :
  Forall (fun kv => Json.hashable (fst kv) = true)
         (opencode_emitted fromts st o titles files).
Proof.
  apply Forall_forall. intros [sid m] (file & _ & H)%elem_of_opencode_emitted.
  by apply opencode_message_key in H.
Qed.

Lemma claude_emitted_hashable fromiso o files :
  Forall (fun kv => Json.hashable (fst kv) = true) (claude_emitted fromiso o files).
Proof.
  apply Forall_forall.
  intros [sid m] (path & lines & rec & _ & _ & _ & H)%elem_of_claude_emitted.
  by apply claude_record_key in H.
Qed.

(** The message files behind the messages of a loaded opencode session. *)
Lemma load_opencode_messages_origin fromts st o sessions sid ms m :
  load_opencode_messages fromts st o = Some sessions ->
  (sid, ms) ∈ sessions -> m ∈ ms ->
  exists titles file sid',
    load_opencode_session_titles (session_files st) [] = Some titles /\
    file ∈ message_files st /\
    opencode_message fromts st o titles file = Some (Emit sid' m) /\
    Json.key_eqb sid' sid = true.
Proof.
  unfold load_opencode_messages.
  destruct (load_opencode_session_titles (session_files st) []) as [titles|] eqn:Et;
    [|done].
  simpl. intros ->%opencode_loop_group Hin Hm.
  destruct (group_by_key_member _ _ _ _ (opencode_emitted_hashable _ _ _ _ _) Hin Hm)
    as (sid' & (file & ? & ?)%elem_of_opencode_emitted & ?).
  by exists titles, file, sid'.
Qed.

Lemma load_claude_messages_origin fromiso o files sid ms m :
  (sid, ms) ∈ load_claude_messages fromiso o files -> m ∈ ms ->
  exists path lines rec sid',
    (path, Some lines) ∈ files /\ Some rec ∈ lines /\
    (include_subagents o = false -> PyStr.contains "/subagents/" path = false) /\
    claude_record fromiso o rec = Some (Emit sid' m) /\
    Json.key_eqb sid' sid = true.
Proof.
  rewrite load_claude_messages_group. intros Hin Hm.
  destruct (group_by_key_member _ _ _ _ (claude_emitted_hashable _ _ _) Hin Hm)
    as (sid' & (path & lines & rec & ? & ? & ? & ?)%elem_of_claude_emitted & ?).
  by exists path, lines, rec, sid'.
Qed.

(** X1: every message the opencode loader returns passed the content
    filters: with exclude_suggestion_mode its left-trimmed text does not
    start with "[SUGGESTION MODE:", without include_ide_events its text
    does not contain "<ide_opened_file>", its trimmed text does not start
    with the interruption marker and is not empty; and without
    include_system its role is "user" or "assistant". *)
Theorem opencode_loader_filters fromts st o sessions sid ms m :
  load_opencode_messages fromts st o = Some sessions ->
  (sid, ms) ∈ sessions -> m ∈ ms ->
  (exclude_suggestion_mode o = true ->
   PyStr.startswith (PyStr.lstrip (msg_text m)) "[SUGGESTION MODE:" = false) /\
  (include_ide_events o = false ->
   PyStr.contains "<ide_opened_file>" (msg_text m) = false) /\
  PyStr.startswith (PyStr.strip (msg_text m))
    "[Request interrupted by user for tool use]" = false /\
  PyStr.strip (msg_text m) <> EmptyString /\
  (include_system o = false -> is_user m = true \/ is_assistant m = true).
Proof.
  intros Hload Hin Hm.
  destruct (load_opencode_messages_origin _ _ _ _ _ _ _ Hload Hin Hm)
    as (titles & file & sid' & _ & _ & Hmsg & _).
  destruct (opencode_message_origin _ _ _ _ _ _ _ Hmsg)
    as (msg & _ & _ & _ & _ & _ & _ & Hf & Hne & Hrole).
  destruct (filtered_out_false _ _ Hf Hne) as (H1 & H2 & H3 & H4).
  repeat split; try done.
  intros Hsys. specialize (Hrole Hsys). unfold user_or_assistant in Hrole.
  by apply orb_true_iff in Hrole.
Qed.

Lemma opencode_loader_filters_witness :
  PyStr.strip (msg_text (hd Sample.userA Sample.opencode_session)) <> EmptyString /\
  (is_user (hd Sample.userA Sample.opencode_session) = true \/
   is_assistant (hd Sample.userA Sample.opencode_session) = true).
Proof.
  destruct (opencode_loader_filters Sample.fromtimestamp_ms Sample.opencode_tree
              Sample.default_options (default [] Sample.opencode_sessions)
              (JStr "s2") Sample.opencode_session
              (hd Sample.userA Sample.opencode_session) eq_refl)
    as (_ & _ & _ & H4 & H5).
  - vm_compute. left.
  - vm_compute. left.
  - split; [exact H4|exact (H5 eq_refl)].
Defined.

(** X2: every message the claude loader returns passed the same content
    filters, and without include_system its role is "user" or
    "assistant". *)
Theorem claude_loader_filters fromiso o files sid ms m :
  (sid, ms) ∈ load_claude_messages fromiso o files -> m ∈ ms ->
  (exclude_suggestion_mode o = true ->
   PyStr.startswith (PyStr.lstrip (msg_text m)) "[SUGGESTION MODE:" = false) /\
  (include_ide_events o = false ->
   PyStr.contains "<ide_opened_file>" (msg_text m) = false) /\
  PyStr.startswith (PyStr.strip (msg_text m))
    "[Request interrupted by user for tool use]" = false /\
  PyStr.strip (msg_text m) <> EmptyString /\
  (include_system o = false -> is_user m = true \/ is_assistant m = true).
Proof.
  intros Hin Hm.
  destruct (load_claude_messages_origin _ _ _ _ _ _ Hin Hm)
    as (path & lines & rec & sid' & _ & _ & _ & Hrec & _).
  destruct (claude_record_origin _ _ _ _ _ Hrec)
    as (r & msg & _ & _ & _ & _ & _ & _ & _ & Hf & Hne & Hrole & _).
  destruct (filtered_out_false _ _ Hf Hne) as (H1 & H2 & H3 & H4).
  repeat split; try done.
  intros Hsys. destruct (Hrole Hsys) as [_ Hr]. unfold user_or_assistant in Hr.
  by apply orb_true_iff in Hr.
Qed.

Lemma claude_loader_filters_witness :
  PyStr.strip (msg_text Sample.claude_prompt) <> EmptyString /\
  (is_user Sample.claude_prompt = true \/ is_assistant Sample.claude_prompt = true).
Proof.
  destruct (claude_loader_filters Sample.fromisoformat Sample.default_options
              [("projects/p", Some Sample.claude_lines)]
              (JStr "s1") Sample.claude_session Sample.claude_prompt)
    as (_ & _ & _ & H4 & H5).
  - vm_compute. left.
  - vm_compute. left.
  - split; [exact H4|exact (H5 eq_refl)].
Defined.

(** X3: a message of the claude loader has no title, agent or mode; its
    model is a string or null; its provider is "claude" exactly when the
    model is a non-empty string and null otherwise; only a message with
    role "assistant" has tool names, and a tool name is never empty. *)
Theorem claude_loader_message_shape fromiso o files sid ms m :
  (sid, ms) ∈ load_claude_messages fromiso o files -> m ∈ ms ->
  msg_source m = "claude" /\
  msg_title m = JNull /\ msg_agent m = JNull /\ msg_mode m = JNull /\
  (msg_model m = JNull \/ exists s, msg_model m = JStr s) /\
  msg_provider m = (if Json.truthy (msg_model m) then JStr "claude" else JNull) /\
  (is_assistant m = false -> msg_tools m = []) /\
  Forall (fun t => t <> EmptyString) (msg_tools m).
Proof.
  intros Hin Hm.
  destruct (load_claude_messages_emit _ _ _ _ _ _ Hin Hm) as [Hsrc _].
  destruct (load_claude_messages_origin _ _ _ _ _ _ Hin Hm)
    as (path & lines & rec & sid' & _ & _ & _ & Hrec & _).
  destruct (claude_record_origin _ _ _ _ _ Hrec)
    as (r & msg & _ & _ & _ & _ & _ & _ & _ & _ & _ & _ & Hmodel & Hprov &
        Htools & Ht & Ha & Hmo).
  repeat split; try done.
  - rewrite Hmodel. destruct (Json.get msg "model"); eauto.
  - intros Hrole. by rewrite Htools, Hrole.
  - rewrite Htools. destruct (is_assistant m); [|constructor].
    unfold extract_claude_tools. destruct (Json.get msg "content"); try constructor.
    apply Forall_forall. intros t (item & _ & H)%list_elem_of_omap.
    repeat (case_match; try done).
    all: injection H as <-; by apply nonempty_true.
Qed.

Lemma claude_loader_message_shape_witness :
  msg_provider (default Sample.userA (Sample.claude_session !! 1%nat)) = JStr "claude" /\
  msg_provider (default Sample.userA (Sample.claude_session !! 2%nat)) = JNull.
Proof.
  split.
  - refine (proj1 (proj2 (proj2 (proj2 (proj2 (proj2
             (claude_loader_message_shape Sample.fromisoformat Sample.default_options
                [("projects/p", Some Sample.claude_lines)]
                (JStr "s1") Sample.claude_session
                (default Sample.userA (Sample.claude_session !! 1%nat)) _ _))))))).
    + vm_compute. left.
    + vm_compute. right. left.
  - refine (proj1 (proj2 (proj2 (proj2 (proj2 (proj2
             (claude_loader_message_shape Sample.fromisoformat Sample.default_options
                [("projects/p", Some Sample.claude_lines)]
                (JStr "s1") Sample.claude_session
                (default Sample.userA (Sample.claude_session !! 2%nat)) _ _))))))).
    + vm_compute. left.
    + vm_compute. right. right. left.
Defined.

Lemma key_eqb_refl (k : json) : Json.hashable k = true -> Json.key_eqb k k = true.
Proof.
  destruct k; simpl; try done; intros _;
    [by destruct b|apply Z.eqb_refl|apply String.eqb_refl].
Qed.

(** Grouping by the key of the pair is grouping by a function of the
    value, when every pair carries that function's value as its key. *)
Lemma filter_by_own_key {A} (f : A -> json) (items : list (json * A)) (k : json) :
  (forall k' v, (k', v) ∈ items -> f v = k') ->
  map snd (filter (fun kv => Json.key_eqb (fst kv) k = true) items)
  = filter (fun v => Json.key_eqb (f v) k = true) (map snd items).
Proof.
  induction items as [|[k' v] items IH]; intros Hf; [done|].
  simpl. rewrite !filter_cons. simpl.
  rewrite (Hf k' v) by left.
  destruct (decide (Json.key_eqb k' k = true)); simpl; rewrite IH; try done.
  all: intros k0 v0 H0; apply Hf; by right.
Qed.

Lemma group_by_key_stored {A} (items : list (json * A)) (k : json) (v : A) :
  Forall (fun kv => Json.hashable (fst kv) = true) items ->
  (k, v) ∈ items ->
  exists vs, PyDict.get k (group_by_key items []) = Some vs /\ v ∈ vs.
Proof.
  intros Hh Hin. rewrite group_by_key_get.
  assert ((k, v) ∈ filter (fun kv => Json.key_eqb (fst kv) k = true) items) as Hf.
  { apply list_elem_of_filter. split; [|done]. simpl.
    apply key_eqb_refl. rewrite Forall_forall in Hh. by apply (Hh (k, v)). }
  destruct (filter _ items) as [|x found] eqn:E; [by apply elem_of_nil in Hf|].
  eexists. split; [done|]. simpl.
  apply (list_elem_of_fmap_2 snd) in Hf. exact Hf.
Qed.

(** X4: the opencode loader returns a dictionary without repeated keys in
    which every session holds exactly the messages it built with that
    session id, in the order their files were read; no session is empty
    and no message it built is missing. *)
Theorem opencode_sessions_group_emitted fromts st o sessions :
  load_opencode_messages fromts st o = Some sessions ->
  exists titles,
    load_opencode_session_titles (session_files st) [] = Some titles /\
    let built := map snd (opencode_emitted fromts st o titles (message_files st)) in
    PyDict.wf sessions /\
    (forall k ms,
        (k, ms) ∈ sessions ->
        ms <> [] /\
        ms = filter (fun m => Json.key_eqb (msg_session_id m) k = true) built) /\
    (forall m,
        m ∈ built ->
        exists ms, PyDict.get (msg_session_id m) sessions = Some ms /\ m ∈ ms).
Proof.
  intros Hload. pose proof (load_opencode_messages_wf _ _ _ _ Hload) as Hwf.
  unfold load_opencode_messages in Hload.
  destruct (load_opencode_session_titles (session_files st) []) as [titles|] eqn:Et;
    [|done].
  simpl in Hload. apply opencode_loop_group in Hload as ->.
  exists titles. split; [done|]. cbv zeta.
  assert (forall k' v,
             (k', v) ∈ opencode_emitted fromts st o titles (message_files st) ->
             msg_session_id v = k') as Hown.
  { intros k' v (file & _ & H)%elem_of_opencode_emitted.
    by destruct (opencode_message_origin _ _ _ _ _ _ _ H) as (msg & _ & _ & ? & _). }
  split; [done|split].
  - intros k ms Hin.
    destruct (group_by_key_elem _ _ _ Hin (opencode_emitted_hashable _ _ _ _ _))
      as [-> Hne].
    split; [done|]. by apply filter_by_own_key.
  - intros m ([k' v] & -> & Hin)%list_elem_of_fmap. simpl.
    rewrite (Hown _ _ Hin).
    by apply group_by_key_stored; [apply opencode_emitted_hashable|].
Qed.

Lemma opencode_sessions_group_emitted_witness :
  exists titles,
    load_opencode_session_titles (session_files Sample.opencode_tree) [] = Some titles /\
    PyDict.wf (default [] Sample.opencode_sessions).
Proof.
  destruct (opencode_sessions_group_emitted Sample.fromtimestamp_ms
              Sample.opencode_tree Sample.default_options
              (default [] Sample.opencode_sessions) eq_refl)
    as (titles & Ht & Hwf & _).
  by exists titles.
Defined.

(** X5: the claude loader returns a dictionary without repeated keys in
    which every session holds exactly the messages it built with that
    session id, in the order of the files and of their lines, where the
    lines of a file after one that raises build nothing
    ([claude_file_emitted]); no session is empty and no message it built
    is missing. *)
Theorem claude_sessions_group_emitted fromiso o files :
  let sessions := load_claude_messages fromiso o files in
  let built := map snd (claude_emitted fromiso o files) in
  PyDict.wf sessions /\
  (forall k ms,
      (k, ms) ∈ sessions ->
      ms <> [] /\
      ms = filter (fun m => Json.key_eqb (msg_session_id m) k = true) built) /\
  (forall m,
      m ∈ built ->
      exists ms, PyDict.get (msg_session_id m) sessions = Some ms /\ m ∈ ms).
Proof.
  cbv zeta. split; [apply load_claude_messages_wf|].
  assert (forall k' v, (k', v) ∈ claude_emitted fromiso o files ->
                       msg_session_id v = k') as Hown.
  { intros k' v (path & lines & rec & _ & _ & _ & H)%elem_of_claude_emitted.
    by destruct (claude_record_origin _ _ _ _ _ H) as (r & msg & _ & _ & _ & ? & _). }
  rewrite load_claude_messages_group. split.
  - intros k ms Hin.
    destruct (group_by_key_elem _ _ _ Hin (claude_emitted_hashable _ _ _)) as [-> Hne].
    split; [done|]. by apply filter_by_own_key.
  - intros m ([k' v] & -> & Hin)%list_elem_of_fmap. simpl.
    rewrite (Hown _ _ Hin).
    by apply group_by_key_stored; [apply claude_emitted_hashable|].
Qed.

Lemma claude_sessions_group_emitted_witness :
  Sample.claude_session <> [] /\
  Sample.claude_session
  = filter (fun m => Json.key_eqb (msg_session_id m) (JStr "s1") = true)
      (map snd (claude_emitted Sample.fromisoformat Sample.default_options
                  [("projects/p", Some Sample.claude_lines)])).
Proof.
  refine (proj1 (proj2 (claude_sessions_group_emitted
            Sample.fromisoformat Sample.default_options
            [("projects/p", Some Sample.claude_lines)])) (JStr "s1") _ _).
  vm_compute. left.
Defined.

Lemma claude_file_emitted_raise fromiso o before rec after :
  claude_record fromiso o rec = None ->
  claude_file_emitted fromiso o (before ++ Some rec :: after)
  = claude_file_emitted fromiso o before.
Proof.
  intros Hrec. induction before as [|[r|] before IH]; simpl.
  - by rewrite Hrec.
  - destruct (claude_record fromiso o r) as [[|sid m]|]; [done| |done].
    by rewrite IH.
  - done.
Qed.

Lemma claude_emitted_app fromiso o files1 files2 :
  claude_emitted fromiso o (files1 ++ files2)
  = claude_emitted fromiso o files1 ++ claude_emitted fromiso o files2.
Proof. unfold claude_emitted. by rewrite flat_map_app. Qed.

(** X6: in a claude log a line that raises while it is read (a line that
    decodes to something else than an object, or whose session id is a
    list or an object) ends the reading of its file: the lines after it
    are lost without notice, the messages before it and the other files
    are kept. *)
Theorem claude_line_that_raises_ends_file fromiso o files1 files2 path before rec after :
  claude_record fromiso o rec = None ->
  load_claude_messages fromiso o
    (files1 ++ (path, Some (before ++ Some rec :: after)) :: files2)
  = load_claude_messages fromiso o (files1 ++ (path, Some before) :: files2).
Proof.
  intros Hrec. rewrite !load_claude_messages_group. f_equal.
  rewrite !claude_emitted_app. f_equal.
  change ((path, Some (before ++ Some rec :: after)) :: files2)
    with ([(path, Some (before ++ Some rec :: after))] ++ files2).
  change ((path, Some before) :: files2) with ([(path, Some before)] ++ files2).
  rewrite !claude_emitted_app. f_equal.
  unfold claude_emitted. simpl. destruct (_ && _); [done|].
  by rewrite !app_nil_r, claude_file_emitted_raise.
Qed.

Lemma claude_line_that_raises_ends_file_witness :
  load_claude_messages Sample.fromisoformat Sample.default_options
    [("projects/p",
      Some (Sample.claude_lines ++ Some (JList []) :: Sample.claude_lines))]
  = load_claude_messages Sample.fromisoformat Sample.default_options
      [("projects/p", Some Sample.claude_lines)].
Proof.
  exact (claude_line_that_raises_ends_file Sample.fromisoformat
           Sample.default_options [] [] "projects/p" Sample.claude_lines
           (JList []) Sample.claude_lines eq_refl).
Defined.

(** X7: every message the opencode loader returns comes from a message
    file that is an object with a non-empty string "id" whose part
    directory exists; its text is the newline join of what the part files
    of that directory contribute and its role is the file's "role".  A
    message file without such an id or directory yields no message. *)
Theorem opencode_message_needs_parts fromts st o sessions sid ms m :
  load_opencode_messages fromts st o = Some sessions ->
  (sid, ms) ∈ sessions -> m ∈ ms ->
  exists msg id parts,
    Some (JDict msg) ∈ message_files st /\
    Json.get msg "id" = JStr id /\ id <> EmptyString /\
    part_dir st id = Some parts /\
    msg_text m = PyStr.join PyStr.nl (omap (opencode_part_text o) parts) /\
    msg_role m = Json.get msg "role" /\
    msg_session_id m = Json.get_default msg "sessionID" (JStr "unknown").
Proof.
  intros Hload Hin Hm.
  destruct (load_opencode_messages_origin _ _ _ _ _ _ _ Hload Hin Hm)
    as (titles & file & sid' & _ & Hfile & Hmsg & _).
  destruct (opencode_message_origin _ _ _ _ _ _ _ Hmsg)
    as (msg & -> & -> & Hsid & Hrole & _ & Hparts & _ & Hne & _).
  destruct (extract_opencode_parts_origin _ _ _ _ Hparts)
    as (id & parts & Hid & Hidne & Hdir & Htext).
  { apply nonempty_true in Hne. intros E. apply Hne. by rewrite E. }
  exists msg, id, parts. by repeat split.
Qed.

Lemma opencode_message_needs_parts_witness :
  exists msg id parts,
    Some (JDict msg) ∈ message_files Sample.opencode_tree /\
    Json.get msg "id" = JStr id /\ id <> EmptyString /\
    part_dir Sample.opencode_tree id = Some parts /\
    msg_text (hd Sample.userA Sample.opencode_session)
    = PyStr.join PyStr.nl (omap (opencode_part_text Sample.default_options) parts) /\
    msg_role (hd Sample.userA Sample.opencode_session) = Json.get msg "role" /\
    msg_session_id (hd Sample.userA Sample.opencode_session)
    = Json.get_default msg "sessionID" (JStr "unknown").
Proof.
  apply (opencode_message_needs_parts Sample.fromtimestamp_ms Sample.opencode_tree
           Sample.default_options (default [] Sample.opencode_sessions)
           (JStr "s2") Sample.opencode_session _ eq_refl).
  - vm_compute. left.
  - vm_compute. left.
Defined.

(** ** More on the session sort *)

Lemma lt_irrefl (d : datetime) : DT.lt d d = Some false.
Proof.
  unfold DT.lt. destruct (tzinfo d) as [off|].
  - by rewrite Z.eqb_refl, tuple_lt_irrefl.
  - by rewrite tuple_lt_irrefl.
Qed.

Lemma lt_same_zone (a b : datetime) :
  tzinfo a = tzinfo b ->
  DT.lt a b = Some (DT.tuple_lt (DT.fields a) (DT.fields b)).
Proof.
  intros H. unfold DT.lt. rewrite H. destruct (tzinfo b); [|done].
  by rewrite Z.eqb_refl.
Qed.

Lemma filter_none {A} (P : A -> Prop) `{forall x, Decision (P x)} (l : list A) :
  Forall (fun x => ~ P x) l -> filter P l = [].
Proof.
  induction 1 as [|x l Hx Hl IH]; [done|].
  by rewrite filter_cons, decide_False.
Qed.

Lemma before_insert (x y m : message) (l1 l2 : list message) :
  before x y (l1 ++ l2) -> before x y (l1 ++ m :: l2).
Proof.
  intros (i & j & Hij & Hi & Hj).
  assert (forall p z, (l1 ++ l2) !! p = Some z ->
            (l1 ++ m :: l2) !! (if decide (p < length l1)%nat then p else S p)
            = Some z) as Hshift.
  { intros p z Hp. destruct (decide (p < length l1)%nat) as [Hlt|Hge].
    - rewrite lookup_app_l in Hp |- * by done. done.
    - rewrite lookup_app_r in Hp |- * by lia.
      replace (S p - length l1)%nat with (S (p - length l1)) by lia. done. }
  exists (if decide (i < length l1)%nat then i else S i),
         (if decide (j < length l1)%nat then j else S j).
  split; [|split; by apply Hshift].
  destruct (decide (i < length l1)%nat), (decide (j < length l1)%nat); lia.
Qed.

Lemma sort_messages_keeps_order (messages : list message) :
  forall out x y,
    sort_messages messages = Some out ->
    before x y messages ->
    DT.lt (sort_key y) (sort_key x) = Some false ->
    before x y out.
Proof.
  induction messages as [|m l IH]; intros out x y Hsort (i & j & Hij & Hi & Hj) Hxy.
  - by rewrite lookup_nil in Hi.
  - simpl in Hsort. destruct (sort_messages l) as [r|] eqn:Hr; [|done].
    simpl in Hsort.
    destruct (insert_sorted_split _ _ _ Hsort) as (l1 & l2 & -> & -> & H1 & _).
    destruct j as [|j]; [lia|]. simpl in Hj.
    destruct i as [|i]; simpl in Hi.
    + injection Hi as ->.
      assert (y ∈ l1 ++ l2) as Hy.
      { rewrite <- (sort_messages_perm _ _ Hr). by eapply list_elem_of_lookup_2. }
      apply elem_of_app in Hy as [Hy|Hy].
      * rewrite Forall_forall in H1. specialize (H1 y Hy). congruence.
      * apply list_elem_of_lookup_1 in Hy as [k Hk].
        exists (length l1), (length l1 + S k)%nat. split; [lia|]. split.
        -- by rewrite lookup_app_r, Nat.sub_diag by lia.
        -- rewrite lookup_app_r by lia.
           by replace (length l1 + S k - length l1)%nat with (S k) by lia.
    + apply before_insert. apply (IH (l1 ++ l2) x y eq_refl); [|done].
      exists i, j. split; [lia|done].
Qed.

(** X8: the session sort is stable: a message that stands in front of
    another one in the session stands in front of it in the result too,
    unless the key of the other one is below its own.  So messages whose
    keys compare equal (the same timestamp, one instant written with two
    offsets, no timestamp) come out in the order they went in; for the
    messages with any one key the two orders are the same list. *)
Theorem sort_messages_stable (messages out : list message) :
  sort_messages messages = Some out ->
  (forall x y,
      before x y messages ->
      DT.lt (sort_key y) (sort_key x) = Some false ->
      before x y out) /\
  (forall k,
      filter (fun m => sort_key m = k) out
      = filter (fun m => sort_key m = k) messages).
Proof.
  intros Hsort. split.
  - intros x y. by apply sort_messages_keeps_order.
  - intros k. revert out Hsort.
    induction messages as [|m l IH]; intros out; simpl.
    + by intros [= <-].
    + destruct (sort_messages l) as [r|]; [|done]. simpl. intros H.
      destruct (insert_sorted_split _ _ _ H) as (l1 & l2 & -> & -> & H1 & _).
      rewrite (filter_cons _ m l), <- (IH _ eq_refl).
      rewrite !filter_app, !filter_cons.
      destruct (decide (sort_key m = k)) as [Hk|Hk]; [|done].
      rewrite (filter_none _ l1); [done|].
      eapply Forall_impl; [exact H1|]. simpl. intros y Hy Hyk.
      rewrite Hyk, <- Hk, lt_irrefl in Hy. done.
Qed.

Lemma sort_messages_stable_witness :
  before (Sample.msg "user" "A" (Some Sample.t_cet))
         (Sample.msg "assistant" "B" (Some Sample.t_utc))
         [Sample.msg "user" "A" (Some Sample.t_cet);
          Sample.msg "assistant" "B" (Some Sample.t_utc);
          Sample.msg "user" "C" (Some Sample.t_late)] /\
  filter (fun m => sort_key m = DT.min)
         [Sample.undated; Sample.with_tools Sample.undated ["x"]; Sample.userA]
  = filter (fun m => sort_key m = DT.min)
           [Sample.userA; Sample.undated; Sample.with_tools Sample.undated ["x"]].
Proof.
  split.
  - apply (proj1 (sort_messages_stable
                    [Sample.msg "user" "C" (Some Sample.t_late);
                     Sample.msg "user" "A" (Some Sample.t_cet);
                     Sample.msg "assistant" "B" (Some Sample.t_utc)]
                    [Sample.msg "user" "A" (Some Sample.t_cet);
                     Sample.msg "assistant" "B" (Some Sample.t_utc);
                     Sample.msg "user" "C" (Some Sample.t_late)]
                    eq_refl)).
    + exists 1%nat, 2%nat. repeat split. lia.
    + reflexivity.
  - exact (proj2 (sort_messages_stable
                    [Sample.userA; Sample.undated; Sample.with_tools Sample.undated ["x"]]
                    [Sample.undated; Sample.with_tools Sample.undated ["x"]; Sample.userA]
                    eq_refl) DT.min).
Defined.

(** The keys of a sorted result are all naive or all aware. *)
Lemma insert_sorted_one_kind (m : message) (l l' : list message) :
  insert_sorted m l = Some l' ->
  (Forall (fun y => tzinfo (sort_key y) = None) l \/
   Forall (fun y => tzinfo (sort_key y) <> None) l) ->
  Forall (fun y => tzinfo (sort_key y) = None) l' \/
  Forall (fun y => tzinfo (sort_key y) <> None) l'.
Proof.
  intros Hins Hl.
  assert (forall y, y ∈ l ->
            (tzinfo (sort_key y) = None <-> tzinfo (sort_key m) = None)) as Hsame.
  { destruct l as [|y0 l0]; [by intros ? ?%elem_of_nil|].
    simpl in Hins. unfold DT.lt in Hins.
    destruct (tzinfo (sort_key y0)) eqn:E0, (tzinfo (sort_key m)) eqn:Em; try done.
    - intros y Hy. destruct Hl as [Hl|Hl]; rewrite Forall_forall in Hl.
      + by rewrite (Hl y0) in E0 by left.
      + specialize (Hl y Hy). split; [done|]. intros ?. done.
    - intros y Hy. destruct Hl as [Hl|Hl]; rewrite Forall_forall in Hl.
      + by rewrite (Hl y Hy).
      + by destruct (Hl y0); [left|]. }
  destruct (insert_sorted_split _ _ _ Hins) as (l1 & l2 & -> & -> & _ & _).
  destruct (tzinfo (sort_key m)) as [o|] eqn:Em.
  - right. rewrite Forall_forall. intros x Hx E.
    apply elem_of_app in Hx as [Hx|[->|Hx]%elem_of_cons].
    + apply Hsame in E; [done|]. apply elem_of_app. by left.
    + by rewrite Em in E.
    + apply Hsame in E; [done|]. apply elem_of_app. by right.
  - left. rewrite Forall_forall. intros x Hx.
    apply elem_of_app in Hx as [Hx|[->|Hx]%elem_of_cons].
    + apply Hsame; [|done]. apply elem_of_app. by left.
    + done.
    + apply Hsame; [|done]. apply elem_of_app. by right.
Qed.

Lemma sort_messages_one_kind (l out : list message) :
  sort_messages l = Some out ->
  Forall (fun y => tzinfo (sort_key y) = None) out \/
  Forall (fun y => tzinfo (sort_key y) <> None) out.
Proof.
  revert out. induction l as [|m l IH]; intros out; simpl.
  - intros [= <-]. by left.
  - destruct (sort_messages l) as [r|]; [|done]. simpl. intros H.
    apply (insert_sorted_one_kind _ _ _ H). by apply IH.
Qed.

Lemma insert_sorted_aware (m : message) (l : list message) :
  tzinfo (sort_key m) <> None ->
  Forall (fun y => tzinfo (sort_key y) <> None) l ->
  is_Some (insert_sorted m l).
Proof.
  intros Hm. induction 1 as [|y l Hy Hl IH]; simpl; [done|].
  assert (exists b, DT.lt (sort_key y) (sort_key m) = Some b) as [b ->].
  { unfold DT.lt. destruct (tzinfo (sort_key y)), (tzinfo (sort_key m)); try done.
    destruct (_ =? _); eauto. }
  destruct b; [|done]. destruct IH as [l' ->]. done.
Qed.

Lemma sort_messages_aware (l : list message) :
  Forall (fun y => tzinfo (sort_key y) <> None) l -> is_Some (sort_messages l).
Proof.
  induction 1 as [|m l Hm Hl [r Hr]]; simpl; [done|].
  rewrite Hr. simpl. apply insert_sorted_aware; [done|].
  destruct (sort_messages_one_kind _ _ Hr) as [Hn|Ha]; [|done].
  apply sort_messages_perm in Hr.
  rewrite <- Hr in Hn. destruct l as [|y l]; [rewrite <- Hr; constructor|].
  apply Forall_cons in Hn as [Hn _]. apply Forall_cons in Hl as [Hl _]. done.
Qed.

(** X9: the session sort raises exactly when the session has both a
    message whose key has no timezone (its timestamp is naive or missing)
    and a message whose timestamp has one.  So a session with a message
    without timestamp and a message with a timezone-aware timestamp, as
    [parse_iso] returns for a text ending in Z, cannot be sorted. *)
Theorem sort_messages_raises_iff_mixed (messages : list message) :
  (sort_messages messages = None <->
   exists x y, x ∈ messages /\ y ∈ messages /\
               tzinfo (sort_key x) = None /\ tzinfo (sort_key y) <> None) /\
  (forall x y t,
      x ∈ messages -> y ∈ messages ->
      msg_time x = None -> msg_time y = Some t -> tzinfo t <> None ->
      sort_messages messages = None).
Proof.
  assert ((exists x y, x ∈ messages /\ y ∈ messages /\
                       tzinfo (sort_key x) = None /\ tzinfo (sort_key y) <> None) ->
          sort_messages messages = None) as Hmixed.
  { intros (x & y & Hx & Hy & Hnx & Hny).
    destruct (sort_messages messages) as [out|] eqn:E; [|done].
    pose proof (sort_messages_perm _ _ E) as Hp.
    rewrite Hp in Hx, Hy.
    destruct (sort_messages_one_kind _ _ E) as [H|H]; rewrite Forall_forall in H.
    - by destruct Hny; apply H.
    - by destruct (H x Hx). }
  split; [split; [|done]|].
  - intros Hnone.
    destruct (decide (Forall (fun y => tzinfo (sort_key y) = None) messages))
      as [Hn|Hn].
    { destruct (sort_messages_naive _ Hn) as (out & Hout & _). congruence. }
    destruct (decide (Forall (fun y => tzinfo (sort_key y) <> None) messages))
      as [Ha|Ha].
    { destruct (sort_messages_aware _ Ha) as [out Hout]. congruence. }
    apply not_Forall_Exists in Hn; [|apply _].
    apply not_Forall_Exists in Ha; [|apply _].
    apply Exists_exists in Hn as (y & Hy & Hny).
    apply Exists_exists in Ha as (x & Hx & Hnx).
    simpl in Hnx, Hny. exists x, y. repeat split; try done.
    destruct (tzinfo (sort_key x)); [|done]. by destruct Hnx.
  - intros x y t Hx Hy Htx Hty Ht. apply Hmixed.
    exists x, y. repeat split; try done; unfold sort_key.
    + by rewrite Htx.
    + by rewrite Hty.
Qed.

Lemma sort_messages_raises_iff_mixed_witness :
  sort_messages [Sample.claude_prompt; Sample.undated] = None.
Proof.
  apply (proj2 (sort_messages_raises_iff_mixed [Sample.claude_prompt; Sample.undated])
           Sample.undated Sample.claude_prompt Sample.t_utc).
  - right. left.
  - left.
  - reflexivity.
  - reflexivity.
  - discriminate.
Defined.

Lemma insert_sorted_in_order (tz : option Z) (m : message) (l : list message) :
  tzinfo (sort_key m) = tz ->
  Forall (fun y => tzinfo (sort_key y) = tz) l ->
  StronglySorted in_order l ->
  exists l', insert_sorted m l = Some l' /\ l' ≡ₚ m :: l /\
             StronglySorted in_order l'.
Proof.
  intros Hm Hz Hs. induction Hs as [|y l Hs IH Hy]; simpl.
  - exists [m]. repeat split; [done|]. repeat constructor.
  - apply Forall_cons in Hz as [Hyz Hz].
    rewrite lt_same_zone by congruence.
    destruct (DT.tuple_lt (DT.fields (sort_key y)) (DT.fields (sort_key m))) eqn:E.
    + destruct (IH Hz) as (l' & -> & Hp & Hs'). exists (y :: l').
      repeat split; [by rewrite Hp, Permutation_swap|].
      constructor; [done|]. rewrite Hp. constructor; [|done].
      unfold in_order. rewrite lt_same_zone by congruence.
      by rewrite (tuple_lt_asym _ _ E).
    + exists (m :: y :: l). repeat split; [done|].
      constructor; [by constructor|].
      constructor; [unfold in_order; rewrite lt_same_zone by congruence; by rewrite E|].
      rewrite Forall_forall in Hy, Hz |- *. intros z Hz'.
      specialize (Hy z Hz'). unfold in_order in Hy |- *.
      rewrite lt_same_zone in Hy |- * by (rewrite (Hz z Hz'); congruence).
      injection Hy as Hy. f_equal.
      by apply (tuple_lt_negtrans _ (DT.fields (sort_key y))).
Qed.

Lemma sort_messages_in_order_fixed (l : list message) :
  StronglySorted in_order l -> sort_messages l = Some l.
Proof.
  induction 1 as [|x l Hs IH Hx]; [done|].
  simpl. rewrite IH. simpl. destruct l as [|y l]; [done|].
  apply Forall_cons in Hx as [Hy _]. unfold in_order in Hy. simpl. by rewrite Hy.
Qed.

(** X10: a session whose keys all have the same timezone setting (all
    naive or missing, as in an opencode session, or all with one UTC
    offset) is always sorted: the result is a permutation in which no
    message has a key below the key of a message in front of it.  A
    session that is in that order already is returned as it is, so
    sorting twice is sorting once. *)
Theorem sort_messages_orders_one_zone (tz : option Z) (messages : list message) :
  (Forall (fun m => tzinfo (sort_key m) = tz) messages ->
   exists out,
     sort_messages messages = Some out /\ messages ≡ₚ out /\
     StronglySorted in_order out /\
     sort_messages out = Some out) /\
  (StronglySorted in_order messages -> sort_messages messages = Some messages).
Proof.
  split; [|apply sort_messages_in_order_fixed].
  intros Hz.
  assert (exists out, sort_messages messages = Some out /\ messages ≡ₚ out /\
                      StronglySorted in_order out) as (out & Hout & Hp & Hs).
  { induction Hz as [|m l Hm Hl (r & Hr & Hp & Hs)]; simpl.
    - exists []. repeat split; [done|constructor].
    - rewrite Hr. simpl.
      destruct (insert_sorted_in_order tz m r Hm) as (l' & Hl' & Hp' & Hs');
        [by rewrite <- Hp|done|].
      exists l'. repeat split; try done. by rewrite Hp', Hp. }
  exists out. repeat split; try done. by apply sort_messages_in_order_fixed.
Qed.

Lemma sort_messages_orders_one_zone_witness :
  (exists out,
      sort_messages [Sample.userC; Sample.undated; Sample.userA] = Some out /\
      [Sample.userC; Sample.undated; Sample.userA] ≡ₚ out /\
      StronglySorted in_order out /\ sort_messages out = Some out) /\
  sort_messages [Sample.undated; Sample.userA; Sample.userC]
  = Some [Sample.undated; Sample.userA; Sample.userC].
Proof.
  split.
  - apply (proj1 (sort_messages_orders_one_zone None
                    [Sample.userC; Sample.undated; Sample.userA])).
    repeat constructor.
  - apply (proj2 (sort_messages_orders_one_zone None
                    [Sample.undated; Sample.userA; Sample.userC])).
    repeat constructor.
Defined.

(** ** The export when a sort raises *)

Lemma write_sessions_stops tok before sid msgs after :
  sort_messages msgs = None ->
  write_sessions tok (before ++ (sid, msgs) :: after)
  = (fst (write_sessions tok before), false).
Proof.
  intros Hraise. induction before as [|[sid' ms] before IH]; simpl.
  - unfold write_session. by rewrite Hraise.
  - destruct (write_session tok sid' ms) as [[rows [|]]|]; try done.
    rewrite IH. by destruct (write_sessions tok before).
Qed.

(** X11: the export stops at the first session whose sort raises: the
    run ends with that exception, the output file holds the records of
    the sessions before it and nothing of that session or of the sessions
    after it. *)
Theorem export_stops_at_unsortable_session
    (dumps : row -> string) (out_path : string) (tok : option tokenizer)
    (before after : PyDict.dict (list message)) (sid : json) (msgs : list message) :
  (forall sid' ms, (sid', ms) ∈ before -> is_Some (sort_messages ms)) ->
  sort_messages msgs = None ->
  export_sessions dumps out_path tok (before ++ (sid, msgs) :: after)
  = (fst (export_sessions dumps out_path tok before), Uncaught) /\
  exit_status (snd (export_sessions dumps out_path tok
                      (before ++ (sid, msgs) :: after))) = 1.
Proof.
  intros Hbefore Hraise.
  assert (export_sessions dumps out_path tok (before ++ (sid, msgs) :: after)
          = (fst (export_sessions dumps out_path tok before), Uncaught)) as ->;
    [|done].
  unfold export_sessions. rewrite write_sessions_stops by done.
  by destruct (write_sessions tok before) as [rows [|]].
Qed.

Lemma export_stops_at_unsortable_session_witness :
  export_sessions (fun _ => "{}") "output/pairs.jsonl" None
    (Sample.sessions
     ++ (JStr "s9", [Sample.claude_prompt; Sample.undated]) :: Sample.sessions)
  = (fst (export_sessions (fun _ => "{}") "output/pairs.jsonl" None Sample.sessions),
     Uncaught).
Proof.
  refine (proj1 (export_stops_at_unsortable_session (fun _ => "{}")
                   "output/pairs.jsonl" None Sample.sessions Sample.sessions
                   (JStr "s9") [Sample.claude_prompt; Sample.undated] _ eq_refl)).
  intros sid' ms Hin. apply list_elem_of_singleton in Hin. injection Hin as -> ->.
  by eexists.
Defined.

(** ** More on the turn pairer *)

Lemma filter_bool_cons {A} (f : A -> bool) (x : A) (l : list A) :
  filter (fun y => f y = true) (x :: l)
  = if f x then x :: filter (fun y => f y = true) l
    else filter (fun y => f y = true) l.
Proof.
  rewrite filter_cons.
  destruct (f x); [by rewrite decide_True|by rewrite decide_False].
Qed.

Lemma contributions_filter_roles (l : list message) :
  contributions (filter (fun m => is_user m || is_assistant m = true) l)
  = contributions l.
Proof.
  induction l as [|m l IH]; [done|].
  rewrite (filter_bool_cons (fun m => is_user m || is_assistant m)).
  cbn [contributions].
  destruct (is_user m) eqn:Hu; cbn [orb contributions]; [by rewrite Hu|].
  destruct (is_assistant m) eqn:Ha; cbn [contributions]; [|done].
  by rewrite Hu, Ha, IH.
Qed.

Lemma turns_filter_roles (l : list message) :
  turns (filter (fun m => is_user m || is_assistant m = true) l) = turns l.
Proof.
  induction l as [|m l IH]; [done|].
  rewrite (filter_bool_cons (fun m => is_user m || is_assistant m)).
  cbn [turns].
  destruct (is_user m) eqn:Hu; cbn [orb turns].
  - by rewrite Hu, IH, contributions_filter_roles.
  - destruct (is_assistant m) eqn:Ha; cbn [turns]; [|done]. by rewrite Hu, IH.
Qed.

Lemma turns_before_first_user (pre l : list message) :
  Forall (fun m => is_user m = false) pre -> turns (pre ++ l) = turns l.
Proof.
  induction 1 as [|m pre Hm Hpre IH]; [done|]. simpl. by rewrite Hm.
Qed.

(** X12: the pairer takes no notice of messages that are neither user
    nor assistant messages (system messages, when they are loaded): they
    can be removed without changing the pairs.  It also ignores
    everything in front of the first user message. *)
Theorem pair_messages_ignores_other_roles (l : list message) :
  pair_messages (filter (fun m => is_user m || is_assistant m = true) l)
  = pair_messages l /\
  (forall pre, Forall (fun m => is_user m = false) pre ->
               pair_messages (pre ++ l) = pair_messages l).
Proof.
  split.
  - by rewrite !pair_messages_turns, turns_filter_roles.
  - intros pre Hpre. by rewrite !pair_messages_turns, turns_before_first_user.
Qed.

Lemma pair_messages_ignores_other_roles_witness :
  pair_messages ([Sample.asstB; Sample.undated] ++ [Sample.userA; Sample.asstB])
  = pair_messages [Sample.userA; Sample.asstB].
Proof.
  apply (proj2 (pair_messages_ignores_other_roles [Sample.userA; Sample.asstB])).
  by repeat constructor.
Defined.

Lemma map_fst_turns (l : list message) :
  map fst (turns l) = filter (fun m => is_user m = true) l.
Proof.
  induction l as [|m l IH]; [done|]. simpl. rewrite filter_cons.
  destruct (is_user m); [rewrite decide_True by done|rewrite decide_False by done];
    simpl; by rewrite IH.
Qed.

Lemma join_nonempty (sep x : string) (rest : list string) :
  x <> EmptyString -> PyStr.join sep (x :: rest) <> EmptyString.
Proof.
  intros Hx. unfold PyStr.join. simpl. destruct rest; [done|].
  destruct x; [done|]. by rewrite append_cons.
Qed.

(** X13: a pair is never emitted with an empty prompt; its prompt text,
    prompt time, title and prompt metadata are those of one user message
    of the session; the prompts of the emitted pairs are user message
    texts of the session in the same order; and when no message of the
    session has an empty text, no answer is empty. *)
Theorem emitted_prompts_come_from_user_messages (l : list message) :
  (forall p, p ∈ pair_messages l ->
     p_prompt p <> EmptyString /\
     exists u, u ∈ l /\ is_user u = true /\
               p_prompt p = msg_text u /\
               p_prompt_time p = msg_time u /\
               p_title p = msg_title u /\
               p_prompt_meta p
               = PromptMeta (Some (msg_source u)) (msg_model u) (msg_provider u)
                            (msg_agent u) (msg_mode u)) /\
  map p_prompt (pair_messages l)
    `sublist_of` map msg_text (filter (fun m => is_user m = true) l) /\
  ((forall m, m ∈ l -> msg_text m <> EmptyString) ->
   forall p, p ∈ pair_messages l -> p_answer p <> EmptyString).
Proof.
  split; [|split].
  - intros p (pre & u & rest & -> & Hu & Ht & _ & ->)%elem_of_pair_messages.
    split; [done|]. exists u. repeat split; try done.
    apply elem_of_app. right. left.
  - rewrite pair_messages_turns, <- map_fst_turns, <- !list_fmap_compose.
    change (p_prompt ∘ turn_pair) with (msg_text ∘ (@fst message (list message))).
    apply fmap_sublist, sublist_filter.
  - intros Hall p (pre & u & rest & -> & Hu & Ht & Hne & ->)%elem_of_pair_messages.
    simpl. destruct (contributions rest) as [|b bs] eqn:E; [done|].
    simpl. apply join_nonempty, Hall.
    assert (b ∈ contributions rest) as Hb by (rewrite E; left).
    apply elem_of_contributions in Hb as [Hb _].
    apply elem_of_app. right. by right.
Qed.

Lemma emitted_prompts_come_from_user_messages_witness :
  p_prompt (turn_pair (Sample.userA, [Sample.asstB])) <> EmptyString /\
  p_answer (turn_pair (Sample.userA, [Sample.asstB])) <> EmptyString.
Proof.
  pose proof (emitted_prompts_come_from_user_messages
                [Sample.userA; Sample.asstB; Sample.userC]) as (H1 & _ & H3).
  assert (turn_pair (Sample.userA, [Sample.asstB])
            ∈ pair_messages [Sample.userA; Sample.asstB; Sample.userC]) as Hin.
  { vm_compute. left. }
  split.
  - exact (proj1 (H1 _ Hin)).
  - apply (fun H => H3 H _ Hin). intros m Hm.
    repeat (apply elem_of_cons in Hm as [->|Hm]; [discriminate|]).
    by apply elem_of_nil in Hm.
Defined.

(** ** The output records *)

Lemma ltb_leb (a b : string) : String.ltb a b = true -> String.leb a b = true.
Proof. unfold String.ltb, String.leb. by destruct (String.compare a b). Qed.

Lemma string_compare_refl (s : string) : String.compare s s = Eq.
Proof.
  induction s as [|c s IH]; [done|]. simpl.
  unfold Ascii.compare. by rewrite N.compare_refl.
Qed.

Lemma ltb_neq (a b : string) : String.ltb a b = true -> a <> b.
Proof. unfold String.ltb. intros H ->. by rewrite string_compare_refl in H. Qed.

Lemma leb_neq_ltb (a b : string) :
  String.leb a b = true -> a <> b -> String.ltb a b = true.
Proof.
  unfold String.ltb, String.leb. intros H Hne.
  destruct (String.compare a b) eqn:E; try done.
  by apply String.compare_eq_iff in E.
Qed.

Lemma ltb_trans (a b c : string) :
  String.ltb a b = true -> String.ltb b c = true -> String.ltb a c = true.
Proof.
  intros Hab Hbc. apply leb_neq_ltb.
  - apply Is_true_true. apply Is_true_true_2 in Hab as Hab'.
    change (String.le a c). transitivity b; apply Is_true_true_2; by apply ltb_leb.
  - intros ->. apply (ltb_neq _ _ Hab).
    apply String.leb_antisym; by apply ltb_leb.
Qed.

Lemma not_ltb (a b : string) :
  String.ltb a b = false -> a <> b -> String.ltb b a = true.
Proof.
  unfold String.ltb. intros H Hne. rewrite String.compare_antisym.
  destruct (String.compare a b) eqn:E; try done.
  by apply String.compare_eq_iff in E.
Qed.

Lemma insert_name_sorted (x : string) (l : list string) :
  StronglySorted (fun a b => String.ltb a b = true) l -> x ∉ l ->
  StronglySorted (fun a b => String.ltb a b = true) (insert_name x l).
Proof.
  induction 1 as [|y l Hs IH Hy]; intros Hx; simpl.
  - repeat constructor.
  - apply not_elem_of_cons in Hx as [Hxy Hx].
    destruct (String.ltb y x) eqn:E.
    + constructor; [by apply IH|].
      rewrite Forall_forall in Hy |- *. intros z [->|Hz]%elem_of_insert_name; auto.
    + assert (String.ltb x y = true) as Hlt by (by apply not_ltb).
      constructor; [by constructor|]. constructor; [done|].
      eapply Forall_impl; [exact Hy|]. intros z Hz. by apply (ltb_trans _ y).
Qed.

Lemma sorted_names_sorted (l : list string) :
  NoDup l -> StronglySorted (fun a b => String.ltb a b = true) (sorted_names l).
Proof.
  induction 1 as [|x l Hx Hl IH]; simpl; [constructor|].
  apply insert_name_sorted; [done|]. by rewrite elem_of_sorted_names.
Qed.

Lemma count_tokens_nonneg text tok n : count_tokens text tok = Some n -> 0 <= n.
Proof.
  destruct text as [[|c s]|], tok as [k|]; simpl; try (intros [= <-]; lia).
  destruct (encode k (String c s)); simpl; [|done]. intros [= <-]. lia.
Qed.

(** X14: every record written for a session is the record of one user
    message [u] of the sorted session and of the assistant messages that
    follow it up to the next user message, of which there is at least
    one, and every field of the record is fixed by them: session_id is
    the session's dictionary key; prompt is the text of [u] and answer
    the newline join of the texts of those assistant messages; the token
    counts are those of prompt and answer, not negative, and total_tokens
    is their sum; the times are the [isoformat] texts of the time of [u]
    and of the last of those messages; source, title and prompt metadata
    are those of [u]; the answer metadata are the last true values among
    those messages; answer_tools is in strictly ascending order, so
    without repetition, and holds exactly their tool names. *)
Theorem row_fields tok sid msgs rows r :
  session_rows tok sid msgs = Some rows -> r ∈ rows ->
  exists sorted pre u rest,
    sort_messages msgs = Some sorted /\ msgs ≡ₚ sorted /\
    sorted = pre ++ u :: rest /\
    is_user u = true /\ contributions rest <> [] /\
    row_session_id r = sid /\
    row_prompt r = msg_text u /\
    row_answer r = PyStr.join PyStr.nl (map msg_text (contributions rest)) /\
    count_tokens (Some (row_prompt r)) tok = Some (row_prompt_tokens r) /\
    count_tokens (Some (row_answer r)) tok = Some (row_answer_tokens r) /\
    0 <= row_prompt_tokens r /\ 0 <= row_answer_tokens r /\
    row_total_tokens r = row_prompt_tokens r + row_answer_tokens r /\
    row_prompt_time r = serialize_time (msg_time u) /\
    row_answer_time r = serialize_time (last (contributions rest) ≫= msg_time) /\
    row_source r = Some (msg_source u) /\
    row_session_title r = msg_title u /\
    row_prompt_model r = msg_model u /\
    row_prompt_provider r = msg_provider u /\
    row_answer_model r = last_truthy (map msg_model (contributions rest)) /\
    row_answer_provider r = last_truthy (map msg_provider (contributions rest)) /\
    row_answer_agent r = last_truthy (map msg_agent (contributions rest)) /\
    row_answer_mode r = last_truthy (map msg_mode (contributions rest)) /\
    StronglySorted (fun a b => String.ltb a b = true) (row_answer_tools r) /\
    (forall t, t ∈ row_answer_tools r <->
               exists b, b ∈ contributions rest /\ t ∈ msg_tools b).
Proof.
  intros Hrows Hr.
  destruct (elem_of_session_rows _ _ _ _ _ Hrows Hr)
    as (sorted & pre & u & rest & Hsort & Hperm & -> & Hu & Hne & Hrow).
  apply make_row_fields in Hrow
    as (Hpn & Han & Htotal & Hsid & Httl & Hsrc & Hp & Ha & Hpt & Hat
        & Hpm & Hpp & Ham & Hap & Haa & Hamo & Htools).
  cbn [turn_pair p_prompt p_answer p_prompt_time p_answer_time p_title
       p_prompt_meta p_answer_meta prompt_meta_of turn_meta pm_source pm_model
       pm_provider am_model am_provider am_agent am_mode am_tools fst snd] in *.
  exists (pre ++ u :: rest), pre, u, rest.
  rewrite Hp, Ha, Htools.
  repeat split; try done.
  - by apply (count_tokens_nonneg _ _ _ Hpn).
  - by apply (count_tokens_nonneg _ _ _ Han).
  - apply sorted_names_sorted, NoDup_elements.
  - rewrite elem_of_sorted_names, elem_of_elements. by apply elem_of_tool_union.
  - rewrite elem_of_sorted_names, elem_of_elements. by apply elem_of_tool_union.
Qed.

Lemma row_fields_witness :
  row_session_id (Sample.row_of (JStr "s1") (turn_pair (Sample.userA, [Sample.asstB])))
  = JStr "s1" /\
  row_answer (Sample.row_of (JStr "s1") (turn_pair (Sample.userA, [Sample.asstB])))
  <> EmptyString.
Proof.
  destruct (row_fields None (JStr "s1") [Sample.userA; Sample.asstB]
              [Sample.row_of (JStr "s1") (turn_pair (Sample.userA, [Sample.asstB]))]
              (Sample.row_of (JStr "s1") (turn_pair (Sample.userA, [Sample.asstB])))
              eq_refl (list_elem_of_here _ _))
    as (sorted & pre & u & rest & _ & _ & _ & _ & _ & Hsid & _).
  split; [exact Hsid|discriminate].
Defined.

(** ** Merging the two sources *)

Lemma wf_filter_key {V} (d : list (json * V)) (k : json) :
  PyDict.wf d ->
  map snd (filter (fun kv => Json.key_eqb (fst kv) k = true) d)
  = match PyDict.get k d with Some v => [v] | None => [] end.
Proof.
  induction d as [|[k0 v0] d IH]; [done|].
  intros (Hh & Hnone & Hwf). rewrite filter_cons. simpl.
  destruct (Json.key_eqb k0 k) eqn:E.
  - rewrite decide_True by done. simpl. f_equal.
    rewrite IH by done.
    rewrite <- (dict_get_proper k k0 d E), Hnone. done.
  - rewrite decide_False by congruence. by apply IH.
Qed.

Lemma fold_extend_get {A} (items : list (json * list A)) :
  forall (acc : PyDict.dict (list A)) (k : json),
    PyDict.get k (fold_left (fun all kv => PyDict.extend (fst kv) (snd kv) all)
                            items acc)
    = match filter (fun kv => Json.key_eqb (fst kv) k = true) items with
      | [] => PyDict.get k acc
      | found => Some (default [] (PyDict.get k acc) ++ concat (map snd found))
      end.
Proof.
  induction items as [|[k' v] items IH]; intros acc k; simpl; [done|].
  rewrite IH, dict_get_extend, filter_cons. simpl.
  destruct (Json.key_eqb k' k) eqn:Hk.
  - rewrite decide_True by done. simpl.
    destruct (filter _ items) as [|x found]; simpl.
    + by rewrite app_nil_r.
    + by rewrite <- app_assoc.
  - by rewrite decide_False by congruence.
Qed.

Lemma update_empty_wf {V} (d : PyDict.dict V) :
  PyDict.wf d -> PyDict.update [] d = d.
Proof.
  intros Hwf. unfold PyDict.update.
  rewrite (dict_fill_fresh (fun acc kv => PyDict.set (fst kv) (snd kv) acc));
    [done| |done|done].
  intros acc k v H. simpl. by apply dict_set_fresh.
Qed.

Lemma fold_extend_wf {A} (items acc : PyDict.dict (list A)) :
  PyDict.wf items -> PyDict.wf acc ->
  PyDict.wf (fold_left (fun all kv => PyDict.extend (fst kv) (snd kv) all) items acc).
Proof.
  revert acc. induction items as [|[k v] items IH]; intros acc Hi Hacc; simpl; [done|].
  destruct Hi as (Hk & _ & Hi). apply IH; [done|]. by apply dict_extend_wf.
Qed.

Lemma map_fst_set {V} (k : json) (v : V) (d : PyDict.dict V) :
  map fst (PyDict.set k v d)
  = match PyDict.get k d with Some _ => map fst d | None => map fst d ++ [k] end.
Proof.
  induction d as [|[k0 v0] d IH]; simpl; [done|].
  destruct (Json.key_eqb k0 k) eqn:E; simpl; [done|].
  rewrite IH. by destruct (PyDict.get k d).
Qed.

Lemma filter_ext_elem {A} (P Q : A -> Prop)
    `{!forall x, Decision (P x), !forall x, Decision (Q x)} (l : list A) :
  (forall x, x ∈ l -> (P x <-> Q x)) -> filter P l = filter Q l.
Proof.
  induction l as [|a l IH]; intros Hext; [done|].
  rewrite !filter_cons.
  rewrite IH by (intros x Hx; apply Hext; by right).
  destruct (decide (P a)) as [Hp|Hp], (decide (Q a)) as [Hq|Hq]; try done.
  - destruct Hq. apply Hext; [by left|done].
  - destruct Hp. apply Hext; [by left|done].
Qed.

Lemma fold_extend_keys {A} (items : list (json * list A)) :
  forall acc : PyDict.dict (list A),
    PyDict.wf items ->
    map fst (fold_left (fun all kv => PyDict.extend (fst kv) (snd kv) all) items acc)
    = map fst acc
      ++ filter (fun k => ~ is_Some (PyDict.get k acc)) (map fst items).
Proof.
  induction items as [|[k v] items IH]; intros acc Hwf; simpl.
  - by rewrite app_nil_r.
  - destruct Hwf as (Hk & Hnone & Hwf). rewrite IH by done.
    rewrite filter_cons. simpl.
    assert (forall k', k' ∈ map fst items ->
              PyDict.get k' (PyDict.extend k v acc) = PyDict.get k' acc) as Hsame.
    { intros k' ([k'' v''] & -> & Hin)%list_elem_of_fmap. simpl.
      rewrite dict_get_extend.
      by rewrite key_eqb_sym, (dict_get_none _ _ _ _ Hnone Hin). }
    assert (filter (fun k0 => ~ is_Some (PyDict.get k0 (PyDict.extend k v acc)))
                   (map fst items)
            = filter (fun k0 => ~ is_Some (PyDict.get k0 acc)) (map fst items)) as ->.
    { apply filter_ext_elem. intros k' Hk'. by rewrite (Hsame k' Hk'). }
    unfold PyDict.extend.
    destruct (PyDict.get k acc) as [old|] eqn:E.
    + rewrite decide_False by (intros H; apply H; eauto).
      by rewrite map_fst_set, E.
    + rewrite decide_True by (by intros [? ?]).
      rewrite map_fst_set, E. by rewrite <- app_assoc.
Qed.

(** X15: [all_sessions] of [main] holds, under a session id, the claude
    messages of that id followed by its opencode messages; an id of one
    source only keeps that source's list; the keys are the claude ids in
    their order, then the opencode ids that claude does not have. *)
Theorem merge_sources_lookup (cl oc : PyDict.dict (list message)) :
  PyDict.wf cl -> PyDict.wf oc ->
  (forall k, PyDict.get k (merge_sources cl oc)
             = match PyDict.get k cl, PyDict.get k oc with
               | Some a, Some b => Some (a ++ b)
               | Some a, None => Some a
               | None, Some b => Some b
               | None, None => None
               end) /\
  PyDict.wf (merge_sources cl oc) /\
  map fst (merge_sources cl oc)
  = map fst cl ++ filter (fun k => ~ is_Some (PyDict.get k cl)) (map fst oc).
Proof.
  intros Hcl Hoc. unfold merge_sources. rewrite (update_empty_wf cl Hcl).
  split; [|split].
  - intros k. rewrite fold_extend_get.
    match goal with
    | |- match ?f with [] => _ | _ :: _ => _ end = _ =>
        assert (map snd f = match PyDict.get k oc with Some v => [v] | None => [] end)
          as Hf by exact (wf_filter_key oc k Hoc);
        destruct f as [|x found]
    end; destruct (PyDict.get k oc) as [b|]; simpl in Hf; try discriminate.
    + by destruct (PyDict.get k cl).
    + injection Hf as Hx Hfound. destruct found; [|done]. simpl.
      rewrite Hx, app_nil_r. by destruct (PyDict.get k cl).
  - by apply fold_extend_wf.
  - by apply fold_extend_keys.
Qed.

Lemma merge_sources_lookup_witness :
  PyDict.get (JStr "s1")
    (merge_sources [(JStr "s1", [Sample.userA])]
                   [(JStr "s2", [Sample.userC]); (JStr "s1", [Sample.asstB])])
  = Some [Sample.userA; Sample.asstB].
Proof.
  destruct (merge_sources_lookup
              [(JStr "s1", [Sample.userA])]
              [(JStr "s2", [Sample.userC]); (JStr "s1", [Sample.asstB])])
    as (Hget & _); [by repeat split| by repeat split|].
  exact (Hget (JStr "s1")).
Defined.

(** ** The chunker *)

Lemma sum_total_tokens_snoc rows row :
  sum_total_tokens (rows ++ [row])
  = sum_total_tokens rows + default 0 (total_tokens_of row).
Proof.
  unfold sum_total_tokens. induction rows as [|r rows IH]; simpl; [lia|].
  rewrite IH. lia.
Qed.

Lemma chunk_loop_spec mt mp pairs :
  forall chunks current ct cid out,
    chunk_loop mt mp pairs chunks current ct cid = Some out ->
    ct = sum_total_tokens current ->
    Z.of_nat (length current) <= Z.max 1 mp ->
    (length current <= 1)%nat \/ ct <= mt ->
    exists new,
      out = chunks ++ new /\
      concat (map chunk_rows new) = current ++ pairs /\
      (forall i c, new !! i = Some c -> chunk_cid c = cid + Z.of_nat i) /\
      Forall (chunk_ok mt mp) new /\
      greedy mt mp new.
Proof.
  induction pairs as [|row rest IH]; intros chunks current ct cid out Hrun Hct Hlen Htok.
  - simpl in Hrun. injection Hrun as <-. destruct current as [|r current].
    + exists []. rewrite app_nil_r. by repeat split.
    + exists [Chunk cid (r :: current) ct]. simpl. rewrite !app_nil_r.
      repeat split; try done.
      * intros [|i] c; simpl; [|by rewrite lookup_nil].
        intros [= <-]. simpl. lia.
      * apply Forall_singleton. repeat split; simpl; try done.
        destruct Htok as [Htok|Htok]; [left|by right].
        simpl in Htok. destruct current; simpl in *; [done|lia].
  - simpl in Hrun. destruct (total_tokens_of row) as [tt|] eqn:Htt; [|done].
    simpl in Hrun.
    destruct (match current with [] => false | _ => true end
              && ((mt <? ct + tt) || (mp <=? Z.of_nat (length current)))) eqn:Hcond.
    + apply andb_true_iff in Hcond as [Hne Hfull].
      destruct (IH _ _ _ _ _ Hrun) as (new & -> & Hcat & Hids & Hok & Hgreedy).
      { unfold sum_total_tokens. simpl. rewrite Htt. simpl. lia. }
      { simpl. lia. }
      { left. simpl. lia. }
      exists (Chunk cid current ct :: new).
      rewrite <- app_assoc. simpl.
      assert (current <> []) as Hcur by (by destruct current).
      repeat split.
      * by rewrite Hcat.
      * intros [|i] c; simpl.
        -- intros [= <-]. simpl. lia.
        -- intros Hi. rewrite (Hids _ _ Hi). lia.
      * apply Forall_cons. split; [|done]. repeat split; simpl; try done.
        destruct Htok as [Htok|Htok]; [left|by right].
        destruct current as [|? [|? ?]]; simpl in *; try done; lia.
      * destruct new as [|c' new']; [done|].
        simpl. split; [|done].
        intros next Hnext.
        apply Forall_cons in Hok as [(Hrows & _) _].
        simpl in Hcat. destruct (chunk_rows c') as [|r0 rows0]; [done|].
        simpl in Hnext, Hcat. injection Hcat as -> _. injection Hnext as <-.
        unfold closed_by. simpl. rewrite Htt. simpl.
        apply orb_true_iff in Hfull as [H|H]; [left|right]; lia.
    + destruct (IH _ _ _ _ _ Hrun) as (new & -> & Hcat & Hids & Hok & Hgreedy).
      { rewrite sum_total_tokens_snoc, Htt. simpl. lia. }
      { rewrite length_app. destruct current as [|r0 cur]; [simpl; lia|].
        cbn [andb] in Hcond. apply orb_false_iff in Hcond as [_ H].
        apply Z.leb_gt in H. cbn [length] in *. lia. }
      { rewrite length_app. destruct current as [|r0 cur]; [left; simpl; lia|].
        right. cbn [andb] in Hcond. apply orb_false_iff in Hcond as [H _].
        apply Z.ltb_ge in H. lia. }
      exists new. repeat split; try done.
      by rewrite Hcat, <- app_assoc.
Qed.

Lemma greedy_lookup mt mp chunks :
  greedy mt mp chunks ->
  forall i c c' next,
    chunks !! i = Some c -> chunks !! S i = Some c' ->
    head (chunk_rows c') = Some next -> closed_by mt mp c next.
Proof.
  induction chunks as [|c0 [|c1 chunks] IH]; intros Hg i c c' next Hc Hc' Hnext.
  - by rewrite lookup_nil in Hc.
  - simpl in Hc'. by rewrite lookup_nil in Hc'.
  - destruct Hg as [Hhead Hg]. destruct i as [|i].
    + simpl in Hc, Hc'. injection Hc as <-. injection Hc' as <-. by apply Hhead.
    + by apply (IH Hg i c c' next).
Qed.

Lemma make_chunks_spec mt mp pairs chunks :
  make_chunks mt mp pairs = Some chunks ->
  concat (map chunk_rows chunks) = pairs /\
  (forall i c, chunks !! i = Some c -> chunk_cid c = 1 + Z.of_nat i) /\
  Forall (chunk_ok mt mp) chunks /\
  greedy mt mp chunks.
Proof.
  intros Hrun.
  destruct (chunk_loop_spec mt mp pairs [] [] 0 1 chunks Hrun)
    as (new & -> & Hcat & Hids & Hok & Hg); [done|simpl; lia|left; simpl; lia|].
  done.
Qed.

(** X16: the chunks [chunk_pairs] writes split the loaded pairs: read in
    order they give back every pair once and in the input order, no chunk
    is empty, the chunk ids count from 1, and [token_sum] is the sum of
    the [total_tokens] of the chunk's rows (a missing or false value
    counting 0). *)
Theorem make_chunks_partition mt mp pairs chunks :
  make_chunks mt mp pairs = Some chunks ->
  concat (map chunk_rows chunks) = pairs /\
  forall i c, chunks !! i = Some c ->
    chunk_cid c = 1 + Z.of_nat i /\
    chunk_rows c <> [] /\
    token_sum c = sum_total_tokens (chunk_rows c).
Proof.
  intros (Hcat & Hids & Hok & _)%make_chunks_spec. split; [done|].
  intros i c Hc. split; [by apply Hids|].
  rewrite Forall_forall in Hok.
  destruct (Hok c) as (? & ? & _); [|done].
  by eapply list_elem_of_lookup_2.
Qed.

(** X17: a chunk never holds more than [max(1, max_pairs)] pairs, and its
    [token_sum] exceeds [max_total_tokens] only when it holds a single
    pair. *)
Theorem make_chunks_limits mt mp pairs chunks c :
  make_chunks mt mp pairs = Some chunks -> c ∈ chunks ->
  Z.of_nat (length (chunk_rows c)) <= Z.max 1 mp /\
  (length (chunk_rows c) = 1%nat \/ token_sum c <= mt).
Proof.
  intros (_ & _ & Hok & _)%make_chunks_spec Hc.
  rewrite Forall_forall in Hok. by destruct (Hok c Hc) as (_ & _ & ? & ?).
Qed.

(** X18: chunks are filled greedily: a chunk is closed only when the
    first pair of the next chunk would have taken it over the token
    limit, or when it already holds [max_pairs] pairs. *)
Theorem make_chunks_greedy mt mp pairs chunks i c c' next :
  make_chunks mt mp pairs = Some chunks ->
  chunks !! i = Some c -> chunks !! S i = Some c' ->
  head (chunk_rows c') = Some next ->
  mt < token_sum c + default 0 (total_tokens_of next)
  \/ mp <= Z.of_nat (length (chunk_rows c)).
Proof.
  intros (_ & _ & _ & Hg)%make_chunks_spec Hc Hc' Hnext.
  exact (greedy_lookup mt mp chunks Hg i c c' next Hc Hc' Hnext).
Qed.

Lemma chunk_loop_raises mt mp pairs :
  forall chunks current ct cid,
    chunk_loop mt mp pairs chunks current ct cid = None
    <-> exists row, row ∈ pairs /\ total_tokens_of row = None.
Proof.
  induction pairs as [|row rest IH]; intros chunks current ct cid; simpl.
  - split; [done|]. intros (row & Hin & _). by apply elem_of_nil in Hin.
  - destruct (total_tokens_of row) as [tt|] eqn:Htt; simpl.
    + case_match; rewrite IH; split.
      all: try (intros (r & Hin & Hr); exists r; split; [by right|done]).
      all: intros (r & Hin & Hr); exists r; split; [|done].
      all: apply elem_of_cons in Hin as [->|Hin]; [congruence|done].
    + split; [|done]. intros _. exists row. split; [by left|done].
Qed.

Lemma make_chunks_partition_witness :
  concat (map chunk_rows ChunkSample.chunks) = ChunkSample.pairs.
Proof.
  exact (proj1 (make_chunks_partition 12 2 ChunkSample.pairs ChunkSample.chunks eq_refl)).
Defined.

Lemma make_chunks_limits_witness :
  Z.of_nat (length [ChunkSample.row_of 30]) <= Z.max 1 2 /\
  (length [ChunkSample.row_of 30] = 1%nat \/ 30 <= 12).
Proof.
  apply (make_chunks_limits 12 2 ChunkSample.pairs ChunkSample.chunks
           (Chunk 3 [ChunkSample.row_of 30] 30) eq_refl).
  unfold ChunkSample.chunks. set_solver.
Defined.

Lemma make_chunks_greedy_witness :
  12 < 12 + default 0 (total_tokens_of (ChunkSample.row_of 4))
  \/ 2 <= Z.of_nat (length [ChunkSample.row_of 5; ChunkSample.row_of 7]).
Proof.
  exact (make_chunks_greedy 12 2 ChunkSample.pairs ChunkSample.chunks 0
           (Chunk 1 [ChunkSample.row_of 5; ChunkSample.row_of 7] 12)
           (Chunk 2 [ChunkSample.row_of 4] 4)
           (ChunkSample.row_of 4) eq_refl eq_refl eq_refl eq_refl).
Defined.

Lemma total_tokens_of_none row :
  total_tokens_of row = None <-> unusable_row row.
Proof.
  destruct row as [| | | | |fields]; simpl; try done.
  destruct (Json.get fields "total_tokens") as [|[]|n|[|? ?]|[|? ?]|[|? ?]]; simpl;
    try (split; [done|]; try done; by intros []); try done.
  by destruct (n =? 0).
Qed.

(** X19: on loaded rows whose numbers are integers, the chunker raises,
    before it writes any chunk, exactly when a row is no object or
    carries a [total_tokens] that is a non-empty string, list or object;
    on every other input it produces its chunks: a count that is
    missing, null, a boolean or an integer never makes it raise. *)
Theorem make_chunks_raises_iff mt mp pairs :
  (make_chunks mt mp pairs = None <-> exists row, row ∈ pairs /\ unusable_row row)
  /\ (is_Some (make_chunks mt mp pairs) <-> forall row, row ∈ pairs -> ~ unusable_row row)
  /\ (forall row,
        ~ unusable_row row <->
        exists fields,
          row = JDict fields /\
          (Json.get fields "total_tokens" = JNull \/
           (exists b, Json.get fields "total_tokens" = JBool b) \/
           (exists n, Json.get fields "total_tokens" = JInt n) \/
           Json.get fields "total_tokens" = JStr EmptyString \/
           Json.get fields "total_tokens" = JList [] \/
           Json.get fields "total_tokens" = JDict [])).
Proof.
  assert (make_chunks mt mp pairs = None <-> exists row, row ∈ pairs /\ unusable_row row)
    as Hnone.
  { unfold make_chunks. rewrite chunk_loop_raises.
    split; intros (row & Hin & Hrow); exists row; split; try done;
      by apply total_tokens_of_none. }
  split; [done|]. split.
  - rewrite <- not_eq_None_Some, Hnone. split.
    + intros Hno row Hin Hbad. apply Hno. by exists row.
    + intros Hall (row & Hin & Hbad). by apply (Hall row).
  - intros row. split.
    + destruct row as [| | | | |fields]; simpl; try (by intros []).
      intros Hok. exists fields. split; [done|].
      destruct (Json.get fields "total_tokens") as [|b|n|[|c t]|[|v vs]|[|f fs]];
        eauto 10; by destruct Hok.
    + intros (fields & -> & Hv). simpl.
      destruct Hv as [ -> | [ [b ->] | [ [n ->] | [ -> | [ -> | -> ] ] ] ] ]; by intros ?.
Qed.

(** ** The whitespace token count *)

Lemma count_tokens_fallback_split (t : string) :
  count_tokens (Some t) None = Some (Z.of_nat (length (PyStr.split t))).
Proof. by destruct t. Qed.

Lemma snoc_char_nonempty (cur : string) (c : ascii) :
  cur +:+ String c EmptyString <> EmptyString.
Proof. by destruct cur. Qed.

Lemma split_go_space (a : string) :
  forall (cur : string) (c : ascii) (b : string),
    PyStr.isspace c = true ->
    PyStr.split_go cur (a +:+ String c b)
    = PyStr.split_go cur a ++ PyStr.split_go EmptyString b.
Proof.
  induction a as [|x a IH]; intros cur c b Hc.
  - rewrite append_nil_l. simpl. rewrite Hc. by destruct cur.
  - rewrite append_cons. simpl. destruct (PyStr.isspace x).
    + destruct cur; by rewrite IH.
    + by rewrite IH.
Qed.

Lemma split_join_nl (parts : list string) :
  PyStr.split (PyStr.join PyStr.nl parts) = concat (map PyStr.split parts).
Proof.
  unfold PyStr.join, PyStr.split.
  induction parts as [|p [|q parts] IH].
  - done.
  - simpl. by rewrite app_nil_r.
  - change (String.concat PyStr.nl (p :: q :: parts))
      with (p +:+ PyStr.nl +:+ String.concat PyStr.nl (q :: parts)).
    unfold PyStr.nl at 1. rewrite append_cons, append_nil_l.
    rewrite split_go_space by done. by rewrite IH.
Qed.

(** X20: without a tokenizer, the count of texts joined by newlines, as
    [pair_messages] joins the parts of an answer, is the sum of the
    counts of the texts. *)
Theorem whitespace_count_of_joined_answer (parts : list string) :
  exists counts,
    Forall2 (fun part n => count_tokens (Some part) None = Some n) parts counts /\
    count_tokens (Some (PyStr.join PyStr.nl parts)) None = Some (foldr Z.add 0 counts).
Proof.
  rewrite count_tokens_fallback_split, split_join_nl.
  induction parts as [|p parts (counts & Hall & Hsum)].
  - exists []. by split.
  - exists (Z.of_nat (length (PyStr.split p)) :: counts). split.
    + constructor; [apply count_tokens_fallback_split|done].
    + injection Hsum as Hsum.
      cbn [map concat foldr]. by rewrite length_app, Nat2Z.inj_add, Hsum.
Qed.

Lemma split_go_nil (s : string) :
  forall cur, PyStr.split_go cur s = [] <-> cur = EmptyString /\ PyStr.lstrip s = EmptyString.
Proof.
  induction s as [|c s IH]; intros cur; simpl.
  - destruct cur; naive_solver.
  - destruct (PyStr.isspace c).
    + destruct cur; [by rewrite IH|naive_solver].
    + rewrite IH. pose proof (snoc_char_nonempty cur c). naive_solver.
Qed.

Lemma lstrip_head (s : string) :
  PyStr.lstrip s = EmptyString
  \/ exists c r, PyStr.lstrip s = String c r /\ PyStr.isspace c = false.
Proof.
  induction s as [|c s IH]; simpl; [by left|].
  destruct (PyStr.isspace c) eqn:E; [done|]. right. by exists c, s.
Qed.

Lemma strip_empty_iff (s : string) :
  PyStr.strip s = EmptyString <-> PyStr.lstrip s = EmptyString.
Proof.
  unfold PyStr.strip. split; [|by intros ->].
  destruct (lstrip_head s) as [->|(c & r & -> & Hc)]; [done|].
  simpl. rewrite Hc. by destruct (PyStr.rstrip r).
Qed.

Lemma split_go_length (s : string) :
  forall cur,
    (2 * length (PyStr.split_go cur s)
     <= String.length s + match cur with EmptyString => 1 | _ => 2 end)%nat.
Proof.
  induction s as [|c s IH]; intros cur; simpl.
  - destruct cur; simpl; lia.
  - destruct (PyStr.isspace c).
    + destruct cur; [specialize (IH EmptyString); simpl in IH; lia|].
      specialize (IH EmptyString). simpl in *. lia.
    + specialize (IH (cur +:+ String c EmptyString)).
      pose proof (snoc_char_nonempty cur c).
      destruct (cur +:+ String c EmptyString); [done|]. destruct cur; lia.
Qed.

(** X21: without a tokenizer a text counts 0 tokens exactly when it is
    blank (empty after [strip]); a text of [n] characters never counts
    more than [(n + 1) / 2]. *)
Theorem whitespace_count_bounds (t : string) :
  (count_tokens (Some t) None = Some 0 <-> PyStr.strip t = EmptyString) /\
  exists n,
    count_tokens (Some t) None = Some n /\
    0 <= 2 * n <= Z.of_nat (String.length t) + 1.
Proof.
  rewrite count_tokens_fallback_split. unfold PyStr.split. split.
  - rewrite strip_empty_iff. split.
    + intros [= H]. apply (split_go_nil t EmptyString).
      destruct (PyStr.split_go EmptyString t); [done|]. simpl in H. lia.
    + intros H. by rewrite (proj2 (split_go_nil t EmptyString) (conj eq_refl H)).
  - eexists. split; [reflexivity|].
    pose proof (split_go_length t EmptyString). simpl in *. lia.
Qed.

(** ** [escape_xml] *)

Lemma replace_char_app (c : ascii) (new a b : string) :
  replace_char c new (a +:+ b) = replace_char c new a +:+ replace_char c new b.
Proof.
  induction a as [|x a IH]; [done|].
  rewrite append_cons. simpl. destruct (Ascii.eqb x c).
  - by rewrite IH, append_assoc.
  - by rewrite IH, append_cons.
Qed.

Lemma escape_xml_app (a b : string) :
  escape_xml (a +:+ b) = escape_xml a +:+ escape_xml b.
Proof. unfold escape_xml. by rewrite !replace_char_app. Qed.

Lemma escape_xml_one (c : ascii) :
  escape_xml (String c EmptyString) = xml_entity c.
Proof. destruct c as [[] [] [] [] [] [] [] []]; reflexivity. Qed.

Lemma escape_xml_chars (text : string) : escape_xml text = escape_chars text.
Proof.
  induction text as [|c text IH]; [done|].
  change (String c text) with (String c EmptyString +:+ text).
  rewrite escape_xml_app, escape_xml_one, IH. done.
Qed.

(** X22: the five replacements of [escape_xml], made one after the other,
    act as a single pass that replaces each of [&], [<], [>], the double
    quote and the apostrophe by its entity and keeps every other
    character: the [&] of an entity is never escaped again. *)
Theorem escape_xml_charwise (text : string) :
  escape_xml text = escape_chars text.
Proof.
  induction text as [|c text IH]; [done|].
  cbn [escape_chars]. rewrite <- IH, <- escape_xml_one, <- escape_xml_app.
  by rewrite append_cons, append_nil_l.
Qed.

Lemma contains_char_app (c : ascii) (a b : string) :
  PyStr.contains (String c EmptyString) (a +:+ b)
  = PyStr.contains (String c EmptyString) a || PyStr.contains (String c EmptyString) b.
Proof.
  induction a as [|x a IH].
  - rewrite append_nil_l. by destruct b.
  - rewrite append_cons. cbn [PyStr.contains String.prefix]. rewrite IH.
    destruct (ascii_dec c x); [|done].
    by destruct a, b.
Qed.

Lemma xml_entity_no_markup (c : ascii) :
  PyStr.contains "<" (xml_entity c) = false /\
  PyStr.contains ">" (xml_entity c) = false /\
  PyStr.contains (String dquote EmptyString) (xml_entity c) = false /\
  PyStr.contains "'" (xml_entity c) = false.
Proof. destruct c as [[] [] [] [] [] [] [] []]; by vm_compute. Qed.

(** X23: the text [escape_xml] returns holds none of [<], [>], the double
    quote and the apostrophe. *)
Theorem escape_xml_no_markup (text : string) :
  PyStr.contains "<" (escape_xml text) = false /\
  PyStr.contains ">" (escape_xml text) = false /\
  PyStr.contains (String dquote EmptyString) (escape_xml text) = false /\
  PyStr.contains "'" (escape_xml text) = false.
Proof.
  rewrite escape_xml_chars.
  induction text as [|c text (H1 & H2 & H3 & H4)]; [done|].
  cbn [escape_chars]. rewrite !contains_char_app, H1, H2, H3, H4.
  destruct (xml_entity_no_markup c) as (-> & -> & -> & ->). done.
Qed.

Lemma xml_entity_cases (c : ascii) :
  (c = "&"%char /\ xml_entity c = "&amp;") \/
  (c = "<"%char /\ xml_entity c = "&lt;") \/
  (c = ">"%char /\ xml_entity c = "&gt;") \/
  (c = dquote /\ xml_entity c = "&quot;") \/
  (c = "'"%char /\ xml_entity c = "&apos;") \/
  (xml_entity c = String c EmptyString /\ c <> "&"%char).
Proof.
  unfold xml_entity.
  destruct (Ascii.eqb_spec c "&"); [by left|].
  destruct (Ascii.eqb_spec c "<"); [by right; left|].
  destruct (Ascii.eqb_spec c ">"); [by right; right; left|].
  destruct (Ascii.eqb_spec c dquote); [by right; right; right; left|].
  destruct (Ascii.eqb_spec c "'"); [by right; right; right; right; left|].
  by right; right; right; right; right.
Qed.

Lemma xml_entity_prefix_free (x y : ascii) (r1 r2 : string) :
  xml_entity x +:+ r1 = xml_entity y +:+ r2 -> x = y /\ r1 = r2.
Proof.
  intros H.
  destruct (xml_entity_cases x) as [[? Hx]|[[? Hx]|[[? Hx]|[[? Hx]|[[? Hx]|[Hx Hx']]]]]];
    destruct (xml_entity_cases y) as [[? Hy]|[[? Hy]|[[? Hy]|[[? Hy]|[[? Hy]|[Hy Hy']]]]]];
    rewrite Hx, Hy in H; rewrite ?append_cons, ?append_nil_l in H;
    simplify_eq; done.
Qed.

(** X24: [escape_xml] loses nothing: two texts with the same escaped form
    are the same text. *)
Theorem escape_xml_injective (a b : string) :
  escape_xml a = escape_xml b -> a = b.
Proof.
  rewrite !escape_xml_chars. revert b.
  induction a as [|x a IH]; intros [|y b]; cbn [escape_chars]; try done.
  - intros H. destruct (xml_entity_cases y) as [[_ Hy]|[[_ Hy]|[[_ Hy]|[[_ Hy]|[[_ Hy]|[Hy _]]]]]];
      rewrite Hy in H; rewrite ?append_cons in H; done.
  - intros H. destruct (xml_entity_cases x) as [[_ Hx]|[[_ Hx]|[[_ Hx]|[[_ Hx]|[[_ Hx]|[Hx _]]]]]];
      rewrite Hx in H; rewrite ?append_cons in H; done.
  - intros [-> Hr]%xml_entity_prefix_free. by rewrite (IH b Hr).
Qed.

Lemma escape_xml_injective_witness :
  "a<b" = "a<b".
Proof. exact (escape_xml_injective "a<b" "a<b" eq_refl). Defined.

(** ** Session titles of the opencode loader *)

Lemma session_titles_get (files : list (option json)) :
  forall acc titles k,
    load_opencode_session_titles files acc = Some titles ->
    PyDict.get k titles
    = match last (titles_for k files) with
      | Some t => Some t
      | None => PyDict.get k acc
      end.
Proof.
  induction files as [|file files IH]; intros acc titles k Hload.
  - simpl in Hload. by injection Hload as <-.
  - unfold titles_for in *. simpl in Hload.
    destruct file as [[| | | | |payload]|]; cbn [omap list_omap];
      try (by apply IH).
    fold (@omap list _ _ _
            (fun file : option json =>
               match file with
               | Some (JDict payload) =>
                   if Json.truthy (Json.get payload "id")
                      && Json.truthy (Json.get payload "title")
                      && Json.key_eqb (Json.get payload "id") k
                   then Some (Json.get payload "title") else None
               | _ => None
               end) files).
    destruct (Json.truthy (Json.get payload "id")
              && Json.truthy (Json.get payload "title")) eqn:Ht; cbn [andb].
    + destruct (Json.hashable (Json.get payload "id")); [|done].
      rewrite (IH _ _ k Hload).
      destruct (Json.key_eqb (Json.get payload "id") k) eqn:Hk.
      * rewrite last_cons. rewrite dict_get_set_same by done.
        by destruct (last _).
      * by rewrite dict_get_set_other by done.
    + by apply IH.
Qed.

(** X25: the title of an opencode message is the title of the last
    session file, in walk order, that carries the message's session id
    together with a true title; it is null when no session file does. *)
Theorem opencode_title_last_wins fromts st o sessions sid ms m :
  load_opencode_messages fromts st o = Some sessions ->
  (sid, ms) ∈ sessions -> m ∈ ms ->
  msg_title m = default JNull (last (titles_for sid (session_files st))).
Proof.
  intros Hload Hin Hm.
  destruct (load_opencode_messages_origin _ _ _ _ _ _ _ Hload Hin Hm)
    as (titles & file & sid' & Ht & _ & Hmsg & Hk).
  destruct (opencode_message_origin _ _ _ _ _ _ _ Hmsg)
    as (msg & _ & _ & _ & _ & -> & _).
  rewrite (dict_get_proper sid sid' titles Hk).
  rewrite (session_titles_get _ _ _ sid Ht). simpl.
  by destruct (last _).
Qed.

Lemma opencode_title_last_wins_witness :
  msg_title (hd Sample.userA Sample.opencode_session) = JStr "T".
Proof.
  apply (opencode_title_last_wins Sample.fromtimestamp_ms Sample.opencode_tree
           Sample.default_options (default [] Sample.opencode_sessions)
           (JStr "s2") Sample.opencode_session
           (hd Sample.userA Sample.opencode_session) eq_refl).
  - vm_compute. left.
  - vm_compute. left.
Defined.

(** ** The counters of [stats] *)

Lemma occurrences_nonneg k keys : 0 <= occurrences k keys.
Proof. unfold occurrences. lia. Qed.

Lemma occurrences_cons k k' keys :
  occurrences k (k' :: keys)
  = (if Json.key_eqb k' k then 1 else 0) + occurrences k keys.
Proof.
  unfold occurrences. rewrite filter_cons.
  destruct (Json.key_eqb k' k) eqn:E.
  - rewrite decide_True by done. simpl length. lia.
  - rewrite decide_False by congruence. lia.
Qed.

Lemma occurrences_app k keys keys' :
  occurrences k (keys ++ keys') = occurrences k keys + occurrences k keys'.
Proof. unfold occurrences. rewrite filter_app, length_app. lia. Qed.

Lemma bind_none_fold {A B} (f : A -> B -> option A) (l : list B) :
  fold_left (fun acc x => acc ≫= fun a => f a x) l None = None.
Proof. by induction l. Qed.

Lemma counter_incr_get key counter counter' k n :
  counter_incr key counter = Some counter' ->
  0 <= n -> PyDict.get k counter = count_entry n ->
  PyDict.get k counter' = count_entry (n + (if Json.key_eqb key k then 1 else 0)).
Proof.
  unfold counter_incr. destruct (Json.hashable key); [|done].
  intros [= <-] Hn Hget. destruct (Json.key_eqb key k) eqn:Hk.
  - rewrite dict_get_set_same by done.
    rewrite (dict_get_proper k key counter Hk), Hget.
    unfold count_entry. destruct (Z.eqb_spec n 0) as [->|]; simpl.
    + done.
    + destruct (Z.eqb_spec (n + 1) 0); [lia|done].
  - rewrite dict_get_set_other by done. by rewrite Z.add_0_r.
Qed.

Lemma tally_get (keys : list json) :
  forall counter out k n,
    fold_left (fun acc key => acc ≫= counter_incr key) keys (Some counter) = Some out ->
    0 <= n -> PyDict.get k counter = count_entry n ->
    PyDict.get k out = count_entry (n + occurrences k keys).
Proof.
  induction keys as [|key keys IH]; intros counter out k n Hrun Hn Hget.
  - simpl in Hrun. injection Hrun as <-. unfold occurrences. simpl.
    by rewrite Z.add_0_r.
  - simpl in Hrun. destruct (counter_incr key counter) as [counter'|] eqn:Hincr.
    + rewrite occurrences_cons, Z.add_assoc.
      apply (IH counter' out k _ Hrun).
      * destruct (Json.key_eqb key k); lia.
      * by apply (counter_incr_get key counter).
    + by rewrite (bind_none_fold (fun a x => counter_incr x a)) in Hrun.
Qed.

Lemma tally_app (keys keys' : list json) (counter : PyDict.dict Z) mid out :
  fold_left (fun acc key => acc ≫= counter_incr key) keys (Some counter) = Some mid ->
  fold_left (fun acc key => acc ≫= counter_incr key) keys' (Some mid) = Some out ->
  fold_left (fun acc key => acc ≫= counter_incr key) (keys ++ keys') (Some counter)
  = Some out.
Proof. intros H1 H2. by rewrite fold_left_app, H1. Qed.

(** A counter that takes the keys [keys_of row] for every row holds, in
    the end, the keys of all rows. *)
Lemma count_rows_tally fromiso (proj : counters -> PyDict.dict Z)
    (keys_of : json -> list json) :
  (forall c row c',
      count_row fromiso c row = Some c' ->
      fold_left (fun acc key => acc ≫= counter_incr key) (keys_of row) (Some (proj c))
      = Some (proj c')) ->
  forall pairs c0 c,
    fold_left (fun acc row => acc ≫= fun c => count_row fromiso c row) pairs (Some c0)
    = Some c ->
    fold_left (fun acc key => acc ≫= counter_incr key)
              (flat_map keys_of pairs) (Some (proj c0))
    = Some (proj c).
Proof.
  intros Hstep pairs. induction pairs as [|row rest IH]; intros c0 c Hrun.
  - simpl in Hrun. by injection Hrun as <-.
  - simpl in Hrun. destruct (count_row fromiso c0 row) as [c1|] eqn:Hrow.
    + simpl. apply tally_app with (proj c1); [by apply Hstep|by apply IH].
    + by rewrite (bind_none_fold (fun a x => count_row fromiso a x)) in Hrun.
Qed.

Lemma count_rows_get fromiso (proj : counters -> PyDict.dict Z)
    (keys_of : json -> list json) :
  (forall c row c',
      count_row fromiso c row = Some c' ->
      fold_left (fun acc key => acc ≫= counter_incr key) (keys_of row) (Some (proj c))
      = Some (proj c')) ->
  proj counters_init = [] ->
  forall pairs c k,
    count_rows fromiso pairs = Some c ->
    PyDict.get k (proj c) = count_entry (occurrences k (flat_map keys_of pairs)).
Proof.
  intros Hstep Hinit pairs c k Hrun.
  apply (count_rows_tally fromiso proj keys_of Hstep) in Hrun.
  rewrite Hinit in Hrun.
  by apply (tally_get _ _ _ k 0 Hrun).
Qed.

Lemma counter_incr_if_fold v counter :
  counter_incr_if v counter
  = fold_left (fun acc key => acc ≫= counter_incr key)
              (if Json.truthy v then [v] else []) (Some counter).
Proof. unfold counter_incr_if. by destruct (Json.truthy v). Qed.

Lemma flat_map_singleton {A B} (f : A -> B) (l : list A) :
  flat_map (fun x => [f x]) l = map f l.
Proof. induction l as [|x l IH]; [done|]. simpl. by rewrite IH. Qed.

Lemma flat_map_true_values field pairs :
  flat_map (fun row =>
              match row with
              | JDict r => if Json.truthy (Json.get r field) then [Json.get r field] else []
              | _ => []
              end) pairs
  = true_values field pairs.
Proof.
  unfold true_values. induction pairs as [|row pairs IH]; [done|].
  cbn [flat_map omap list_omap]. rewrite IH.
  destruct row as [| | | | |r]; try done.
  by destruct (Json.truthy (Json.get r field)).
Qed.

Lemma count_row_inv fromiso c row c' :
  count_row fromiso c row = Some c' ->
  exists r,
    row = JDict r /\
    counter_incr (session_key row) (sessions c) = Some (sessions c') /\
    counter_incr (source_key row) (sources c) = Some (sources c') /\
    counter_incr_if (Json.get r "answer_model") (models c) = Some (models c') /\
    counter_incr_if (Json.get r "answer_provider") (providers c) = Some (providers c') /\
    counter_incr_if (Json.get r "answer_agent") (agents c) = Some (agents c') /\
    counter_incr_if (Json.get r "answer_mode") (modes c) = Some (modes c').
Proof.
  destruct row as [| | | | |r]; try done. intros H. exists r. simpl in H.
  simplify_option_eq. done.
Qed.

(** X26: when the loop of [stats] over the pairs ends, the [sessions]
    counter holds for every key the number of pairs whose [session_id]
    (["unknown"] for a missing or false one) is that key, and the
    [sources] counter the same for [source]: every pair is counted once
    in each, and a key that no pair carries has no entry. *)
Theorem stats_counts_every_pair fromiso pairs c k :
  count_rows fromiso pairs = Some c ->
  PyDict.get k (sessions c) = count_entry (occurrences k (map session_key pairs)) /\
  PyDict.get k (sources c) = count_entry (occurrences k (map source_key pairs)).
Proof.
  intros Hrun. split.
  - rewrite <- flat_map_singleton.
    apply (count_rows_get fromiso sessions (fun row => [session_key row])); [|done..].
    intros c0 row c1 (r & _ & H & _)%count_row_inv. simpl. by rewrite H.
  - rewrite <- flat_map_singleton.
    apply (count_rows_get fromiso sources (fun row => [source_key row])); [|done..].
    intros c0 row c1 (r & _ & _ & H & _)%count_row_inv. simpl. by rewrite H.
Qed.

(** X27: the [models], [providers], [agents] and [modes] counters count
    only the pairs whose field is true: each holds for every key the
    number of pairs whose field has that value, so a pair without the
    field is in none of them. *)
Theorem stats_counts_true_fields fromiso pairs c k :
  count_rows fromiso pairs = Some c ->
  PyDict.get k (models c)
  = count_entry (occurrences k (true_values "answer_model" pairs)) /\
  PyDict.get k (providers c)
  = count_entry (occurrences k (true_values "answer_provider" pairs)) /\
  PyDict.get k (agents c)
  = count_entry (occurrences k (true_values "answer_agent" pairs)) /\
  PyDict.get k (modes c)
  = count_entry (occurrences k (true_values "answer_mode" pairs)).
Proof.
  intros Hrun. repeat split; rewrite <- flat_map_true_values.
  - apply (count_rows_get fromiso models); [|done..].
    intros c0 row c1 (r & -> & _ & _ & H & _)%count_row_inv.
    by rewrite <- counter_incr_if_fold.
  - apply (count_rows_get fromiso providers); [|done..].
    intros c0 row c1 (r & -> & _ & _ & _ & H & _)%count_row_inv.
    by rewrite <- counter_incr_if_fold.
  - apply (count_rows_get fromiso agents); [|done..].
    intros c0 row c1 (r & -> & _ & _ & _ & _ & H & _)%count_row_inv.
    by rewrite <- counter_incr_if_fold.
  - apply (count_rows_get fromiso modes); [|done..].
    intros c0 row c1 (r & -> & _ & _ & _ & _ & _ & H)%count_row_inv.
    by rewrite <- counter_incr_if_fold.
Qed.

Lemma stats_counts_every_pair_witness :
  PyDict.get (JStr "s1") (sessions StatsSample.counted) = Some 2 /\
  PyDict.get (JStr "unknown") (sessions StatsSample.counted) = Some 1 /\
  PyDict.get (JStr "opencode") (sources StatsSample.counted) = Some 1.
Proof.
  split; [|split].
  - exact (proj1 (stats_counts_every_pair Sample.fromisoformat StatsSample.pairs
                    StatsSample.counted (JStr "s1") eq_refl)).
  - exact (proj1 (stats_counts_every_pair Sample.fromisoformat StatsSample.pairs
                    StatsSample.counted (JStr "unknown") eq_refl)).
  - exact (proj2 (stats_counts_every_pair Sample.fromisoformat StatsSample.pairs
                    StatsSample.counted (JStr "opencode") eq_refl)).
Defined.

Lemma stats_counts_true_fields_witness :
  PyDict.get (JStr "m1") (models StatsSample.counted) = Some 2 /\
  PyDict.get JNull (models StatsSample.counted) = None.
Proof.
  split.
  - exact (proj1 (stats_counts_true_fields Sample.fromisoformat StatsSample.pairs
                    StatsSample.counted (JStr "m1") eq_refl)).
  - exact (proj1 (stats_counts_true_fields Sample.fromisoformat StatsSample.pairs
                    StatsSample.counted JNull eq_refl)).
Defined.

(** ** The day of an exported timestamp *)

Lemma contains_char_cons (c x : ascii) (s : string) :
  PyStr.contains (String c EmptyString) (String x s)
  = (if ascii_dec c x then true else false) || PyStr.contains (String c EmptyString) s.
Proof.
  cbn [PyStr.contains String.prefix]. destruct (ascii_dec c x); [|done]. by destruct s.
Qed.

Lemma contains_Z_digit (n : N) (s : string) :
  PyStr.contains "Z" (String (DT.digit (n mod 10)) s) = PyStr.contains "Z" s.
Proof.
  rewrite contains_char_cons.
  destruct (ascii_dec "Z" (DT.digit (n mod 10))) as [E|]; [|done].
  pose proof (digit_is_digit n) as H. by rewrite <- E in H.
Qed.

Lemma contains_Z_decimal_go (fuel : nat) :
  forall n acc,
    PyStr.contains "Z" (DT.decimal_go fuel n acc) = PyStr.contains "Z" acc.
Proof.
  induction fuel as [|fuel IH]; intros n acc; simpl; [done|].
  destruct (n / 10 =? 0)%N.
  - apply contains_Z_digit.
  - rewrite IH. apply contains_Z_digit.
Qed.

Lemma contains_Z_zeros (k : nat) : PyStr.contains "Z" (DT.zeros k) = false.
Proof.
  induction k as [|k IH]; [done|].
  cbn [DT.zeros]. rewrite contains_char_cons, IH. done.
Qed.

Lemma contains_Z_pad0 (w : nat) (n : N) : PyStr.contains "Z" (DT.pad0 w n) = false.
Proof.
  unfold DT.pad0, DT.decimal.
  by rewrite contains_char_app, contains_Z_zeros, contains_Z_decimal_go.
Qed.

Lemma contains_Z_isoformat (d : datetime) :
  PyStr.contains "Z" (DT.isoformat d) = false.
Proof.
  unfold DT.isoformat, DT.format_time, DT.format_offset.
  destruct (tzinfo d) as [off|]; cbv zeta;
    repeat (case_match; try done);
    rewrite ?contains_char_app, ?contains_Z_pad0; done.
Qed.

Lemma replace_Z_id (s : string) : PyStr.contains "Z" s = false -> replace_Z s = s.
Proof.
  induction s as [|x s IH]; [done|].
  rewrite contains_char_cons. intros [Hx Hs]%orb_false_iff. simpl.
  destruct (Ascii.eqb_spec x "Z") as [->|]; [done|]. by rewrite IH.
Qed.

Lemma isoformat_nonempty (d : datetime) : PyStr.nonempty (DT.isoformat d) = true.
Proof. unfold DT.isoformat. by destruct (DT.pad0 4 (year d)). Qed.

(** X28: for the text [export_pairs] wrote for a timestamp, [parse_day]
    of [stats] returns the date of that timestamp, which is the part of
    the text in front of the [T], whenever the standard parser reads back
    what [isoformat] wrote. *)
Theorem stats_day_of_exported_time fromisoformat (d : datetime) :
  fromisoformat (DT.isoformat d) = Some d ->
  parse_day fromisoformat (JStr (DT.isoformat d)) = Some (date_isoformat d) /\
  DT.isoformat d
  = date_isoformat d +:+ "T" +:+ DT.format_time d +:+ DT.format_offset (tzinfo d).
Proof.
  intros Hparse. split.
  - unfold parse_day. cbn [Json.truthy]. rewrite isoformat_nonempty. cbn [negb].
    rewrite (replace_Z_id _ (contains_Z_isoformat d)), Hparse. done.
  - unfold DT.isoformat, date_isoformat. by rewrite !append_assoc.
Qed.

Lemma stats_day_of_exported_time_witness :
  parse_day Sample.fromisoformat (JStr "2025-03-09T14:05:07+00:00")
  = Some "2025-03-09".
Proof.
  exact (proj1 (stats_day_of_exported_time Sample.fromisoformat Sample.t_utc eq_refl)).
Defined.

(** ** From the export to the chunker *)

Lemma sum_total_tokens_app rows rows' :
  sum_total_tokens (rows ++ rows') = sum_total_tokens rows + sum_total_tokens rows'.
Proof.
  unfold sum_total_tokens. induction rows as [|r rows IH]; simpl; [done|].
  rewrite IH. lia.
Qed.

Lemma sum_token_sums mt mp (chunks : list chunk) :
  Forall (chunk_ok mt mp) chunks ->
  foldr (fun c acc => token_sum c + acc) 0 chunks
  = sum_total_tokens (concat (map chunk_rows chunks)).
Proof.
  induction 1 as [|c chunks (_ & Hsum & _) _ IH]; [done|].
  simpl. by rewrite sum_total_tokens_app, IH, Hsum.
Qed.

Lemma total_tokens_of_row (r : row) :
  total_tokens_of (row_json r) = Some (row_total_tokens r).
Proof.
  unfold total_tokens_of, row_json.
  change (Json.get _ "total_tokens") with (JInt (row_total_tokens r)).
  simpl. by destruct (Z.eqb_spec (row_total_tokens r) 0) as [->|].
Qed.

Lemma sum_total_tokens_rows (rows : list row) :
  sum_total_tokens (map row_json rows)
  = foldr (fun r acc => row_total_tokens r + acc) 0 rows.
Proof.
  unfold sum_total_tokens. induction rows as [|r rows IH]; [done|].
  cbn [map foldr]. by rewrite IH, total_tokens_of_row.
Qed.

Lemma load_pairs_rows dumps loads (rows : list row) :
  (forall r, r ∈ rows -> reads_back dumps loads r) ->
  load_pairs loads (map (row_line dumps) rows) = map row_json rows.
Proof.
  unfold load_pairs. induction rows as [|r rows IH]; intros Hread; [done|].
  cbn [map omap list_omap].
  destruct (Hread r) as [Hne Hload]; [by left|].
  rewrite Hne, Hload.
  fold (@omap list _ _ _
          (fun line : string =>
             if PyStr.nonempty (PyStr.strip line) then loads (PyStr.strip line) else None)
          (map (row_line dumps) rows)).
  rewrite IH; [done|]. intros r' Hr'. apply Hread. by right.
Qed.

Lemma export_sessions_lines dumps out_path tok all :
  fst (export_sessions dumps out_path tok all)
  = map (row_line dumps) (fst (write_sessions tok all)).
Proof.
  unfold export_sessions. destruct (write_sessions tok all) as [rows finished].
  by destruct finished.
Qed.

(** X29: [chunk_pairs] run on the file [export_pairs] wrote loads one
    pair per written row, in order; it stops with "No pairs found. Run
    export_pairs.py first." when no row was written, and otherwise never
    raises: its chunks hold exactly the written rows and their
    [token_sum]s add up to the sum of the rows' [total_tokens].  (Each
    line is read back by the JSON parser as the row that was dumped.) *)
Theorem chunker_reads_exported_rows
    (dumps : row -> string) (loads : string -> option json)
    (out_path : string) (tok : option tokenizer)
    (all_sessions : PyDict.dict (list message)) (mt mp : Z) :
  let rows := fst (write_sessions tok all_sessions) in
  let lines := fst (export_sessions dumps out_path tok all_sessions) in
  (forall r, r ∈ rows -> reads_back dumps loads r) ->
  load_pairs loads lines = map row_json rows /\
  (rows = [] -> chunk_main loads mt mp lines = inl (SystemExit no_pairs_message)) /\
  (rows <> [] ->
   exists chunks,
     chunk_main loads mt mp lines = inr chunks /\
     concat (map chunk_rows chunks) = map row_json rows /\
     foldr (fun c acc => token_sum c + acc) 0 chunks
     = foldr (fun r acc => row_total_tokens r + acc) 0 rows).
Proof.
  intros rows lines Hread.
  assert (load_pairs loads lines = map row_json rows) as Hload.
  { unfold lines. rewrite export_sessions_lines. by apply load_pairs_rows. }
  split; [done|]. unfold chunk_main. rewrite Hload. clearbody rows lines. split.
  - by intros ->.
  - intros Hne.
    destruct (make_chunks mt mp (map row_json rows)) as [chunks|] eqn:Hrun.
    + exists chunks.
      destruct (make_chunks_spec _ _ _ _ Hrun) as (Hcat & _ & Hok & _).
      split. { destruct rows as [|r rows']; [done|]. cbn [map] in *. by rewrite Hrun. }
      split; [done|].
      by rewrite (sum_token_sums mt mp chunks Hok), Hcat, sum_total_tokens_rows.
    + apply chunk_loop_raises in Hrun as (row & (r & -> & _)%list_elem_of_fmap & Hbad).
      by rewrite total_tokens_of_row in Hbad.
Qed.

Lemma chunker_reads_exported_rows_witness :
  exists chunks,
    chunk_main ExportSample.loads 12000 80
      (fst (export_sessions ExportSample.dumps "output/pairs.jsonl" None Sample.sessions))
    = inr chunks /\
    concat (map chunk_rows chunks) = map row_json ExportSample.rows /\
    foldr (fun c acc => token_sum c + acc) 0 chunks
    = foldr (fun r acc => row_total_tokens r + acc) 0 ExportSample.rows.
Proof.
  refine (proj2 (proj2 (chunker_reads_exported_rows ExportSample.dumps ExportSample.loads
                          "output/pairs.jsonl" None Sample.sessions 12000 80 _)) _).
  - intros r Hr. vm_compute in Hr. apply list_elem_of_singleton in Hr as ->.
    split; reflexivity.
  - discriminate.
Defined.

(** ** Truncation of tool output *)

Lemma string_length_app (a b : string) :
  String.length (a +:+ b) = (String.length a + String.length b)%nat.
Proof. induction a as [|c a IH]; [done|]. rewrite append_cons. simpl. by rewrite IH. Qed.

Lemma substring_prefix_length (n : nat) :
  forall s : string,
    (n <= String.length s)%nat ->
    String.length (String.substring 0 n s) = n /\
    String.prefix (String.substring 0 n s) s = true.
Proof.
  induction n as [|n IH]; intros [|c s] Hn; simpl in *; try done; try lia.
  destruct (IH s) as [Hlen Hpre]; [lia|].
  rewrite Hlen. split; [done|]. by destruct (ascii_dec c c).
Qed.

(** X30: with a positive limit [n], a tool output longer than [n]
    characters becomes its first [n] characters followed by ["..."], so
    the kept text never has more than [n + 3] characters; an output of at
    most [n] characters, and any output when the limit is zero or
    negative, is kept whole. *)
Theorem truncate_tool_bounds (n : Z) (out_text : string) :
  (0 < n -> Z.of_nat (String.length (truncate_tool n out_text)) <= n + 3) /\
  (n <= 0 \/ Z.of_nat (String.length out_text) <= n ->
   truncate_tool n out_text = out_text) /\
  (0 < n < Z.of_nat (String.length out_text) ->
   exists kept,
     truncate_tool n out_text = kept +:+ "..." /\
     Z.of_nat (String.length kept) = n /\
     String.prefix kept out_text = true).
Proof.
  unfold truncate_tool.
  destruct (Z.ltb_spec 0 n) as [Hpos|Hpos];
    destruct (Z.ltb_spec n (Z.of_nat (String.length out_text))) as [Hlong|Hlong];
    cbn [andb]; repeat split; try done; try lia.
  - intros _. rewrite string_length_app.
    destruct (substring_prefix_length (Z.to_nat n) out_text) as [-> _]; [lia|].
    simpl. lia.
  - intros _. exists (String.substring 0 (Z.to_nat n) out_text).
    destruct (substring_prefix_length (Z.to_nat n) out_text) as [Hlen Hpre]; [lia|].
    rewrite Hlen. repeat split; [lia|done].
Qed.

Lemma truncate_tool_bounds_witness :
  (exists kept,
      truncate_tool 3 "abcd" = kept +:+ "..." /\
      Z.of_nat (String.length kept) = 3 /\
      String.prefix kept "abcd" = true) /\
  truncate_tool 0 "abcd" = "abcd".
Proof.
  split.
  - apply (proj2 (proj2 (truncate_tool_bounds 3 "abcd"))). simpl. lia.
  - apply (proj1 (proj2 (truncate_tool_bounds 0 "abcd"))). left. lia.
Defined.
